(** * libconfigpp: a shallow embedding of [include/libconfigpp.h]

    The header implements a reader, an in-memory tree and a writer for
    libconfig-style configuration files.  This development embeds

    - the scalar payload [_basic_setting_scalar<T>] and its conversions,
    - the setting tree ([basic_setting] with its list, array and group
      bodies), path addressing ([_at], [exists], [remove]) and the
      [lookupValue(path, out)] family,
    - the tokenizer ([config_tokenizer]), the include expansion
      ([parser::parse], [parser::include]) and the grammar
      ([_get_setting_list] ... [_get_scalar_item]),
    - the printer ([print], [operator<<]),

    and proves properties of them.

    Conventions.  The platform is LP64: [int] is 32 bits, [long] and
    [size_t] are 64 bits.  Integers are modelled in [Z]; the range of the
    C++ type is stated where it matters.  A C++ exception is a value of
    type [exn]; a function that may throw returns a [result]. *)

From Stdlib Require Import ZArith List String Ascii Bool Lia Arith.
From Stdlib Require Import Floats.SpecFloat.
From Stdlib Require Import Numbers.DecimalString Numbers.HexadecimalString.
From Stdlib Require Import DecimalPos.
Import ListNotations.

#[local] Set Warnings "-register-all".

Local Open Scope string_scope.
Local Open Scope Z_scope.

(** ** std::string operations used by the header *)

Module Str.

(** [s.find_first_of(c)]: index of the first occurrence, [None] for
    [npos]. *)
Fixpoint find_first_of (c : ascii) (s : string) : option nat :=
  match s with
  | EmptyString => None
  | String a r =>
      if Ascii.eqb a c then Some O
      else match find_first_of c r with
           | Some i => Some (S i)
           | None => None
           end
  end.

(** [s.find_last_of(c)]. *)
Fixpoint find_last_of (c : ascii) (s : string) : option nat :=
  match s with
  | EmptyString => None
  | String a r =>
      match find_last_of c r with
      | Some i => Some (S i)
      | None => if Ascii.eqb a c then Some O else None
      end
  end.

(** [s.substr(pos)] for [pos <= s.size()]. *)
Fixpoint substr_from (pos : nat) (s : string) : string :=
  match pos, s with
  | O, _ => s
  | S p, String _ r => substr_from p r
  | S _, EmptyString => EmptyString
  end.

(** [s.substr(0, len)]. *)
Fixpoint prefix (len : nat) (s : string) : string :=
  match len, s with
  | O, _ => EmptyString
  | S n, String a r => String a (prefix n r)
  | S _, EmptyString => EmptyString
  end.

(** [s.substr(pos, len)]. *)
Definition substr (pos len : nat) (s : string) : string :=
  prefix len (substr_from pos s).

(** [s[0]]; the terminating NUL for the empty string. *)
Definition front (s : string) : ascii :=
  match s with
  | EmptyString => Ascii.zero
  | String a _ => a
  end.

(** [s[s.size()-1]] of a non-empty string. *)
Fixpoint back (s : string) : ascii :=
  match s with
  | EmptyString => Ascii.zero
  | String a EmptyString => a
  | String _ r => back r
  end.

Definition empty (s : string) : bool :=
  match s with EmptyString => true | _ => false end.

(** [string_type(n, c)]. *)
Fixpoint fill (n : nat) (c : ascii) : string :=
  match n with
  | O => EmptyString
  | S k => String c (fill k c)
  end.

(** [operator<] of [std::string]: bytewise lexicographic order. *)
Fixpoint ltb (a b : string) : bool :=
  match a, b with
  | _, EmptyString => false
  | EmptyString, String _ _ => true
  | String x r, String y t =>
      if (nat_of_ascii x <? nat_of_ascii y)%nat then true
      else if (nat_of_ascii y <? nat_of_ascii x)%nat then false
      else ltb r t
  end.

Definition is_digit (c : ascii) : bool :=
  ((48 <=? nat_of_ascii c) && (nat_of_ascii c <=? 57))%nat.

Definition digit_value (c : ascii) : Z :=
  Z.of_nat (nat_of_ascii c) - 48.

Definition is_hex_digit (c : ascii) : bool :=
  let n := nat_of_ascii c in
  (((48 <=? n) && (n <=? 57)) || ((65 <=? n) && (n <=? 70))
   || ((97 <=? n) && (n <=? 102)))%nat.

Definition hex_digit_value (c : ascii) : Z :=
  let n := Z.of_nat (nat_of_ascii c) in
  if n <=? 57 then n - 48 else if n <=? 70 then n - 55 else n - 87.

(** [isspace] in the C locale: the space and the characters 9 to 13. *)
Definition isspace (c : ascii) : bool :=
  let n := nat_of_ascii c in
  ((n =? 32) || ((9 <=? n) && (n <=? 13)))%nat.

(** The longest prefix whose characters satisfy [p], and the rest. *)
Fixpoint span (p : ascii -> bool) (s : string) : string * string :=
  match s with
  | EmptyString => (EmptyString, EmptyString)
  | String a r =>
      if p a then let '(x, y) := span p r in (String a x, y)
      else (EmptyString, s)
  end.

End Str.

(** ** Exceptions *)

(** The exception classes of the header, [std::invalid_argument] (thrown
    by [_check_path], [_check_index] and [_construct_path]),
    [boost::filesystem::filesystem_error] (thrown by [directory_iterator])
    and [boost::regex_error] (thrown when a pattern does not compile).
    Every one of them derives from [std::exception]. *)
Inductive exn : Type :=
| InvalidArgument (what : string)
| ConfigException (what : string)
| SettingNotFoundException (what path : string)
| SettingNameException (what path : string)
| SettingTypeException (what path : string)
| FileIOException (what : string)
| ParseException (what file : string) (line offset : nat)
| FilesystemError (what : string)
| RegexError (what : string).

Inductive result (A : Type) : Type :=
| Ok (a : A)
| Throw (e : exn).
Arguments Ok {A} a.
Arguments Throw {A} e.

Definition bind {A B : Type} (r : result A) (k : A -> result B) : result B :=
  match r with
  | Ok a => k a
  | Throw e => Throw e
  end.

Notation "'do' x <- r ; k" := (bind r (fun x => k))
  (at level 10, x pattern, r at level 100, k at level 200).

Definition is_ok {A : Type} (r : result A) : bool :=
  match r with Ok _ => true | Throw _ => false end.

Definition raises_SettingType {A : Type} (r : result A) : bool :=
  match r with Throw (SettingTypeException _ _) => true | _ => false end.

Definition raises_SettingNotFound {A : Type} (r : result A) : bool :=
  match r with Throw (SettingNotFoundException _ _) => true | _ => false end.

Definition raises_InvalidArgument {A : Type} (r : result A) : bool :=
  match r with Throw (InvalidArgument _) => true | _ => false end.

Definition raises_Parse {A : Type} (r : result A) : bool :=
  match r with Throw (ParseException _ _ _ _) => true | _ => false end.

Definition raises_FileIO {A : Type} (r : result A) : bool :=
  match r with Throw (FileIOException _) => true | _ => false end.

(** [_type_ex(msg)], [_name_ex(msg)], [_not_found_ex(path)]: the path
    argument of the first two defaults to the empty string. *)
Definition _type_ex (msg : string) : exn := SettingTypeException msg "".
Definition _name_ex (msg : string) : exn := SettingNameException msg "".
Definition _not_found_ex (path : string) : exn :=
  SettingNotFoundException "Setting not found" path.

(** ** Types and formats *)

Inductive Type_ : Type :=
| TypeInt | TypeInt64 | TypeFloat | TypeString | TypeBoolean
| TypeArray | TypeList | TypeGroup.

Inductive Format : Type := FormatHex | FormatDefault.

Definition Type_eqb (a b : Type_) : bool :=
  match a, b with
  | TypeInt, TypeInt | TypeInt64, TypeInt64 | TypeFloat, TypeFloat
  | TypeString, TypeString | TypeBoolean, TypeBoolean
  | TypeArray, TypeArray | TypeList, TypeList | TypeGroup, TypeGroup => true
  | _, _ => false
  end.

(** ** Machine number ranges (LP64) *)

Module Limits.
Definition int_min : Z := - 2 ^ 31.
Definition int_max : Z := 2 ^ 31 - 1.
Definition uint_max : Z := 2 ^ 32 - 1.
Definition long_min : Z := - 2 ^ 63.
Definition long_max : Z := 2 ^ 63 - 1.
Definition ulong_max : Z := 2 ^ 64 - 1.

(** [static_cast<int>(v)] of a [long]: the low 32 bits, signed. *)
Definition wrap_int (v : Z) : Z := (v + 2 ^ 31) mod 2 ^ 32 - 2 ^ 31.
End Limits.

(** ** Floating point values

    [float] is IEEE-754 binary32 and [double] binary64, both carried by
    [spec_float].  Only the conversions the header performs are needed. *)

Module Flt.
Definition float : Type := spec_float.
Definition double : Type := spec_float.

(** [float f = t] for a [long t]: round to nearest even. *)
Definition of_long (t : Z) : float := binary_normalize 24 128 t 0 false.

(** [double d = f] for a [float f]: exact. *)
Definition to_double (f : float) : double :=
  match f with
  | S754_finite s m e =>
      binary_normalize 53 1024 (if s then Z.neg m else Z.pos m) e s
  | _ => f
  end.

(** [static_cast<int>(f)] and [static_cast<long>(f)]: the fraction is
    discarded.  C++ leaves the result undefined when the truncated value
    is outside [lo, hi] or [f] is not finite; the model gives [lo], the
    value the x86-64 conversion instruction yields. *)
Definition truncate (lo hi : Z) (f : float) : Z :=
  match f with
  | S754_zero _ => 0
  | S754_finite s m e =>
      let a := if 0 <=? e then Z.pos m * 2 ^ e else Z.pos m / 2 ^ (- e) in
      let v := if s then - a else a in
      if (lo <=? v) && (v <=? hi) then v else lo
  | _ => lo
  end.

(** [f != 0]. *)
Definition nonzero (f : float) : bool := negb (SFeqb f (S754_zero false)).

(** [lhs == rhs]. *)
Definition eqb (a b : float) : bool := SFeqb a b.
End Flt.

(** ** Scalar bodies: [_basic_setting_scalar<T>]

    The template parameter [T] is one of [bool], [int], [long], [float],
    [string_type]; [m_value] is a [boost::any] that always holds a [T].
    The constructor of the scalar carries both. *)

Inductive scalar : Type :=
| ScalarBool (v : bool)
| ScalarInt (v : Z)
| ScalarInt64 (v : Z)
| ScalarFloat (v : Flt.float)
| ScalarString (v : string).

(** [_deduce_scalar_type(T())]. *)
Definition _deduce_scalar_type (s : scalar) : Type_ :=
  match s with
  | ScalarBool _ => TypeBoolean
  | ScalarInt _ => TypeInt
  | ScalarInt64 _ => TypeInt64
  | ScalarFloat _ => TypeFloat
  | ScalarString _ => TypeString
  end.

(** The stored number fits its C++ type. *)
Definition scalar_wf (s : scalar) : Prop :=
  match s with
  | ScalarInt v => Limits.int_min <= v <= Limits.int_max
  | ScalarInt64 v => Limits.long_min <= v <= Limits.long_max
  | _ => True
  end.

Module Scalar.

(** [lookupValue(long&)] *)
Definition lookupValue_long (s : scalar) : result Z :=
  match s with
  | ScalarBool t => if t then Ok 1 else Ok 0
  | ScalarInt v => Ok v
  | ScalarInt64 v => Ok v
  | _ => Throw (_type_ex "unsupported conversion")
  end.

(** [lookupValue(bool&)] *)
Definition lookupValue_bool (s : scalar) : result bool :=
  match s with
  | ScalarBool _ | ScalarInt _ | ScalarInt64 _ =>
      do t <- lookupValue_long s;
      Ok (negb (t =? 0))
  | ScalarFloat t => Ok (Flt.nonzero t)
  | _ => Throw (_type_ex "unsupported conversion")
  end.

(** [lookupValue(int&)] *)
Definition lookupValue_int (s : scalar) : result Z :=
  match s with
  | ScalarBool _ | ScalarInt _ | ScalarInt64 _ =>
      do t <- lookupValue_long s;
      if (t >? Limits.int_max) || (t <? Limits.int_min)
      then Throw (_type_ex "type overflow")
      else Ok t
  | _ => Throw (_type_ex "unsupported conversion")
  end.

(** [lookupValue(unsigned int&)] *)
Definition lookupValue_uint (s : scalar) : result Z :=
  match s with
  | ScalarBool _ | ScalarInt _ | ScalarInt64 _ =>
      do t <- lookupValue_long s;
      if t <? 0 then Throw (_type_ex "negative value")
      else if t >? Limits.uint_max then Throw (_type_ex "type overflow")
      else Ok t
  | _ => Throw (_type_ex "unsupported conversion")
  end.

(** [lookupValue(unsigned long&)] *)
Definition lookupValue_ulong (s : scalar) : result Z :=
  match s with
  | ScalarBool _ | ScalarInt _ | ScalarInt64 _ =>
      do t <- lookupValue_long s;
      if t >=? 0 then Ok t
      else Throw (_type_ex "negative value")
  | _ => Throw (_type_ex "unsupported conversion")
  end.

(** [lookupValue(float&)] *)
Definition lookupValue_float (s : scalar) : result Flt.float :=
  match s with
  | ScalarBool _ | ScalarInt _ | ScalarInt64 _ =>
      do t <- lookupValue_long s;
      Ok (Flt.of_long t)
  | ScalarFloat v => Ok v
  | _ => Throw (_type_ex "unsupported conversion")
  end.

(** [lookupValue(double&)] *)
Definition lookupValue_double (s : scalar) : result Flt.double :=
  match s with
  | ScalarBool _ | ScalarInt _ | ScalarInt64 _ | ScalarFloat _ =>
      do t <- lookupValue_float s;
      Ok (Flt.to_double t)
  | _ => Throw (_type_ex "unsupported conversion")
  end.

(** [lookupValue(string_type&)] *)
Definition lookupValue_string (s : scalar) : result string :=
  match s with
  | ScalarString v => Ok v
  | _ => Throw (_type_ex "unsupported conversion")
  end.

(** [assignValue(bool)]: note the constant stored for the integer
    types. *)
Definition assignValue_bool (s : scalar) (value : bool) : result scalar :=
  match s with
  | ScalarBool _ => Ok (ScalarBool value)
  | ScalarInt _ => Ok (ScalarInt 1)
  | ScalarInt64 _ => Ok (ScalarInt64 1)
  | _ => Throw (_type_ex "Conversion not possible")
  end.

(** [assignValue(int)] *)
Definition assignValue_int (s : scalar) (value : Z) : result scalar :=
  match s with
  | ScalarBool _ => Ok (ScalarBool (negb (value =? 0)))
  | ScalarInt _ => Ok (ScalarInt value)
  | ScalarInt64 _ => Ok (ScalarInt64 value)
  | ScalarFloat _ => Ok (ScalarFloat (Flt.of_long value))
  | _ => Throw (_type_ex "Conversion not possible")
  end.

(** [assignValue(long)]: [static_cast<int>] wraps modulo 2^32. *)
Definition assignValue_long (s : scalar) (value : Z) : result scalar :=
  match s with
  | ScalarBool _ => Ok (ScalarBool (negb (value =? 0)))
  | ScalarInt _ => Ok (ScalarInt (Limits.wrap_int value))
  | ScalarInt64 _ => Ok (ScalarInt64 value)
  | ScalarFloat _ => Ok (ScalarFloat (Flt.of_long value))
  | _ => Throw (_type_ex "Conversion not possible")
  end.

(** [assignValue(float)] *)
Definition assignValue_float (s : scalar) (value : Flt.float) : result scalar :=
  match s with
  | ScalarInt _ =>
      Ok (ScalarInt (Flt.truncate Limits.int_min Limits.int_max value))
  | ScalarInt64 _ =>
      Ok (ScalarInt64 (Flt.truncate Limits.long_min Limits.long_max value))
  | ScalarFloat _ => Ok (ScalarFloat value)
  | _ => Throw (_type_ex "Conversion not possible")
  end.

(** [assignValue(const string_type&)] *)
Definition assignValue_string (s : scalar) (value : string) : result scalar :=
  match s with
  | ScalarString _ => Ok (ScalarString value)
  | _ => Throw (_type_ex "Conversion not possible")
  end.

(** [operator==] of two scalar bodies of the same [T]. *)
Definition eqb (a b : scalar) : bool :=
  match a, b with
  | ScalarBool x, ScalarBool y => Bool.eqb x y
  | ScalarInt x, ScalarInt y => x =? y
  | ScalarInt64 x, ScalarInt64 y => x =? y
  | ScalarFloat x, ScalarFloat y => Flt.eqb x y
  | ScalarString x, ScalarString y => String.eqb x y
  | _, _ => false
  end.

End Scalar.

(** ** The setting tree

    A [basic_setting] owns a polymorphic body ([m_value]): a scalar, a
    list ([_basic_setting_list]), an array ([_basic_setting_array]) or a
    group ([_basic_setting_container], a [std::map] keyed by name and
    therefore kept in ascending key order).  Children are owned, so the
    tree is a value.  The parent pointer is the position in the tree: the
    only use of it below is the printer's test [m_parent != 0], passed
    along as a boolean. The array's private [m_type] member is written by
    the constructor only and never read; it is left out. *)

Inductive body (S : Type) : Type :=
| BScalar (m_value : scalar) (m_format : Format)
| BList (m_properties : list S)
| BArray (m_properties : list S)
| BContainer (m_mapping : list (string * S)).
Arguments BScalar {S} m_value m_format.
Arguments BList {S} m_properties.
Arguments BArray {S} m_properties.
Arguments BContainer {S} m_mapping.

Inductive basic_setting : Type :=
| Setting (m_name : string) (m_type : Type_) (m_value : body basic_setting).

Definition getName (s : basic_setting) : string :=
  let 'Setting n _ _ := s in n.
Definition getType (s : basic_setting) : Type_ :=
  let 'Setting _ t _ := s in t.
Definition value_of (s : basic_setting) : body basic_setting :=
  let 'Setting _ _ v := s in v.

(** [std::map<string_type, value_ptr>] as a key-ordered association
    list. *)
Module Map.
Section WithValue.
Context {V : Type}.

Fixpoint count (k : string) (m : list (string * V)) : bool :=
  match m with
  | [] => false
  | (k', _) :: r => String.eqb k' k || count k r
  end.

Fixpoint at_ (k : string) (m : list (string * V)) : option V :=
  match m with
  | [] => None
  | (k', v) :: r => if String.eqb k' k then Some v else at_ k r
  end.

(** [insert(make_pair(k, v))]: no effect when the key is present. *)
Fixpoint insert (k : string) (v : V) (m : list (string * V))
  : list (string * V) :=
  match m with
  | [] => [(k, v)]
  | (k', v') :: r =>
      if String.eqb k' k then m
      else if Str.ltb k k' then (k, v) :: m
      else (k', v') :: insert k v r
  end.

Fixpoint erase (k : string) (m : list (string * V)) : list (string * V) :=
  match m with
  | [] => []
  | (k', v') :: r =>
      if String.eqb k' k then r else (k', v') :: erase k r
  end.

(** Overwrite the value stored under an existing key. *)
Fixpoint replace (k : string) (v : V) (m : list (string * V))
  : list (string * V) :=
  match m with
  | [] => []
  | (k', v') :: r =>
      if String.eqb k' k then (k', v) :: r else (k', v') :: replace k v r
  end.
End WithValue.
End Map.

(** [m_properties[i]] with a [size_t] index. *)
Definition vec_nth {A : Type} (l : list A) (i : N) : option A :=
  nth_error l (N.to_nat i).

Definition vec_size {A : Type} (l : list A) : N := N.of_nat (List.length l).

(** [erase(begin() + index)]. *)
Fixpoint vec_erase {A : Type} (l : list A) (i : nat) : list A :=
  match l, i with
  | [], _ => []
  | _ :: r, O => r
  | x :: r, S j => x :: vec_erase r j
  end.

Fixpoint vec_replace {A : Type} (l : list A) (i : nat) (v : A) : list A :=
  match l, i with
  | [], _ => []
  | _ :: r, O => v :: r
  | x :: r, S j => x :: vec_replace r j v
  end.

(** [_not_found_ex(size_t index)]: the path is the index in decimal
    between square brackets. *)
Definition show_dec (z : Z) : string :=
  DecimalString.NilZero.string_of_int (Z.to_int z).

Definition _not_found_ex_index (index : N) : exn :=
  _not_found_ex ("[" ++ show_dec (Z.of_N index) ++ "]").

Definition isNumber (s : basic_setting) : bool :=
  match getType s with
  | TypeInt | TypeInt64 | TypeFloat => true
  | _ => false
  end.

Definition isScalar (s : basic_setting) : bool :=
  isNumber s || Type_eqb (getType s) TypeBoolean
  || Type_eqb (getType s) TypeString.

(** The virtual interface [_basic_setting], by case on the dynamic class
    of the body. *)
Module Body.

Definition size (b : body basic_setting) : N :=
  match b with
  | BScalar _ _ => 0%N
  | BList l | BArray l => vec_size l
  | BContainer m => vec_size m
  end.

(** [at(const string_type&)] *)
Definition at_name (b : body basic_setting) (property : string)
  : result basic_setting :=
  match b with
  | BContainer m =>
      match Map.at_ property m with
      | Some v => Ok v
      | None => Throw (_not_found_ex property)
      end
  | _ => Throw (_not_found_ex property)
  end.

(** [at(size_t)] *)
Definition at_index (b : body basic_setting) (index : N)
  : result basic_setting :=
  match b with
  | BList l | BArray l =>
      match vec_nth l index with
      | Some v => Ok v
      | None => Throw (_not_found_ex_index index)
      end
  | BContainer m =>
      match vec_nth m index with
      | Some (_, v) => Ok v
      | None => Throw (_not_found_ex_index index)
      end
  | BScalar _ _ => Throw (_not_found_ex_index index)
  end.

(** [exists(size_t)] *)
Definition exists_index (b : body basic_setting) (index : N) : bool :=
  match b with
  | BScalar _ _ => false
  | _ => (index <? size b)%N
  end.

(** [exists(const string_type&)] *)
Definition exists_name (b : body basic_setting) (property : string) : bool :=
  match b with
  | BContainer m => Map.count property m
  | _ => false
  end.

(** [add(const basic_setting&)]: the body after the insertion. *)
Definition add (b : body basic_setting) (value : basic_setting)
  : result (body basic_setting) :=
  match b with
  | BScalar _ _ => Throw (ConfigException "operation not supported")
  | BList l => Ok (BList (l ++ [value]))
  | BArray l =>
      if negb (isScalar value)
      then Throw (_type_ex "Array elements must be scalar values")
      else
        match l with
        | first :: _ =>
            if negb (Type_eqb (getType first) (getType value))
            then Throw (_type_ex "Array elements must have same type")
            else Ok (BArray (l ++ [value]))
        | [] => Ok (BArray (l ++ [value]))
        end
  | BContainer m =>
      if Map.count (getName value) m
      then Throw (_name_ex (getName value ++ " already exists"))
      else Ok (BContainer (Map.insert (getName value) value m))
  end.

(** [remove(const string_type&)] *)
Definition remove_name (b : body basic_setting) (property : string)
  : result (body basic_setting) :=
  match b with
  | BContainer m =>
      if Map.count property m then Ok (BContainer (Map.erase property m))
      else Throw (_not_found_ex property)
  | _ => Throw (_not_found_ex property)
  end.

(** [remove(size_t)] *)
Definition remove_index (b : body basic_setting) (index : N)
  : result (body basic_setting) :=
  match b with
  | BScalar _ _ => Throw (_not_found_ex_index index)
  | BList l =>
      if (vec_size l <=? index)%N then Throw (_not_found_ex_index index)
      else Ok (BList (vec_erase l (N.to_nat index)))
  | BArray l =>
      if (vec_size l <=? index)%N then Throw (_not_found_ex_index index)
      else Ok (BArray (vec_erase l (N.to_nat index)))
  | BContainer m =>
      do setting <- at_index b index;
      Ok (BContainer (Map.erase (getName setting) m))
  end.

Definition format (b : body basic_setting) : Format :=
  match b with
  | BScalar _ f => f
  | _ => FormatDefault
  end.

Definition set_format (b : body basic_setting) (f : Format)
  : body basic_setting :=
  match b with
  | BScalar v _ => BScalar v f
  | _ => b
  end.

End Body.

(** [basic_setting(name, type)]: a default-constructed body of the class
    that belongs to [type]. *)
Definition new_setting (name : string) (type : Type_) : basic_setting :=
  Setting name type
    match type with
    | TypeBoolean => BScalar (ScalarBool false) FormatDefault
    | TypeInt => BScalar (ScalarInt 0) FormatDefault
    | TypeInt64 => BScalar (ScalarInt64 0) FormatDefault
    | TypeFloat => BScalar (ScalarFloat (S754_zero false)) FormatDefault
    | TypeString => BScalar (ScalarString "") FormatDefault
    | TypeArray => BArray []
    | TypeList => BList []
    | TypeGroup => BContainer []
    end.

(** [basic_setting::add(const basic_setting&)] *)
Definition setting_add (s value : basic_setting) : result basic_setting :=
  let 'Setting n t v := s in
  do v' <- Body.add v value;
  Ok (Setting n t v').

(** [operator==]: name, type, then the bodies.  A body is compared through
    the left operand's class after a [static_cast] of the right operand;
    equal [m_type] means equal classes in every tree the header builds,
    and the model answers [false] for the remaining combinations. *)
Fixpoint setting_eqb (a b : basic_setting) {struct a} : bool :=
  match a, b with
  | Setting n1 t1 v1, Setting n2 t2 v2 =>
      String.eqb n1 n2 && Type_eqb t1 t2 &&
      match v1, v2 with
      | BScalar x _, BScalar y _ => Scalar.eqb x y
      | BList l1, BList l2 | BArray l1, BArray l2 =>
          (List.length l1 =? List.length l2)%nat &&
          (fix each (l1 l2 : list basic_setting) : bool :=
             match l1, l2 with
             | x :: r1, y :: r2 => setting_eqb x y && each r1 r2
             | _, _ => true
             end) l1 l2
      | BContainer m1, BContainer m2 =>
          (List.length m1 =? List.length m2)%nat &&
          (fix each (m1 m2 : list (string * basic_setting)) : bool :=
             match m1, m2 with
             | (_, x) :: r1, (_, y) :: r2 => setting_eqb x y && each r1 r2
             | _, _ => true
             end) m1 m2
      | _, _ => false
      end
  end.

(** ** Typed reads: the conversion operators of [basic_setting] *)

(** The eight requested types of [lookupValue] and of the conversion
    operators: [bool], [int], [unsigned], [long], [unsigned long],
    [float], [double], [string_type]. *)
Inductive target : Type :=
| ToBool | ToInt | ToUInt | ToLong | ToULong | ToFloat | ToDouble | ToString.

Definition out (t : target) : Type :=
  match t with
  | ToBool => bool
  | ToInt | ToUInt | ToLong | ToULong => Z
  | ToFloat => Flt.float
  | ToDouble => Flt.double
  | ToString => string
  end.

(** [m_value->lookupValue(result)] through the virtual table: the scalar
    class overrides all eight overloads, the aggregate classes inherit the
    throwing defaults of the base class. *)
Definition body_lookupValue (t : target) (b : body basic_setting)
  : result (out t) :=
  match b with
  | BScalar s _ =>
      match t return result (out t) with
      | ToBool => Scalar.lookupValue_bool s
      | ToInt => Scalar.lookupValue_int s
      | ToUInt => Scalar.lookupValue_uint s
      | ToLong => Scalar.lookupValue_long s
      | ToULong => Scalar.lookupValue_ulong s
      | ToFloat => Scalar.lookupValue_float s
      | ToDouble => Scalar.lookupValue_double s
      | ToString => Scalar.lookupValue_string s
      end
  | _ => Throw (_type_ex "converion not implemented")
  end.

(** [operator bool()], [operator int()], ... *)
Definition convert_to (t : target) (s : basic_setting) : result (out t) :=
  body_lookupValue t (value_of s).

(** ** Path addressing *)

Definition dot : ascii := "."%char.

Definition _long_path (path : string) : bool :=
  match Str.find_first_of dot path with
  | Some _ => true
  | None => false
  end.

Definition _local (path : string) : string :=
  match Str.find_first_of dot path with
  | Some i => Str.substr 0 i path
  | None => path
  end.

Definition _remote (path : string) : string :=
  match Str.find_first_of dot path with
  | Some i => Str.substr_from (i + 1) path
  | None => ""
  end.

Definition _parent (path : string) : string :=
  match Str.find_last_of dot path with
  | Some i => Str.substr 0 i path
  | None => ""
  end.

Definition _leaf (path : string) : string :=
  match Str.find_last_of dot path with
  | Some i => Str.substr_from (i + 1) path
  | None => path
  end.

(** Digits read by [iss >> i] into an unsigned integer. *)
Fixpoint parse_dec_acc (acc : Z) (s : string) : Z :=
  match s with
  | EmptyString => acc
  | String c r => parse_dec_acc (10 * acc + Str.digit_value c) r
  end.

(** [_convert_index]: the whole of [path] must be an opening bracket,
    at least one digit, a closing bracket and at most one dot; the
    digits are then extracted into a [size_t], which fails when they
    exceed its range. *)
Definition _convert_index (path : string) : option N :=
  match path with
  | String "["%char r =>
      let '(digits, rest) := Str.span Str.is_digit r in
      if negb (Str.empty digits)
         && (String.eqb rest "]" || String.eqb rest "].")
      then
        let i := parse_dec_acc 0 digits in
        if i <=? Limits.ulong_max then Some (Z.to_N i) else None
      else None
  | _ => None
  end.

(** [catch (SettingNotFoundException &ex) { throw _not_found_ex(ex, path); }] *)
Definition rethrow_not_found {A : Type} (path : string) (r : result A)
  : result A :=
  match r with
  | Throw (SettingNotFoundException what _) =>
      Throw (SettingNotFoundException what path)
  | _ => r
  end.

(** [_at]: the recursion is on [_remote(path)], which is shorter than
    [path]; [n] bounds the length of the path. *)
Fixpoint _at_upto (n : nat) (s : basic_setting) (path : string)
  : result basic_setting :=
  if Str.empty path then Ok s
  else
    rethrow_not_found path
      (if negb (_long_path path) then
         match _convert_index path with
         | Some index => Body.at_index (value_of s) index
         | None => Body.at_name (value_of s) path
         end
       else
         let local := _local path in
         let remote := _remote path in
         match n with
         | O => Ok s
         | S n' =>
             match _convert_index local with
             | Some index =>
                 do child <- Body.at_index (value_of s) index;
                 _at_upto n' child remote
             | None =>
                 do child <- Body.at_name (value_of s) local;
                 _at_upto n' child remote
             end
         end).

Definition _at (s : basic_setting) (path : string) : result basic_setting :=
  _at_upto (String.length path) s path.

(** [_exists]; in the long-path branch the index test is applied to the
    whole path, as in the source. *)
Fixpoint _exists_upto (n : nat) (s : basic_setting) (path : string) : bool :=
  if negb (_long_path path) then
    match _convert_index path with
    | Some index => Body.exists_index (value_of s) index
    | None => Body.exists_name (value_of s) path
    end
  else
    let local := _local path in
    let remote := _remote path in
    match n with
    | O => false
    | S n' =>
        match _convert_index path with
        | Some index =>
            if Body.exists_index (value_of s) index then
              match Body.at_index (value_of s) index with
              | Ok child => _exists_upto n' child remote
              | Throw _ => false
              end
            else false
        | None =>
            if Body.exists_name (value_of s) local then
              match Body.at_name (value_of s) local with
              | Ok child => _exists_upto n' child remote
              | Throw _ => false
              end
            else false
        end
    end.

Definition _exists (s : basic_setting) (path : string) : bool :=
  _exists_upto (String.length path) s path.

(** [_check_path] *)
Definition _check_path (path : string) : result unit :=
  if Str.empty path then Throw (InvalidArgument "Path is empty")
  else if Ascii.eqb (Str.front path) dot || Ascii.eqb (Str.back path) dot
  then Throw (InvalidArgument "Path can not begin or end with dot(.)")
  else Ok tt.


(** [operator[]] with a [string_type] or a C string argument *)
Definition subscript (s : basic_setting) (index : string)
  : result basic_setting :=
  _at s index.


(** [exists(path)] *)
Definition exists_ (s : basic_setting) (path : string) : result bool :=
  do _ <- _check_path path;
  Ok (_exists s path).

(** The tree in which the node that [_at s path] refers to has been
    overwritten by [new]; the traversal is the one of [_at]. *)
Fixpoint set_at_upto (n : nat) (s : basic_setting) (path : string)
  (new : basic_setting) : basic_setting :=
  if Str.empty path then new
  else
    let 'Setting name type v := s in
    let key := if _long_path path then _local path else path in
    let next (child : basic_setting) : basic_setting :=
      if _long_path path then
        match n with
        | O => child
        | S n' => set_at_upto n' child (_remote path) new
        end
      else new in
    match _convert_index key, v with
    | Some index, BList l =>
        match vec_nth l index with
        | Some child =>
            Setting name type (BList (vec_replace l (N.to_nat index) (next child)))
        | None => s
        end
    | Some index, BArray l =>
        match vec_nth l index with
        | Some child =>
            Setting name type (BArray (vec_replace l (N.to_nat index) (next child)))
        | None => s
        end
    | Some index, BContainer m =>
        match vec_nth m index with
        | Some (k, child) =>
            Setting name type
              (BContainer (vec_replace m (N.to_nat index) (k, next child)))
        | None => s
        end
    | None, BContainer m =>
        match Map.at_ key m with
        | Some child =>
            Setting name type (BContainer (Map.replace key (next child) m))
        | None => s
        end
    | _, _ => s
    end.

(** [remove(path)]: the receiver after the call. *)
Definition remove (s : basic_setting) (path : string) : result basic_setting :=
  do _ <- _check_path path;
  do owner <- _at s (_parent path);
  do v' <- Body.remove_name (value_of owner) (_leaf path);
  Ok (set_at_upto (String.length (_parent path)) s (_parent path)
        (Setting (getName owner) (getType owner) v')).

(** [remove(size_t)] *)
Definition remove_index (s : basic_setting) (position : N)
  : result basic_setting :=
  do v' <- Body.remove_index (value_of s) position;
  Ok (Setting (getName s) (getType s) v').

(** [getPath()]: [m_parent] of a setting held by a container is the
    setting that owns the container ([add] and [clone] set it), and it is
    null for a setting that nothing holds; [ancestors] is that chain of
    pointers, the parent first. *)
Fixpoint getPath (ancestors : list basic_setting) (s : basic_setting)
  : string :=
  let path :=
    match ancestors with
    | [] => ""
    | m_parent :: up => getPath up m_parent
    end in
  let path := if (0 <? String.length path)%nat then path ++ "." else path in
  path ++ getName s.

(** ** [lookupValue(path, out)] *)

(** Every exception class of the model derives from [std::exception]:
    the header's classes through [std::runtime_error],
    [std::invalid_argument] through [std::logic_error],
    [filesystem_error] through [std::system_error] and [regex_error]
    through [std::runtime_error]. *)
Definition derives_std_exception (e : exn) : bool :=
  match e with
  | InvalidArgument _ | ConfigException _ | SettingNotFoundException _ _
  | SettingNameException _ _ | SettingTypeException _ _
  | FileIOException _ | ParseException _ _ _ _ | FilesystemError _
  | RegexError _ => true
  end.

(** [try { body } catch (std::exception&) { handler }] *)
Definition try_catch_std {A : Type} (r : result A) (handler : result A)
  : result A :=
  match r with
  | Ok a => Ok a
  | Throw e => if derives_std_exception e then handler else Throw e
  end.

(** [bool lookupValue(const string_type& path, T& value) const]: the
    returned flag and the content of [value] after the call.  The
    conversion operator runs before the assignment, so a throw leaves
    [value] as it was. *)
Definition lookupValue (t : target) (s : basic_setting) (path : string)
  (value : out t) : result (bool * out t) :=
  try_catch_std
    (do found <- _at s path;
     do converted <- convert_to t found;
     Ok (true, converted))
    (Ok (false, value)).

(** ** Tokens and syntax errors *)

(** [class token : public string_type] with its source coordinates;
    [file] is a shared pointer, null until [parser::parse] sets it. *)
Record token : Type := mk_token {
  text : string;
  line : nat;
  offset : nat;
  file : option string
}.

(** [token(arg, _line, _offset)] *)
Definition token_at (arg : string) (_line _offset : nat) : token :=
  mk_token arg _line _offset None.

(** [tok = other] for a character or a string: only the text changes. *)
Definition assign_text (tok : token) (other : string) : token :=
  mk_token other (line tok) (offset tok) (file tok).

Definition set_position (tok : token) (l o : nat) : token :=
  mk_token (text tok) l o (file tok).

Definition set_file (tok : token) (f : string) : token :=
  mk_token (text tok) (line tok) (offset tok) (Some f).

Definition is_tok (tok : token) (s : string) : bool := String.eqb (text tok) s.

(** [_syntax_exception(msg, tok, offset_at_end_of_token)].  The stream
    [ss] is never written to, so [what()] is empty; the adjusted [offset]
    is computed and the constructor is then given [tok.offset]. *)
Definition _syntax_exception (msg : string) (tok : token)
  (offset_at_end_of_token : bool) : exn :=
  let ss := "" in
  let offset' :=
    if offset_at_end_of_token
    then (offset tok + String.length (text tok))%nat
    else offset tok in
  let file' := match file tok with Some f => f | None => "" end in
  ParseException ss file' (line tok) (offset tok).

(** [_syntax_exception(ex, file)]: the same error under another file. *)
Definition _syntax_exception_in (e : exn) (file' : string) : exn :=
  match e with
  | ParseException what _ l o => ParseException what file' l o
  | _ => e
  end.

(** ** Computations that may not return

    The tokenizer loops over its input and the reader recurses into
    included files; both are written with a step budget.  [None] means the
    budget ran out before the C++ function returned or threw. *)

Definition M (A : Type) : Type := option (result A).

Definition ret {A : Type} (a : A) : M A := Some (Ok a).
Definition throw {A : Type} (e : exn) : M A := Some (Throw e).
Definition lift {A : Type} (r : result A) : M A := Some r.

Definition mbind {A B : Type} (m : M A) (k : A -> M B) : M B :=
  match m with
  | Some (Ok a) => k a
  | Some (Throw e) => Some (Throw e)
  | None => None
  end.

Notation "'run' x <- m ; k" := (mbind m (fun x => k))
  (at level 10, x pattern, m at level 100, k at level 200).

(** ** The tokenizer: [config_tokenizer] *)

Module Tokenizer.

(** The members; the member [escape] is shadowed by locals wherever it
    is used and [separators] is constant. *)
Record state : Type := mk_state {
  is_string : bool;
  new_line : bool;
  cur_line : nat;
  cur_offset : nat;
  tmp_token : string
}.

Definition separators : string :=
  String "{" (String "}" (String "[" (String "]" (String "(" (String ")"
  (String "," (String "/" (String "\" (String (ascii_of_nat 34)
  (String "=" (String ":" (String ";" EmptyString)))))))))))).

(** [reset()] *)
Definition reset : state := mk_state false false 1 1 "".

Fixpoint is_in_set (c : ascii) (set : string) : bool :=
  match set with
  | EmptyString => false
  | String a r => if Ascii.eqb a c then true else is_in_set c r
  end.

Definition quote : ascii := ascii_of_nat 34.
Definition backslash : ascii := ascii_of_nat 92.
Definition newline : ascii := ascii_of_nat 10.
Definition tab : ascii := ascii_of_nat 9.

(** [get(s)] applied to the character [c] that [*s++] yields. *)
Definition get (st : state) (c : ascii) : state :=
  let o := S (cur_offset st) in
  let '(l, o, nl) :=
    if new_line st then (S (cur_line st), 1%nat, false)
    else (cur_line st, o, false) in
  mk_state (is_string st) (if Ascii.eqb c newline then true else nl)
           l o (tmp_token st).

Definition char_token (st : state) (c : ascii) : token :=
  token_at (String c EmptyString) (cur_line st) (cur_offset st).

(** [skip_comment(next, end)]: the next significant character, or 0
    when the input is exhausted; with it the tokenizer state and the
    unread input. *)
Fixpoint skip_comment_loop (st : state)
  (simple_comment complicated_comment escape : bool) (input : string)
  {struct input} : result (ascii * state * string) :=
  match input with
  | EmptyString => Ok (Ascii.zero, st, EmptyString)
  | String c next =>
      let st := get st c in
      if is_string st then Ok (c, st, next)
      else if complicated_comment then
        if Ascii.eqb c "/" && escape
        then skip_comment_loop st simple_comment false false next
        else if Ascii.eqb c "*"
        then skip_comment_loop st simple_comment true true next
        else skip_comment_loop st simple_comment true false next
      else if simple_comment then
        if Ascii.eqb c newline
        then skip_comment_loop st false complicated_comment escape next
        else skip_comment_loop st true complicated_comment escape next
      else if Ascii.eqb c "#"
      then skip_comment_loop st true complicated_comment escape next
      else if Ascii.eqb c "/" then
        match next with
        | EmptyString =>
            Throw (_syntax_exception "Unexpected end of comment"
                     (char_token st c) false)
        | String c' next' =>
            let st := get st c' in
            if Ascii.eqb c' "*"
            then skip_comment_loop st simple_comment true escape next'
            else if Ascii.eqb c' "/"
            then skip_comment_loop st true complicated_comment escape next'
            else Throw (_syntax_exception
                          ("Unexpected character " ++ String c' EmptyString)
                          (char_token st c') false)
        end
      else Ok (c, st, next)
  end.

Definition skip_comment (st : state) (input : string)
  : result (ascii * state * string) :=
  skip_comment_loop st false false false input.

Definition push (tok : token) (c : ascii) : token :=
  assign_text tok (text tok ++ String c EmptyString).

Definition start_token (st : state) (tok : token) (c : ascii) : token :=
  set_position (assign_text tok (String c EmptyString))
               (cur_line st) (cur_offset st).

Definition set_is_string (st : state) (b : bool) : state :=
  mk_state b (new_line st) (cur_line st) (cur_offset st) (tmp_token st).

Definition set_tmp_token (st : state) (t : string) : state :=
  mk_state (is_string st) (new_line st) (cur_line st) (cur_offset st) t.

(** The [while(next != end)] loop of [operator()]: whether a token was
    produced, the token object, the state and the unread input. *)
Fixpoint token_loop (fuel : nat) (st : state) (input : string) (tok : token)
  (escape is_identifier : bool) : M (bool * token * state * string) :=
  match input with
  | EmptyString => ret (false, tok, st, input)
  | String _ _ =>
    match fuel with
    | O => None
    | S fuel =>
      run (c, st, input) <- lift (skip_comment st input);
      if Ascii.eqb c Ascii.zero then ret (false, tok, st, input)
      else if is_string st then
        if Ascii.eqb c quote && negb escape then
          ret (true, push tok c, set_is_string st false, input)
        else if escape then
          if Ascii.eqb c backslash || Ascii.eqb c quote
          then token_loop fuel st input (push tok c) false is_identifier
          else if Ascii.eqb c "t"
          then token_loop fuel st input (push tok tab) false is_identifier
          else if Ascii.eqb c "n"
          then token_loop fuel st input (push tok newline) false is_identifier
          else throw (_syntax_exception
                        ("Unallowed escape token \" ++ String c EmptyString)
                        (token_at (text tok) (cur_line st) (cur_offset st))
                        false)
        else if Ascii.eqb c backslash
        then token_loop fuel st input tok true is_identifier
        else token_loop fuel st input (push tok c) escape is_identifier
      else if Ascii.eqb c quote then
        token_loop fuel (set_is_string st true) input (start_token st tok c)
                   escape is_identifier
      else if is_identifier then
        if Str.isspace c then ret (true, tok, st, input)
        else if is_in_set c separators
        then ret (true, tok, set_tmp_token st (String c EmptyString), input)
        else token_loop fuel st input (push tok c) escape is_identifier
      else if is_in_set c separators
      then ret (true, start_token st tok c, st, input)
      else if negb (Str.isspace c)
      then token_loop fuel st input (start_token st tok c) escape true
      else token_loop fuel st input tok escape is_identifier
    end
  end.

(** [operator()(next, end, tok)] *)
Definition call (st : state) (input : string) (tok : token)
  : M (bool * token * state * string) :=
  if negb (Str.empty (tmp_token st)) then
    ret (true,
         set_position (assign_text tok (tmp_token st))
                      (cur_line st) (cur_offset st),
         set_tmp_token st "", input)
  else token_loop (S (String.length input)) st input tok false false.

End Tokenizer.

(** [boost::token_iterator] over the character stream: the current token
    when the iterator is valid, the tokenizer function and the unread
    input. *)
Record token_iterator : Type := mk_iter {
  valid : bool;
  tok_ : token;
  f_ : Tokenizer.state;
  begin_ : string
}.

(** Construction ([initialize]): reset the function and read the first
    token unless the stream is already at its end. *)
Definition iter_begin (input : string) : M token_iterator :=
  match input with
  | EmptyString =>
      ret (mk_iter false (token_at "" 0 0) Tokenizer.reset input)
  | _ =>
      run (v, t, st, rest) <-
        Tokenizer.call Tokenizer.reset input (token_at "" 0 0);
      ret (mk_iter v t st rest)
  end.

(** [increment] *)
Definition iter_next (it : token_iterator) : M token_iterator :=
  run (v, t, st, rest) <- Tokenizer.call (f_ it) (begin_ it) (tok_ it);
  ret (mk_iter v t st rest).

(** All tokens of a character stream, as iterating to the end yields
    them. *)
Fixpoint drain (fuel : nat) (it : token_iterator) : M (list token) :=
  if negb (valid it) then ret []
  else
    match fuel with
    | O => None
    | S fuel =>
        run next <- iter_next it;
        run rest <- drain fuel next;
        ret (tok_ it :: rest)
    end.

Definition tokenize (input : string) : M (list token) :=
  run it <- iter_begin input;
  drain (2 * String.length input + 2) it.

(** ** Scalar literals *)

(** The anchored patterns of [_get_scalar_type], each applied with
    [regex_match], that is to the whole token.  The character classes of
    every pattern are disjoint from what follows them, so each pattern is
    matched by one left-to-right scan. *)
Module Rx.

Definition strip_sign (s : string) : string :=
  match s with
  | String "-"%char r | String "+"%char r => r
  | _ => s
  end.

Definition lower (c : ascii) : ascii :=
  let n := nat_of_ascii c in
  if ((65 <=? n) && (n <=? 90))%nat then ascii_of_nat (n + 32) else c.

Fixpoint lower_string (s : string) : string :=
  match s with
  | EmptyString => EmptyString
  | String c r => String (lower c) (lower_string r)
  end.

(** [rx_boolean]: the letters of [true] or of [false], each in either
    case. *)
Definition rx_boolean (s : string) : bool :=
  String.eqb (lower_string s) "true" || String.eqb (lower_string s) "false".

Definition is_LL (s : string) : bool :=
  String.eqb s "L" || String.eqb s "LL".

(** [rx_int]: an optional sign and at least one digit. *)
Definition rx_int (s : string) : bool :=
  let '(d, r) := Str.span Str.is_digit (strip_sign s) in
  negb (Str.empty d) && Str.empty r.

(** [rx_int64]: as [rx_int], followed by [L] or [LL]. *)
Definition rx_int64 (s : string) : bool :=
  let '(d, r) := Str.span Str.is_digit (strip_sign s) in
  negb (Str.empty d) && is_LL r.

Definition hex_body (s : string) : option (string * string) :=
  match s with
  | String "0"%char (String x r) =>
      if Ascii.eqb x "X" || Ascii.eqb x "x"
      then Some (Str.span Str.is_hex_digit r)
      else None
  | _ => None
  end.

(** [rx_hex]: [0x] or [0X] and at least one hexadecimal digit. *)
Definition rx_hex (s : string) : bool :=
  match hex_body s with
  | Some (d, r) => negb (Str.empty d) && Str.empty r
  | None => false
  end.

(** [rx_hex64]: as [rx_hex], followed by [L] or [LL]. *)
Definition rx_hex64 (s : string) : bool :=
  match hex_body s with
  | Some (d, r) => negb (Str.empty d) && is_LL r
  | None => false
  end.

(** An exponent up to the end of the token: [e] or [E], an optional
    sign, at least one digit. *)
Definition exponent (s : string) : bool :=
  match s with
  | String c r =>
      (Ascii.eqb c "e" || Ascii.eqb c "E") &&
      let '(d, t) := Str.span Str.is_digit (strip_sign r) in
      negb (Str.empty d) && Str.empty t
  | EmptyString => false
  end.

(** [rx_float]: an optional sign, digits (possibly none), a dot,
    digits (possibly none) and an optional exponent; or an optional
    sign, at least one digit, an optional dot with digits, and an
    exponent. *)
Definition rx_float (s : string) : bool :=
  let '(d, r) := Str.span Str.is_digit (strip_sign s) in
  match r with
  | String "."%char f =>
      let '(_, t) := Str.span Str.is_digit f in
      Str.empty t || exponent t
  | _ => negb (Str.empty d) && exponent r
  end.

End Rx.

(** [_get_scalar_type]; [TypeGroup] stands for a token that is
    no scalar. *)
Definition _get_scalar_type (value : string) : Type_ :=
  if Ascii.eqb (Str.front value) Tokenizer.quote then TypeString
  else if Rx.rx_boolean value then TypeBoolean
  else if Rx.rx_int value then TypeInt
  else if Rx.rx_hex value then TypeInt
  else if Rx.rx_int64 value then TypeInt64
  else if Rx.rx_hex64 value then TypeInt64
  else if Rx.rx_float value then TypeFloat
  else TypeGroup.

(** [_remove_quotes] *)
Definition _remove_quotes (value : string) : string :=
  if negb (Str.empty value) && Ascii.eqb (Str.front value) Tokenizer.quote
     && (2 <? String.length value)%nat
  then Str.substr 1 (String.length value - 2) value
  else value.

(** ** Formatted extraction: [iss >> v]

    [std::num_get] as C++11 specifies it: leading white space is skipped,
    the longest numeric prefix is converted; when no digit can be read the
    value 0 is stored, when the number does not fit the nearest limit is
    stored (and [failbit] is set, which the header never tests). *)
Module Extract.

Fixpoint skipws (s : string) : string :=
  match s with
  | String c r => if Str.isspace c then skipws r else s
  | EmptyString => s
  end.

Fixpoint hex_acc (acc : Z) (s : string) : Z :=
  match s with
  | EmptyString => acc
  | String c r => hex_acc (16 * acc + Str.hex_digit_value c) r
  end.

(** The magnitude and sign of the integer at the front of [s]; [None]
    when there is no digit.  With [std::hex] set the digits are
    hexadecimal and a [0x] prefix is accepted. *)
Definition integer (hex : bool) (s : string) : option Z :=
  let s := skipws s in
  let negative := match s with String "-"%char _ => true | _ => false end in
  let s := Rx.strip_sign s in
  let magnitude :=
    if hex then
      let body :=
        match s with
        | String "0"%char (String x (String h r)) =>
            if (Ascii.eqb x "x" || Ascii.eqb x "X") && Str.is_hex_digit h
            then String h r else s
        | _ => s
        end in
      let '(d, _) := Str.span Str.is_hex_digit body in
      if Str.empty d then None else Some (hex_acc 0 d)
    else
      let '(d, _) := Str.span Str.is_digit s in
      if Str.empty d then None else Some (parse_dec_acc 0 d) in
  match magnitude with
  | Some m => Some (if negative then - m else m)
  | None => None
  end.

Definition clamp (lo hi v : Z) : Z :=
  if v <? lo then lo else if hi <? v then hi else v.

(** [int v; iss >> v] *)
Definition to_int (hex : bool) (s : string) : Z :=
  match integer hex s with
  | Some v => clamp Limits.int_min Limits.int_max v
  | None => 0
  end.

(** [long v; iss >> v] *)
Definition to_long (hex : bool) (s : string) : Z :=
  match integer hex s with
  | Some v => clamp Limits.long_min Limits.long_max v
  | None => 0
  end.

(** [bool v; iss >> v] with [boolalpha] clear, which is the state of a
    fresh stream: the field is read as a [long]; 0 gives [false], 1
    gives [true], a failed read stores 0 and so gives [false], anything
    else gives [true].  (Before C++11 a failed read left [v] as it was,
    which in [_get_scalar_item] is uninitialised.) *)
Definition to_bool (s : string) : bool :=
  match integer false s with
  | Some v => negb (v =? 0)
  | None => false
  end.

End Extract.

(** [operator>>] and [operator<<] of the standard streams for [float]
    convert between decimal text and binary32.  They belong to the C++
    library, not to the header; the reader and the printer take them as
    given. *)
Class FloatText : Type := {
  read_float : string -> Flt.float;
  show_float : Flt.float -> string
}.

(** The two conversions for IEEE-754 binary32 in the default rounding
    mode and the C locale, so that the reader and the printer can be run
    on documents with floating point literals. *)
Module StdFloat.

Definition max_float (negative : bool) : Flt.float :=
  S754_finite negative (2 ^ 24 - 1) 104.

(** The sign, the decimal digits as an integer and the power of ten of
    the literal at the front of [s]; [None] when it has no digit. *)
Definition scan (s : string) : option (bool * Z * Z) :=
  let s := Extract.skipws s in
  let negative := match s with String "-"%char _ => true | _ => false end in
  let '(ip, r) := Str.span Str.is_digit (Rx.strip_sign s) in
  let '(fp, r) :=
    match r with
    | String "."%char f => Str.span Str.is_digit f
    | _ => (EmptyString, r)
    end in
  if Str.empty ip && Str.empty fp then None
  else
    let e :=
      match r with
      | String c r' =>
          if Ascii.eqb c "e" || Ascii.eqb c "E" then
            let minus :=
              match r' with String "-"%char _ => true | _ => false end in
            let '(d, _) := Str.span Str.is_digit (Rx.strip_sign r') in
            if minus then - parse_dec_acc 0 d else parse_dec_acc 0 d
          else 0
      | EmptyString => 0
      end in
    Some (negative, parse_dec_acc 0 (ip ++ fp),
          e - Z.of_nat (String.length fp)).

(** [float v; iss >> v]: the nearest binary32 value; 0 when nothing can
    be read, the largest finite value when the literal is out of
    range. *)
Definition read (s : string) : Flt.float :=
  match scan s with
  | None => S754_zero false
  | Some (negative, digits, e) =>
      match digits with
      | Zpos d =>
          let v :=
            if 0 <=? e
            then binary_normalize 24 128
                   ((if negative then Z.neg d else Z.pos d) * 10 ^ e) 0 false
            else SFdiv 24 128 (S754_finite negative d 0)
                       (S754_finite false (Z.to_pos (10 ^ (- e))) 0) in
          match v with
          | S754_infinity sign => max_float sign
          | _ => v
          end
      | _ => S754_zero negative
      end
  end.

Definition digits_of (n : Z) : string := show_dec n.

Fixpoint strip_zeros_rev (s : list ascii) : list ascii :=
  match s with
  | "0"%char :: r => strip_zeros_rev r
  | _ => s
  end.

(** Drop the zeros at the end of a digit string. *)
Definition strip_zeros (s : string) : string :=
  string_of_list_ascii
    (rev (strip_zeros_rev (rev (list_ascii_of_string s)))).

Definition with_fraction (int_part frac : string) : string :=
  if Str.empty frac then int_part else int_part ++ "." ++ frac.

(** Round [num / den] to the nearest integer, ties to even. *)
Definition round_div (num den : Z) : Z :=
  let q := num / den in
  let r := num mod den in
  if den <? 2 * r then q + 1
  else if (2 * r =? den) && Z.odd q then q + 1
  else q.

(** [num / den * 10 ^ k], rounded. *)
Definition scaled (num den k : Z) : Z :=
  if 0 <=? k then round_div (num * 10 ^ k) den
  else round_div num (den * 10 ^ (- k)).

(** The conversion [%g] with precision 6 of the positive rational
    [num / den]. *)
Definition show_g (num den : Z) : string :=
  let a := Z.of_nat (String.length (digits_of num)) in
  let b := Z.of_nat (String.length (digits_of den)) in
  let x0 := a - b in
  let x :=
    if (if 0 <=? x0 then den * 10 ^ x0 <=? num else den <=? num * 10 ^ (- x0))
    then x0 else x0 - 1 in
  let n := scaled num den (5 - x) in
  let '(n, x) := if n =? 10 ^ 6 then (10 ^ 5, x + 1) else (n, x) in
  let d6 := digits_of n in
  if (x <? -4) || (6 <=? x) then
    with_fraction (Str.substr 0 1 d6) (strip_zeros (Str.substr_from 1 d6))
    ++ "e" ++ (if x <? 0 then "-" else "+")
    ++ (if Z.abs x <? 10 then "0" else "") ++ digits_of (Z.abs x)
  else if 0 <=? x then
    with_fraction (Str.substr 0 (Z.to_nat (x + 1)) d6)
                  (strip_zeros (Str.substr_from (Z.to_nat (x + 1)) d6))
  else
    "0." ++ Str.fill (Z.to_nat (- x - 1)) "0" ++ strip_zeros d6.

(** [o << v] for a [float v] in a stream with the default flags. *)
Definition show (f : Flt.float) : string :=
  match f with
  | S754_zero s => if s then "-0" else "0"
  | S754_infinity s => if s then "-inf" else "inf"
  | S754_nan => "nan"
  | S754_finite s m e =>
      (if s then "-" else "") ++
      (if 0 <=? e then show_g (Z.pos m * 2 ^ e) 1
       else show_g (Z.pos m) (2 ^ (- e)))
  end.

Definition float_text : FloatText :=
  {| read_float := read; show_float := show |}.

End StdFloat.

(** ** Assignment to a setting: [operator=] *)

Definition assign_with (f : scalar -> result scalar) (s : basic_setting)
  : result basic_setting :=
  match s with
  | Setting n t (BScalar v fmt) =>
      do v' <- f v;
      Ok (Setting n t (BScalar v' fmt))
  | _ => Throw (_type_ex "converion not supported")
  end.

Definition assign_bool (s : basic_setting) (value : bool) :=
  assign_with (fun v => Scalar.assignValue_bool v value) s.
Definition assign_int (s : basic_setting) (value : Z) :=
  assign_with (fun v => Scalar.assignValue_int v value) s.
Definition assign_long (s : basic_setting) (value : Z) :=
  assign_with (fun v => Scalar.assignValue_long v value) s.
Definition assign_float (s : basic_setting) (value : Flt.float) :=
  assign_with (fun v => Scalar.assignValue_float v value) s.
Definition assign_string (s : basic_setting) (value : string) :=
  assign_with (fun v => Scalar.assignValue_string v value) s.

Definition setFormat (s : basic_setting) (f : Format) : basic_setting :=
  let 'Setting n t v := s in Setting n t (Body.set_format v f).

(** ** The grammar

    A pair of iterators [begin], [end] into the token vector is the list
    of the tokens between them; a function that advances [begin] returns
    the tokens that are left. *)

Definition no_token : token := token_at "" 0 0.

(** [_skip_end] *)
Definition _skip_end (toks : list token) : list token :=
  match toks with
  | t :: r => if is_tok t ";" || is_tok t "," then r else toks
  | [] => toks
  end.

(** [count--] on a [size_t]. *)
Definition size_t_pred (n : N) : N :=
  if (n =? 0)%N then Z.to_N Limits.ulong_max else N.pred n.

Fixpoint _find_pair_loop (open_token close_token : string) (count : N)
  (toks : list token) (pos : nat) : option nat :=
  match toks with
  | [] => None
  | tok :: r =>
      if is_tok tok open_token
      then _find_pair_loop open_token close_token (N.succ count) r (S pos)
      else if is_tok tok close_token then
        if (count =? 1)%N then Some pos
        else _find_pair_loop open_token close_token (size_t_pred count) r (S pos)
      else _find_pair_loop open_token close_token count r (S pos)
  end.

(** [_find_pair]: the position of the closing token that matches the
    opening token at the head of [toks]. *)
Definition _find_pair (open_token close_token : string) (toks : list token)
  : result nat :=
  match _find_pair_loop open_token close_token 0 toks 0 with
  | Some pos => Ok pos
  | None =>
      let first := hd no_token toks in
      Throw (_syntax_exception ("unable to find closing tag of " ++ text first)
               first false)
  end.

Fixpoint _find_list_item_loop (a_brace g_brace l_brace : N)
  (toks : list token) (pos : nat) : result nat :=
  match toks with
  | [] => Ok pos
  | tok :: r =>
      if is_tok tok "[" then
        _find_list_item_loop (N.succ a_brace) g_brace l_brace r (S pos)
      else if is_tok tok "]" then
        if (a_brace =? 0)%N
        then Throw (_syntax_exception "unmatched array brace" tok false)
        else _find_list_item_loop (N.pred a_brace) g_brace l_brace r (S pos)
      else if is_tok tok "{" then
        _find_list_item_loop a_brace (N.succ g_brace) l_brace r (S pos)
      else if is_tok tok "}" then
        if (g_brace =? 0)%N
        then Throw (_syntax_exception "unmatched group brace" tok false)
        else _find_list_item_loop a_brace (N.pred g_brace) l_brace r (S pos)
      else if is_tok tok "(" then
        _find_list_item_loop a_brace g_brace (N.succ l_brace) r (S pos)
      else if is_tok tok ")" then
        if (l_brace =? 0)%N
        then Throw (_syntax_exception "unmatched list brace" tok false)
        else _find_list_item_loop a_brace g_brace (N.pred l_brace) r (S pos)
      else if is_tok tok "," && (a_brace =? 0)%N && (g_brace =? 0)%N
              && (l_brace =? 0)%N
      then Ok pos
      else _find_list_item_loop a_brace g_brace l_brace r (S pos)
  end.

(** [_find_list_item]: the position of the first comma outside brackets,
    or the length of [toks]. *)
Definition _find_list_item (toks : list token) : result nat :=
  _find_list_item_loop 0 0 0 toks 0.

(** [_concat_string] *)
Fixpoint _concat_string_loop (result_rev : list token) (toks : list token)
  : list token :=
  match toks with
  | [] => rev result_rev
  | cur :: r =>
      match result_rev with
      | prev :: before =>
          if Ascii.eqb (Str.front (text prev)) Tokenizer.quote
             && Ascii.eqb (Str.front (text cur)) Tokenizer.quote
          then
            let cut := Str.substr 0 (String.length (text prev) - 1) (text prev) in
            _concat_string_loop
              (assign_text prev (cut ++ Str.substr_from 1 (text cur)) :: before) r
          else _concat_string_loop (cur :: result_rev) r
      | [] => _concat_string_loop [cur] r
      end
  end.

Definition _concat_string (tokens : list token) : list token :=
  match tokens with
  | [] => []
  | first :: r => _concat_string_loop [first] r
  end.

Section Reader.

Context {io : FloatText}.

(** [_get_scalar_item] *)
Definition _get_scalar_item (name value : token) : result basic_setting :=
  let type := _get_scalar_type (text value) in
  let setting := new_setting (text name) type in
  match type with
  | TypeString => assign_string setting (_remove_quotes (text value))
  | TypeBoolean => assign_bool setting (Extract.to_bool (text value))
  | TypeInt =>
      if Rx.rx_hex (text value)
      then assign_int (setFormat setting FormatHex)
                      (Extract.to_int true (text value))
      else assign_int setting (Extract.to_int false (text value))
  | TypeInt64 =>
      if Rx.rx_hex64 (text value)
      then assign_long (setFormat setting FormatHex)
                       (Extract.to_long true (text value))
      else assign_long setting (Extract.to_long false (text value))
  | TypeFloat => assign_float setting (read_float (text value))
  | _ => Throw (_syntax_exception ("invalid value " ++ text value) value false)
  end.

(** [result.add(settings[i])] for every element. *)
Fixpoint add_all (s : basic_setting) (settings : list basic_setting)
  : result basic_setting :=
  match settings with
  | [] => Ok s
  | x :: r => do s' <- setting_add s x; add_all s' r
  end.

(** The mutually recursive descent.  [fuel] bounds the number of nested
    and successive calls. *)
Fixpoint _get_setting_list (fuel : nat) (toks : list token)
  : M (list basic_setting) :=
  match fuel with
  | O => None
  | S fuel =>
      match toks with
      | [] => ret []
      | tok :: toks =>
          if is_tok tok "[" || is_tok tok "]" then
            throw (_syntax_exception "unexpected array" tok false)
          else if is_tok tok "{" || is_tok tok "}" then
            throw (_syntax_exception
                     "unexpected group setting without identifier" tok false)
          else if is_tok tok "," || is_tok tok "=" || is_tok tok ":" then
            throw (_syntax_exception ("unexpected token " ++ text tok) tok false)
          else
            run (setting, toks) <- _get_setting fuel tok toks;
            run settings <- _get_setting_list fuel toks;
            ret (setting :: settings)
      end
  end

with _get_setting (fuel : nat) (identifier : token) (toks : list token)
  : M (basic_setting * list token) :=
  match fuel with
  | O => None
  | S fuel =>
      match toks with
      | tok :: toks =>
          if is_tok tok "=" || is_tok tok ":" then
            match toks with
            | next :: after =>
                if is_tok next "{" then
                  run (result, toks) <- _get_group fuel identifier toks;
                  ret (result, _skip_end toks)
                else if is_tok next "(" then
                  run (result, toks) <- _get_list fuel identifier toks;
                  ret (result, _skip_end toks)
                else if is_tok next "[" then
                  run (result, toks) <- _get_array fuel identifier toks;
                  ret (result, _skip_end toks)
                else
                  run result <- lift (_get_scalar_item identifier next);
                  ret (result, _skip_end after)
            | [] => throw (_syntax_exception "unexpected end of file" tok true)
            end
          else throw (_syntax_exception ("unexpected token " ++ text tok)
                        tok false)
      | [] => throw (_syntax_exception "unexpected end of file" identifier true)
      end
  end

with _get_group (fuel : nat) (identifier : token) (toks : list token)
  : M (basic_setting * list token) :=
  match fuel with
  | O => None
  | S fuel =>
      run _end <- lift (_find_pair "{" "}" toks);
      let result := new_setting (text identifier) TypeGroup in
      run settings <- _get_setting_list fuel (firstn (_end - 1) (skipn 1 toks));
      run result <- lift (add_all result settings);
      ret (result, skipn (S _end) toks)
  end

with _get_list (fuel : nat) (identifier : token) (toks : list token)
  : M (basic_setting * list token) :=
  match fuel with
  | O => None
  | S fuel =>
      run _end <- lift (_find_pair "(" ")" toks);
      let list := new_setting (text identifier) TypeList in
      run list <- items fuel (firstn (_end - 1) (skipn 1 toks)) list;
      ret (list, skipn (S _end) toks)
  end

with _get_array (fuel : nat) (identifier : token) (toks : list token)
  : M (basic_setting * list token) :=
  match fuel with
  | O => None
  | S fuel =>
      run _end <- lift (_find_pair "[" "]" toks);
      let array := new_setting (text identifier) TypeArray in
      run array <- items fuel (firstn (_end - 1) (skipn 1 toks)) array;
      ret (array, skipn (S _end) toks)
  end

(** The [while(_begin != _end)] loop shared by [_get_list] and
    [_get_array]; [inner] are the tokens from [++_begin] to [_end]. *)
with items (fuel : nat) (inner : list token) (aggregate : basic_setting)
  : M basic_setting :=
  match fuel with
  | O => None
  | S fuel =>
      run stop <- lift (_find_list_item inner);
      run aggregate <-
        match stop with
        | O => ret aggregate
        | S _ =>
            run item <- _get_list_item fuel (firstn stop inner);
            lift (setting_add aggregate item)
        end;
      if (List.length inner <=? stop)%nat then ret aggregate
      else items fuel (skipn (S stop) inner) aggregate
  end

with _get_list_item (fuel : nat) (toks : list token) : M basic_setting :=
  match fuel with
  | O => None
  | S fuel =>
      let tok := hd no_token toks in
      if is_tok tok "(" then
        run (r, _) <- _get_list fuel no_token toks; ret r
      else if is_tok tok "{" then
        run (r, _) <- _get_group fuel no_token toks; ret r
      else if is_tok tok "[" then
        run (r, _) <- _get_array fuel no_token toks; ret r
      else lift (_get_scalar_item no_token tok)
  end.

End Reader.

(** ** The printer *)

Definition nl : string := String Tokenizer.newline EmptyString.
Definition dquote : string := String Tokenizer.quote EmptyString.

(** [o << std::hex << v] for a signed [v] of [bits] bits: the digits of
    the two's complement bit pattern, in lower case. *)
Definition show_hex (bits : Z) (v : Z) : string :=
  HexadecimalString.NilZero.string_of_uint (N.to_hex_uint (Z.to_N (v mod 2 ^ bits))).

Section Printer.

Context {io : FloatText}.

(** [_basic_setting_scalar<T>::print] *)
Definition print_scalar (v : scalar) (m_format : Format) : string :=
  let type := _deduce_scalar_type v in
  let hex :=
    (Type_eqb type TypeInt || Type_eqb type TypeInt64)
    && match m_format with FormatHex => true | FormatDefault => false end in
  (if hex then "0x" else "") ++
  match v with
  | ScalarInt64 x => (if hex then show_hex 64 x else show_dec x) ++ "L"
  | ScalarString x => dquote ++ x ++ dquote
  | ScalarInt x => if hex then show_hex 32 x else show_dec x
  | ScalarBool x => if x then "1" else "0"
  | ScalarFloat x => show_float x
  end.

(** [basic_setting::print(o, level)] with the [print] of the body
    inlined; [has_parent] is [m_parent != 0]. *)
Fixpoint print (has_parent : bool) (level : nat) (s : basic_setting)
  {struct s} : string :=
  let 'Setting m_name _ m_value := s in
  (if negb (Str.empty m_name) then m_name ++ " = " else "") ++
  match m_value with
  | BScalar v f => print_scalar v f
  | BList m_properties =>
      let ident_p := Str.fill (level * 4) " " in
      let ident_c := Str.fill ((level + 1) * 4) " " in
      match m_properties with
      | [] => "()"
      | _ =>
          "(" ++ nl ++
          (fix each (first : bool) (l : list basic_setting) : string :=
             match l with
             | [] => ""
             | x :: r =>
                 (if first then "" else ident_c ++ "," ++ nl) ++
                 ident_c ++ print true (level + 1) x ++ nl ++ each false r
             end) true m_properties
          ++ ident_p ++ ")"
      end
  | BArray m_properties =>
      "[" ++
      (fix each (first : bool) (l : list basic_setting) : string :=
         match l with
         | [] => ""
         | x :: r =>
             (if first then "" else ", ") ++ print true 0 x ++ each false r
         end) true m_properties
      ++ "]"
  | BContainer m_mapping =>
      let complex := has_parent || negb (Str.empty m_name) in
      let ident_p := Str.fill (level * 4) " " in
      let level_c := if complex then (level + 1)%nat else level in
      let ident_c := Str.fill (level_c * 4) " " in
      match m_mapping with
      | [] => "{}"
      | _ =>
          (if complex then "{" ++ nl else "") ++
          (fix each (m : list (string * basic_setting)) : string :=
             match m with
             | [] => ""
             | (_, x) :: r =>
                 ident_c ++ print true level_c x ++ ";" ++ nl ++ each r
             end) m_mapping
          ++ (if complex then ident_p ++ "}" else "")
      end
  end.

(** [operator<<(o, rhs)] applied to a document root. *)
Definition print_root (root : basic_setting) : string := print false 0 root.

End Printer.

(** ** The environment of the reader

    What the header asks of the file system and of the regular expression
    engine when it expands an include directive. *)
Record world : Type := mk_world {
  (** [std::ifstream(path)]: the bytes of the file, [None] when it cannot
      be opened (the stream is then at its end from the start). *)
  open_file : string -> option string;
  (** [directory_iterator(dir)]: the entry names in enumeration order,
      [None] when the constructor throws. *)
  directory : string -> option (list string);
  is_regular_file : string -> bool;
  (** [absolute(p).generic_string()] *)
  absolute : string -> string;
  (** [regex(pattern)] and [regex_match(name, it)]; [None] when the
      pattern does not compile. *)
  regex : string -> option (string -> bool)
}.

(** [_construct_path] *)
Definition _construct_path (filename include_dir : string) : result string :=
  if Str.empty filename then Throw (InvalidArgument "Filename is empty")
  else if Ascii.eqb (Str.front filename) "/" then Ok filename
  else Ok (include_dir ++ "/" ++ filename).

(** The files an include path stands for: the first half of
    [parser::include]. *)
Definition include_files (w : world) (m_include_directory : string)
  (_path : string) : result (list string) :=
  do _path <- _construct_path (_remove_quotes _path) m_include_directory;
  match Str.find_last_of "/" _path with
  | None => Ok [_path]
  | Some delimiter =>
      if (delimiter + 1 <? String.length _path)%nat then
        let dir := Str.substr 0 delimiter _path in
        match regex w ("^" ++ Str.substr_from (delimiter + 1) _path ++ "$") with
        | None => Throw (RegexError "regex_error")
        | Some pattern =>
            match directory w dir with
            | None => Throw (FilesystemError dir)
            | Some entries =>
                Ok (map (fun name => absolute w (dir ++ "/" ++ name))
                      (filter (fun name =>
                                 is_regular_file w (dir ++ "/" ++ name)
                                 && pattern name) entries))
            end
        end
      else Throw (FileIOException ("Can'f find file " ++ _path))
  end.

(** [catch(ParseException& ex) { throw _syntax_exception(ex, m_file.get()); }] *)
Definition in_file {A : Type} (m_file : string) (m : M A) : M A :=
  match m with
  | Some (Throw e) => Some (Throw (_syntax_exception_in e m_file))
  | _ => m
  end.

(** The [while(it != end)] loop of [parser::parse].  [include] stands for
    [parser::include]; [*it++] reads the token after the current one
    before the current one is looked at. *)
Fixpoint parse_loop (include : string -> M (list token)) (m_file : string)
  (n : nat) (it : token_iterator) (is_include : bool) (tokens : list token)
  : M (list token) :=
  if negb (valid it) then ret tokens
  else
    match n with
    | O => None
    | S n =>
        run next <- iter_next it;
        let tok := set_file (tok_ it) m_file in
        if is_include then
          run _tokens <- include (text tok);
          parse_loop include m_file n next false (tokens ++ _tokens)%list
        else if is_tok tok "@include" then
          parse_loop include m_file n next true tokens
        else parse_loop include m_file n next false (tokens ++ [tok])%list
    end.

(** The second half of [parser::include]: a parser per file, one level
    deeper, and the concatenation of their tokens. *)
Fixpoint parse_files (parse : string -> nat -> M (list token))
  (files : list string) (level : nat) : M (list token) :=
  match files with
  | [] => ret []
  | f :: r =>
      run _tokens <- parse f level;
      run more <- parse_files parse r level;
      ret (_tokens ++ more)%list
  end.

(** [parser p(file, include_dir, level); p.parse()].  The constructor
    opens the stream and reads the first token; [parse] runs the loop
    under its [catch].  [m_deep_level] is stored and handed on, one
    higher, to the parsers of included files; nothing reads it.  [depth]
    bounds the nesting of includes that the model follows. *)
Fixpoint parser_parse (depth : nat) (w : world) (m_include_directory : string)
  (m_file : string) (m_deep_level : nat) : M (list token) :=
  match depth with
  | O => None
  | S depth =>
      let stream := match open_file w m_file with Some s => s | None => "" end in
      run it <- iter_begin stream;
      in_file m_file
        (parse_loop
           (fun _path =>
              run files <- lift (include_files w m_include_directory _path);
              parse_files (parser_parse depth w m_include_directory) files
                          (m_deep_level + 1))
           m_file (2 * String.length stream + 2) it false [])
  end.

Section Document.

Context {io : FloatText}.

(** [_read_file(path, include_dir)] *)
Definition _read_file (depth : nat) (w : world) (path include_dir : string)
  : M basic_setting :=
  let root := new_setting "" TypeGroup in
  run _path <- lift (_construct_path path include_dir);
  run tokens <- parser_parse depth w include_dir _path 0;
  match tokens with
  | [] => ret root
  | _ =>
      let tokens := _concat_string tokens in
      run settings <- _get_setting_list (4 * List.length tokens + 8) tokens;
      lift (add_all root settings)
  end.

(** Reading a document from text alone: a world that holds one file. *)
Definition single_file (path content : string) : world :=
  mk_world (fun p => if String.eqb p path then Some content else None)
           (fun _ => None) (fun _ => false) (fun p => p) (fun _ => None).

Definition parse_text (content : string) : M basic_setting :=
  _read_file 1 (single_file "/doc.cfg" content) "/doc.cfg" "/".

End Document.

(** * Vocabulary of the statements *)

(** The cells of a conversion matrix. *)
Inductive cell : Type := Permitted | Forbidden | Checked.

(** The matrix of the specification, section 4.4, cell by cell as it is
    printed there (rows: stored type; columns: bool, i32, u32, i64, u64,
    f32, f64, string).  The aggregate types have no row; a read of an
    aggregate is forbidden. *)
Definition spec_matrix (stored : Type_) (t : target) : cell :=
  match stored, t with
  | TypeBoolean, (ToBool | ToInt | ToUInt | ToLong | ToULong) => Permitted
  | TypeBoolean, (ToFloat | ToDouble | ToString) => Forbidden
  | TypeInt, (ToBool | ToInt | ToLong | ToFloat | ToDouble) => Permitted
  | TypeInt, (ToUInt | ToULong) => Checked
  | TypeInt, ToString => Forbidden
  | TypeInt64, (ToBool | ToLong | ToFloat | ToDouble) => Permitted
  | TypeInt64, (ToInt | ToUInt | ToULong) => Checked
  | TypeInt64, ToString => Forbidden
  | TypeFloat, (ToBool | ToFloat | ToDouble) => Permitted
  | TypeFloat, _ => Forbidden
  | TypeString, ToString => Permitted
  | TypeString, _ => Forbidden
  | (TypeArray | TypeList | TypeGroup), _ => Forbidden
  end.

(** The same matrix with the two cells Boolean/f32 and Boolean/f64 turned
    to permitted. *)
Definition realized_matrix (stored : Type_) (t : target) : cell :=
  match stored, t with
  | TypeBoolean, (ToFloat | ToDouble) => Permitted
  | _, _ => spec_matrix stored t
  end.

(** The range of an integer target; the other targets have none. *)
Definition target_range (t : target) : Z * Z :=
  match t with
  | ToInt => (Limits.int_min, Limits.int_max)
  | ToUInt => (0, Limits.uint_max)
  | ToLong => (Limits.long_min, Limits.long_max)
  | ToULong => (0, Limits.ulong_max)
  | _ => (0, 0)
  end.

Definition stored_integer (s : scalar) : Z :=
  match s with
  | ScalarInt v | ScalarInt64 v => v
  | ScalarBool b => if b then 1 else 0
  | _ => 0
  end.

Definition fits (t : target) (v : Z) : bool :=
  (fst (target_range t) <=? v) && (v <=? snd (target_range t)).

Definition scalar_body (s : scalar) (f : Format) : body basic_setting :=
  BScalar s f.

(** [_at] returns a setting or throws SettingNotFound, nothing else. *)
Definition found_or_not_found (r : result basic_setting) : Prop :=
  match r with
  | Ok _ => True
  | Throw (SettingNotFoundException _ _) => True
  | Throw _ => False
  end.

(** What [_check_path] rejects: the empty path and a path whose first or
    last character is a dot. *)
Definition malformed (path : string) : bool :=
  Str.empty path || Ascii.eqb (Str.front path) dot
  || Ascii.eqb (Str.back path) dot.

Module Sample.
(** The root of the document [a = 1;]. *)
Definition a_is_1 : basic_setting :=
  Setting "" TypeGroup
    (BContainer [("a", Setting "a" TypeInt (BScalar (ScalarInt 1) FormatDefault))]).
End Sample.

(** The text contains the two characters that close a block comment. *)
Fixpoint closes_comment (s : string) : bool :=
  match s with
  | EmptyString => false
  | String a r =>
      (Ascii.eqb a "*" && Ascii.eqb (Str.front r) "/") || closes_comment r
  end.

Definition file_name (tok : token) : string :=
  match file tok with Some f => f | None => "" end.

Module RoundTrip.

(** A document with one setting [s], a string of three characters: [a],
  an escaped double quote, [b]. *)
Definition source : string :=
  "s = " ++ dquote ++ "a\" ++ dquote ++ "b" ++ dquote ++ ";" ++ nl.

Definition string_root (v : string) : basic_setting :=
  Setting "" TypeGroup
    (BContainer
       [("s", Setting "s" TypeString (BScalar (ScalarString v) FormatDefault))]).

(** What the reader makes of [source]: the value is [a], a double
  quote, [b]. *)
Definition tree : basic_setting := string_root ("a" ++ dquote ++ "b").

(** What the reader makes of the printed [tree]. *)
Definition reread : basic_setting := string_root "a".

Definition empty_root : basic_setting := Setting "" TypeGroup (BContainer []).

End RoundTrip.

Module SelfInclude.

(** The text of a file whose only line includes [a.cfg]. *)
Definition content : string :=
  "@include " ++ dquote ++ "a.cfg" ++ dquote ++ nl.

(** A directory [/d] that holds the file [a.cfg] with that text. *)
Definition disk : world :=
  mk_world
    (fun p => if String.eqb p "/d/a.cfg" then Some content else None)
    (fun d => if String.eqb d "/d" then Some ["a.cfg"] else None)
    (fun p => String.eqb p "/d/a.cfg")
    (fun p => p)
    (fun pattern => Some (fun name => String.eqb pattern ("^" ++ name ++ "$"))).

(** What a world has to offer for [/d/a.cfg] to include itself. *)
Definition includes_itself (w : world) : Prop :=
  open_file w "/d/a.cfg" = Some content
  /\ directory w "/d" = Some ["a.cfg"]
  /\ is_regular_file w "/d/a.cfg" = true
  /\ absolute w "/d/a.cfg" = "/d/a.cfg"
  /\ exists pattern, regex w "^a.cfg$" = Some pattern
                     /\ pattern "a.cfg" = true.

End SelfInclude.

(** The token stream of [SelfInclude.content]: the directive, then the
    quoted file name, then the end. *)
Definition self_first : token_iterator :=
  mk_iter true (mk_token "@include" 1 2 None)
    (Tokenizer.mk_state false false 1 10 "") (Str.substr_from 9 SelfInclude.content).

Definition self_second : token_iterator :=
  mk_iter true (mk_token (dquote ++ "a.cfg" ++ dquote) 1 11 None)
    (Tokenizer.mk_state false false 1 17 "") nl.

Definition self_last : token_iterator :=
  mk_iter false (mk_token (dquote ++ "a.cfg" ++ dquote) 1 11 None)
    (Tokenizer.mk_state false true 1 18 "") "".

(** What a call of the tokenizer may answer: it always answers, the
    unread input does not grow, and it shrinks when a token is produced
    by the loop. *)
Definition answers (input : string)
  (m : M (bool * token * Tokenizer.state * string)) : Prop :=
  exists r, m = Some r
    /\ forall v t st rest, r = Ok (v, t, st, rest) ->
         (String.length rest <= String.length input)%nat
         /\ (v = true -> (String.length rest < String.length input)%nat).

(** The budget of [drain]: two steps for every unread character and one
    for a separator that is held back in [tmp_token]. *)
Definition pending (it : token_iterator) : nat :=
  2 * String.length (begin_ it)
  + (if Str.empty (Tokenizer.tmp_token (f_ it)) then 0 else 1).

(** The types of the children of an aggregate, in iteration order. *)
Definition types_of (s : basic_setting) : list Type_ :=
  match value_of s with
  | BList l | BArray l => map getType l
  | BContainer m => map (fun kv => getType (snd kv)) m
  | BScalar _ _ => []
  end.

(** ** Vocabulary of the further properties *)

(** The number a decimal numeral denotes when read after [acc]. *)
Fixpoint uint_value (acc : Z) (d : Decimal.uint) : Z :=
  match d with
  | Decimal.Nil => acc
  | Decimal.D0 r => uint_value (10 * acc) r
  | Decimal.D1 r => uint_value (10 * acc + 1) r
  | Decimal.D2 r => uint_value (10 * acc + 2) r
  | Decimal.D3 r => uint_value (10 * acc + 3) r
  | Decimal.D4 r => uint_value (10 * acc + 4) r
  | Decimal.D5 r => uint_value (10 * acc + 5) r
  | Decimal.D6 r => uint_value (10 * acc + 6) r
  | Decimal.D7 r => uint_value (10 * acc + 7) r
  | Decimal.D8 r => uint_value (10 * acc + 8) r
  | Decimal.D9 r => uint_value (10 * acc + 9) r
  end.

(** An Int or an Int64 scalar. *)
Definition integer_scalar (s : scalar) : bool :=
  match s with
  | ScalarInt _ | ScalarInt64 _ => true
  | _ => false
  end.

(** The keys of a [std::map] in iteration order: each one smaller than
    all that follow. *)
Fixpoint keys_ascending {V : Type} (m : list (string * V)) : Prop :=
  match m with
  | [] => True
  | (k, _) :: r =>
      Forall (fun kv => Str.ltb k (fst kv) = true) r /\ keys_ascending r
  end.

Definition raises_SettingName {A : Type} (r : result A) : bool :=
  match r with Throw (SettingNameException _ _) => true | _ => false end.

(** Every child of a group is stored under its own name. *)
Definition keyed_by_name (m : list (string * basic_setting)) : Prop :=
  Forall (fun kv => getName (snd kv) = fst kv) m.

(** The elements of an array are scalars of one type. *)
Definition homogeneous (l : list basic_setting) : Prop :=
  Forall (fun x => isScalar x = true) l
  /\ forall x y, In x l -> In y l -> getType x = getType y.

(** A tree as the header keeps it: the type tag agrees with the class of
    the body, the children of a group are stored in ascending order of
    their names, each under its own name, and the elements of an array are
    scalars of one type; and so for every descendant. *)
Inductive well_formed : basic_setting -> Prop :=
| wf_scalar name type v f :
    type = _deduce_scalar_type v ->
    well_formed (Setting name type (BScalar v f))
| wf_list name l :
    Forall well_formed l ->
    well_formed (Setting name TypeList (BList l))
| wf_array name l :
    Forall well_formed l -> homogeneous l ->
    well_formed (Setting name TypeArray (BArray l))
| wf_group name m :
    Forall (fun kv => well_formed (snd kv)) m ->
    keys_ascending m -> keyed_by_name m ->
    well_formed (Setting name TypeGroup (BContainer m)).

Section GrammarVocabulary.

Context {io : FloatText}.

(** What the recursive descent guarantees for a given budget. *)
Definition grammar_well_formed (fuel : nat) : Prop :=
  (forall toks l,
      _get_setting_list fuel toks = Some (Ok l) -> Forall well_formed l)
  /\ (forall id toks s r,
         _get_setting fuel id toks = Some (Ok (s, r)) -> well_formed s)
  /\ (forall id toks s r,
         _get_group fuel id toks = Some (Ok (s, r)) -> well_formed s)
  /\ (forall id toks s r,
         _get_list fuel id toks = Some (Ok (s, r)) -> well_formed s)
  /\ (forall id toks s r,
         _get_array fuel id toks = Some (Ok (s, r)) -> well_formed s)
  /\ (forall inner aggregate s,
         well_formed aggregate ->
         items fuel inner aggregate = Some (Ok s) -> well_formed s)
  /\ (forall toks s,
         _get_list_item fuel toks = Some (Ok s) -> well_formed s).

End GrammarVocabulary.

(** A name that a path can carry as one component: not empty, without a
    dot, and not read as an index. *)
Definition plain_name (n : string) : bool :=
  negb (Str.empty n) && negb (_long_path n)
  && match _convert_index n with Some _ => false | None => true end.

(** The components of a path, joined by dots. *)
Fixpoint join (names : list string) : string :=
  match names with
  | [] => ""
  | [n] => n
  | n :: r => n ++ "." ++ join r
  end.

(** Going down from [s] through the groups, one name at a time: the
    setting reached and its ancestors, the parent first. *)
Fixpoint descend (up : list basic_setting) (s : basic_setting)
  (names : list string) : option (list basic_setting * basic_setting) :=
  match names with
  | [] => Some (up, s)
  | n :: r =>
      match Body.at_name (value_of s) n with
      | Ok child =>
          if String.eqb (getName child) n then descend (s :: up) child r
          else None
      | Throw _ => None
      end
  end.

(** A list or an array. *)
Definition sequence (s : basic_setting) : bool :=
  match value_of s with
  | BList _ | BArray _ => true
  | _ => false
  end.

(** A result that is a setting or a SettingNotFoundException with the
    message of [_not_found_ex]. *)
Definition not_found_only {A : Type} (r : result A) : Prop :=
  match r with
  | Ok _ => True
  | Throw e => exists p, e = _not_found_ex p
  end.

(** Every character of [s] satisfies [p]. *)
Fixpoint all_chars (p : ascii -> bool) (s : string) : bool :=
  match s with
  | EmptyString => true
  | String c r => p c && all_chars p r
  end.

(** A character that stands for itself inside a string literal. *)
Definition literal_char (c : ascii) : bool :=
  negb (Ascii.eqb c Tokenizer.quote) && negb (Ascii.eqb c Tokenizer.backslash)
  && negb (Ascii.eqb c Ascii.zero).

(** A character of an identifier or a number: no white space, no
    separator, no comment sign and not the character 0. *)
Definition word_char (c : ascii) : bool :=
  negb (Str.isspace c)
  && negb (Tokenizer.is_in_set c Tokenizer.separators)
  && negb (Ascii.eqb c "#") && negb (Ascii.eqb c Ascii.zero).

(** The tokenizer state after the characters of [s] have been read. *)
Fixpoint advance (st : Tokenizer.state) (s : string) : Tokenizer.state :=
  match s with
  | EmptyString => st
  | String c r => advance (Tokenizer.get st c) r
  end.

(** Opening tokens minus closing tokens. *)
Fixpoint bracket_depth (open_token close_token : string) (toks : list token) : Z :=
  match toks with
  | [] => 0
  | tok :: r =>
      (if is_tok tok open_token then 1
       else if is_tok tok close_token then -1 else 0)
      + bracket_depth open_token close_token r
  end.

(** Small trees and a small file system on which the hypotheses of the
    properties hold. *)
Module Shelf.

(** The children of a group, a group inside the root of a document, and
    that root. *)
Definition pair_ab : list (string * basic_setting) :=
  [("a", new_setting "a" TypeInt); ("b", new_setting "b" TypeString)].

Definition inner : basic_setting :=
  Setting "server" TypeGroup
    (BContainer [("port", Setting "port" TypeInt
                            (BScalar (ScalarInt 80) FormatDefault))]).

Definition root : basic_setting :=
  Setting "" TypeGroup (BContainer [("server", inner)]).

(** A file system with one directory that holds two entries, and a regular
    expression engine that knows one pattern. *)
Definition disk : world :=
  mk_world (fun _ => None)
           (fun d => if String.eqb d "/etc" then Some ["a.cfg"; "b.txt"]
                     else None)
           (fun _ => true) (fun p => p)
           (fun _ => Some (fun name => String.eqb name "a.cfg")).

End Shelf.

(** * Properties *)

Lemma Type_eqb_eq a b : Type_eqb a b = true <-> a = b.
Proof. destruct a, b; simpl; split; intro H; try reflexivity; discriminate. Qed.

(** ** Scalar conversions *)

Ltac unfold_limits :=
  unfold Limits.int_min, Limits.int_max, Limits.uint_max, Limits.long_min,
    Limits.long_max, Limits.ulong_max in *.

Ltac bool_arith :=
  repeat match goal with
    | |- context [?a <? ?b] => destruct (Z.ltb_spec a b)
    | |- context [?a >? ?b] => rewrite (Z.gtb_ltb a b)
    | |- context [?a >=? ?b] => rewrite (Z.geb_leb a b)
    | |- context [?a <=? ?b] => destruct (Z.leb_spec a b)
    end.

(** C2, counterexample: a stored Boolean reads as a [float] and as a
    [double]; no SettingType error is raised. *)
Lemma C2_boolean_reads_as_float :
  raises_SettingType
    (body_lookupValue ToFloat (scalar_body (ScalarBool true) FormatDefault))
  = false
  /\ raises_SettingType
       (body_lookupValue ToDouble (scalar_body (ScalarBool true) FormatDefault))
     = false
  /\ Scalar.lookupValue_float (ScalarBool true) = Ok (Flt.of_long 1).
Proof. repeat split. Qed.

(** C2, amended: a stored Boolean converts to [float] and to [double]
    (true gives the value of the integer 1, false of 0); apart from these
    two cells the matrix of section 4.4 is realized exactly: a permitted
    conversion succeeds, a forbidden one raises SettingType, and a checked
    one succeeds when the stored value fits the target and raises
    SettingType when it does not. *)
Theorem C2_conversion_matrix_realized :
  forall (s : scalar) (f : Format) (t : target),
    scalar_wf s ->
    (forall b : bool,
        Scalar.lookupValue_float (ScalarBool b)
        = Ok (Flt.of_long (if b then 1 else 0))
        /\ Scalar.lookupValue_double (ScalarBool b)
           = Ok (Flt.to_double (Flt.of_long (if b then 1 else 0))))
    /\ match realized_matrix (_deduce_scalar_type s) t with
       | Permitted => is_ok (body_lookupValue t (scalar_body s f)) = true
       | Forbidden =>
           raises_SettingType (body_lookupValue t (scalar_body s f)) = true
       | Checked =>
           if fits t (stored_integer s)
           then is_ok (body_lookupValue t (scalar_body s f)) = true
           else raises_SettingType (body_lookupValue t (scalar_body s f)) = true
       end.
Proof.
  intros s f t Hwf. split.
  - intros []; split; reflexivity.
  - destruct s as [b | v | v | v | v]; destruct t; simpl in *;
      try reflexivity; try (destruct b; reflexivity);
      unfold fits, is_ok, raises_SettingType; simpl;
      unfold_limits; bool_arith; simpl; try reflexivity; try lia.
Qed.

(** A run of [C2_conversion_matrix_realized]: a stored Int64 of 2^40 read
    as [int] is a checked cell whose value does not fit. *)
Lemma C2_conversion_matrix_witness :
  raises_SettingType
    (body_lookupValue ToInt (scalar_body (ScalarInt64 (2 ^ 40)) FormatDefault))
  = true.
Proof.
  refine (proj2 (C2_conversion_matrix_realized (ScalarInt64 (2 ^ 40))
                   FormatDefault ToInt _)).
  unfold scalar_wf, Limits.long_min, Limits.long_max. lia.
Defined.

(** C7: for a stored integer (Int or Int64) with value [v], the read as
    [int] raises SettingType exactly when [v] is outside the range of
    [int], the read as [unsigned] exactly when [v] is negative or above
    its maximum, the read as [unsigned long] exactly when [v] is negative;
    a read that does not raise yields [v]; and every negative [v] makes
    both unsigned reads raise SettingType. *)
Theorem C7_integer_narrowing :
  forall (s : scalar) (v : Z),
    (s = ScalarInt v \/ s = ScalarInt64 v) ->
    scalar_wf s ->
    (raises_SettingType (Scalar.lookupValue_int s) = true
     <-> (v < Limits.int_min \/ Limits.int_max < v))
    /\ (Limits.int_min <= v <= Limits.int_max ->
        Scalar.lookupValue_int s = Ok v)
    /\ (raises_SettingType (Scalar.lookupValue_uint s) = true
        <-> (v < 0 \/ Limits.uint_max < v))
    /\ (0 <= v <= Limits.uint_max -> Scalar.lookupValue_uint s = Ok v)
    /\ (raises_SettingType (Scalar.lookupValue_ulong s) = true
        <-> (v < 0 \/ Limits.ulong_max < v))
    /\ (0 <= v <= Limits.ulong_max -> Scalar.lookupValue_ulong s = Ok v)
    /\ Scalar.lookupValue_long s = Ok v
    /\ (v < 0 ->
        raises_SettingType (Scalar.lookupValue_uint s) = true
        /\ raises_SettingType (Scalar.lookupValue_ulong s) = true).
Proof.
  intros s v [-> | ->] Hwf; simpl in *; unfold_limits;
    repeat split; try intros H; try reflexivity;
    revert H; bool_arith; simpl; intros; try reflexivity;
      try discriminate; try lia; try (destruct H; lia).
Qed.

(** A run of [C7_integer_narrowing]: Int64 holding 2^31 read as [int]. *)
Lemma C7_integer_narrowing_witness :
  raises_SettingType (Scalar.lookupValue_int (ScalarInt64 (2 ^ 31))) = true.
Proof.
  refine (proj2 (proj1 (C7_integer_narrowing (ScalarInt64 (2 ^ 31)) (2 ^ 31)
                          (or_intror eq_refl) _)) _).
  - unfold scalar_wf, Limits.long_min, Limits.long_max. lia.
  - right. unfold Limits.int_max. lia.
Defined.

(** ** Path addressing *)

Lemma find_first_of_shorter c s i :
  Str.find_first_of c s = Some i ->
  (String.length (Str.substr_from (S i) s) < String.length s)%nat.
Proof.
  revert i. induction s as [| a r IH]; simpl; intros i H; [discriminate |].
  destruct (Ascii.eqb a c).
  - injection H as <-. destruct r; simpl; lia.
  - destruct (Str.find_first_of c r) as [j |]; [| discriminate].
    injection H as <-. specialize (IH j eq_refl). simpl in *. lia.
Qed.

Lemma _remote_shorter path :
  _long_path path = true ->
  (String.length (_remote path) < String.length path)%nat.
Proof.
  unfold _long_path, _remote.
  destruct (Str.find_first_of dot path) as [i |] eqn:E; [| discriminate].
  intros _. rewrite Nat.add_1_r. now apply (find_first_of_shorter dot).
Qed.

Lemma empty_length s : Str.empty s = true <-> String.length s = O.
Proof. destruct s; simpl; split; intro H; auto; discriminate. Qed.

(** The bound of [_at_upto] is immaterial once it covers the length of
    the path. *)
Lemma _at_upto_enough n :
  forall m s path,
    (String.length path <= n)%nat -> (String.length path <= m)%nat ->
    _at_upto n s path = _at_upto m s path.
Proof.
  induction n as [| n IH]; intros m s path Hn Hm.
  - assert (E : Str.empty path = true) by (apply empty_length; lia).
    destruct m; simpl; rewrite E; reflexivity.
  - destruct m as [| m].
    + assert (E : Str.empty path = true) by (apply empty_length; lia).
      simpl; rewrite E; reflexivity.
    + simpl. destruct (Str.empty path); [reflexivity |].
      destruct (_long_path path) eqn:L; simpl; [| reflexivity].
      pose proof (_remote_shorter path L) as Hr.
      f_equal.
      destruct (_convert_index (_local path)).
      * destruct (Body.at_index (value_of s) n0); simpl; [| reflexivity].
        apply IH; lia.
      * destruct (Body.at_name (value_of s) (_local path)); simpl;
          [| reflexivity].
        apply IH; lia.
Qed.

(** The body of the C++ function [_at], as an equation of the model. *)
Lemma _at_unfold s path :
  _at s path =
  if Str.empty path then Ok s
  else
    rethrow_not_found path
      (if negb (_long_path path) then
         match _convert_index path with
         | Some index => Body.at_index (value_of s) index
         | None => Body.at_name (value_of s) path
         end
       else
         match _convert_index (_local path) with
         | Some index =>
             do child <- Body.at_index (value_of s) index;
             _at child (_remote path)
         | None =>
             do child <- Body.at_name (value_of s) (_local path);
             _at child (_remote path)
         end).
Proof.
  unfold _at. destruct path as [| a r]; [reflexivity |].
  cbn [String.length _at_upto Str.empty].
  destruct (_long_path (String a r)) eqn:L; simpl; [| reflexivity].
  pose proof (_remote_shorter _ L) as Hr. simpl in Hr.
  f_equal.
  destruct (_convert_index (_local (String a r))).
  - destruct (Body.at_index (value_of s) n); simpl; [| reflexivity].
    apply _at_upto_enough; lia.
  - destruct (Body.at_name (value_of s) (_local (String a r))); simpl;
      [| reflexivity].
    apply _at_upto_enough; lia.
Qed.

Lemma _exists_upto_enough n :
  forall m s path,
    (String.length path <= n)%nat -> (String.length path <= m)%nat ->
    _exists_upto n s path = _exists_upto m s path.
Proof.
  induction n as [| n IH]; intros m s path Hn Hm.
  - assert (L : _long_path path = false).
    { destruct path; [reflexivity | simpl in Hn; lia]. }
    destruct m; simpl; rewrite L; reflexivity.
  - destruct m as [| m].
    + assert (L : _long_path path = false).
      { destruct path; [reflexivity | simpl in Hm; lia]. }
      simpl; rewrite L; reflexivity.
    + simpl. destruct (_long_path path) eqn:L; simpl; [| reflexivity].
      pose proof (_remote_shorter path L) as Hr.
      destruct (_convert_index path).
      * destruct (Body.exists_index (value_of s) n0); [| reflexivity].
        destruct (Body.at_index (value_of s) n0); [| reflexivity].
        apply IH; lia.
      * destruct (Body.exists_name (value_of s) (_local path)); [| reflexivity].
        destruct (Body.at_name (value_of s) (_local path)); [| reflexivity].
        apply IH; lia.
Qed.

(** The body of the C++ function [_exists], as an equation of the
    model. *)
Lemma _exists_unfold s path :
  _exists s path =
  if negb (_long_path path) then
    match _convert_index path with
    | Some index => Body.exists_index (value_of s) index
    | None => Body.exists_name (value_of s) path
    end
  else
    match _convert_index path with
    | Some index =>
        if Body.exists_index (value_of s) index then
          match Body.at_index (value_of s) index with
          | Ok child => _exists child (_remote path)
          | Throw _ => false
          end
        else false
    | None =>
        if Body.exists_name (value_of s) (_local path) then
          match Body.at_name (value_of s) (_local path) with
          | Ok child => _exists child (_remote path)
          | Throw _ => false
          end
        else false
    end.
Proof.
  unfold _exists.
  rewrite (_exists_upto_enough (String.length path) (S (String.length path)))
    by lia.
  cbn [_exists_upto].
  destruct (_long_path path) eqn:L; cbn [negb]; [| reflexivity].
  pose proof (_remote_shorter _ L) as Hr.
  destruct (_convert_index path).
  - destruct (Body.exists_index (value_of s) n); [| reflexivity].
    destruct (Body.at_index (value_of s) n); [| reflexivity].
    apply _exists_upto_enough; lia.
  - destruct (Body.exists_name (value_of s) (_local path)); [| reflexivity].
    destruct (Body.at_name (value_of s) (_local path)); [| reflexivity].
    apply _exists_upto_enough; lia.
Qed.

Lemma at_index_outcome b i : found_or_not_found (Body.at_index b i).
Proof.
  destruct b as [v f | l | l | m]; simpl; auto.
  - destruct (vec_nth l i); simpl; auto.
  - destruct (vec_nth l i); simpl; auto.
  - destruct (vec_nth m i) as [[k v] |]; simpl; auto.
Qed.

Lemma at_name_outcome b k : found_or_not_found (Body.at_name b k).
Proof.
  destruct b as [v f | l | l | m]; simpl; auto.
  destruct (Map.at_ k m); simpl; auto.
Qed.

Lemma rethrow_outcome path r :
  found_or_not_found r -> found_or_not_found (rethrow_not_found path r).
Proof. destruct r as [x | []]; simpl; auto. Qed.

Lemma _at_upto_outcome n :
  forall s path, found_or_not_found (_at_upto n s path).
Proof.
  induction n as [| n IH]; intros s path; simpl;
    (destruct (Str.empty path); [exact I |]); apply rethrow_outcome;
    destruct (_long_path path); simpl; try exact I;
    try (destruct (_convert_index path);
         [apply at_index_outcome | apply at_name_outcome]).
  destruct (_convert_index (_local path)).
  - pose proof (at_index_outcome (value_of s) n0) as H.
    destruct (Body.at_index (value_of s) n0); simpl; [apply IH | exact H].
  - pose proof (at_name_outcome (value_of s) (_local path)) as H.
    destruct (Body.at_name (value_of s) (_local path)); simpl;
      [apply IH | exact H].
Qed.

(** C6, counterexample: [operator[]] with the empty path returns the
    setting it is applied to, and with a path that ends in a dot it returns
    the child; neither raises an invalid-argument error. *)
Lemma C6_subscript_accepts_malformed_paths :
  malformed "" = true /\ malformed "a." = true
  /\ subscript Sample.a_is_1 "" = Ok Sample.a_is_1
  /\ subscript Sample.a_is_1 "a."
     = Ok (Setting "a" TypeInt (BScalar (ScalarInt 1) FormatDefault))
  /\ raises_InvalidArgument (subscript Sample.a_is_1 "") = false.
Proof. repeat split. Qed.

(** C6, amended: for every path that is empty or begins or ends with a
    dot, [exists] and [remove] raise an invalid-argument error, which is
    not a setting-not-found error, whatever the tree holds; [operator[]]
    does not validate its path: it never raises invalid-argument for any
    path, and the empty path refers to the setting itself. *)
Theorem C6_path_validation :
  forall (s : basic_setting) (path : string),
    malformed path = true ->
    raises_InvalidArgument (exists_ s path) = true
    /\ raises_SettingNotFound (exists_ s path) = false
    /\ raises_InvalidArgument (remove s path) = true
    /\ raises_SettingNotFound (remove s path) = false
    /\ (forall (s' : basic_setting) (p : string),
           raises_InvalidArgument (subscript s' p) = false)
    /\ subscript s "" = Ok s.
Proof.
  intros s path H.
  assert (C : exists what, _check_path path = Throw (InvalidArgument what)).
  { unfold malformed in H. unfold _check_path.
    destruct (Str.empty path); [eauto |]. simpl in H. rewrite H. eauto. }
  destruct C as [what C].
  unfold exists_, remove. rewrite C. simpl.
  repeat split; try reflexivity.
  intros s' p. unfold subscript, _at.
  pose proof (_at_upto_outcome (String.length p) s' p) as O.
  destruct (_at_upto (String.length p) s' p) as [x | []]; simpl in *;
    try reflexivity; contradiction.
Qed.

(** A run of [C6_path_validation] on a path that begins with a dot. *)
Lemma C6_path_validation_witness :
  raises_InvalidArgument (remove Sample.a_is_1 ".a") = true.
Proof.
  refine (proj1 (proj2 (proj2 (C6_path_validation Sample.a_is_1 ".a" _)))).
  reflexivity.
Defined.

(** ** [lookupValue(path, out)] *)

(** C10, counterexample: with the path [a.], which ends in a dot, and
    with the empty path on a scalar, [lookupValue] returns true and stores
    the value. *)
Lemma C10_lookupValue_accepts_malformed_paths :
  malformed "a." = true
  /\ lookupValue ToInt Sample.a_is_1 "a." 0 = Ok (true, 1)
  /\ lookupValue ToInt
       (Setting "a" TypeInt (BScalar (ScalarInt 1) FormatDefault)) "" 0
     = Ok (true, 1).
Proof. repeat split. Qed.

(** C10, amended: for every path and every output type [lookupValue]
    never propagates an exception; it returns true and stores the
    converted value when [_at] resolves the path and the conversion is
    permitted, and returns false leaving the output unchanged when the
    path is not found or the conversion is disallowed or overflows.  A
    path is not validated: the empty path resolves to the setting
    itself. *)
Theorem C10_lookupValue_total :
  forall (t : target) (s : basic_setting) (path : string) (value : out t),
    (exists (flag : bool) (stored : out t),
        lookupValue t s path value = Ok (flag, stored))
    /\ (forall found converted,
           _at s path = Ok found -> convert_to t found = Ok converted ->
           lookupValue t s path value = Ok (true, converted))
    /\ (forall e, _at s path = Throw e ->
                  lookupValue t s path value = Ok (false, value))
    /\ (forall found e,
           _at s path = Ok found -> convert_to t found = Throw e ->
           lookupValue t s path value = Ok (false, value))
    /\ (forall stored, lookupValue t s path value = Ok (false, stored) ->
                       stored = value)
    /\ _at s "" = Ok s.
Proof.
  intros t s path value. unfold lookupValue.
  assert (D : forall e, derives_std_exception e = true)
    by (intros []; reflexivity).
  split; [| split; [| split; [| split; [| split]]]].
  - destruct (_at s path) as [found | e]; simpl.
    + destruct (convert_to t found) as [c | e]; simpl; [eauto |].
      rewrite D; eauto.
    + rewrite D; eauto.
  - intros found converted -> ; simpl. intros ->. reflexivity.
  - intros e ->; simpl. now rewrite D.
  - intros found e ->; simpl. intros ->; simpl. now rewrite D.
  - intros stored.
    destruct (_at s path) as [found | e]; simpl.
    + destruct (convert_to t found) as [c | e]; simpl; [discriminate |].
      rewrite D. congruence.
    + rewrite D. congruence.
  - reflexivity.
Qed.

(** A run of [C10_lookupValue_total]: the child [b] does not exist, the
    output keeps its value. *)
Lemma C10_lookupValue_total_witness :
  lookupValue ToInt Sample.a_is_1 "b" 7 = Ok (false, 7).
Proof.
  refine (proj1 (proj2 (proj2 (C10_lookupValue_total ToInt Sample.a_is_1 "b" 7)))
            (SettingNotFoundException "Setting not found" "b") _).
  reflexivity.
Defined.

(** ** The tokenizer returns *)

Ltac split_ifs :=
  repeat match goal with
    | |- context [if ?b then _ else _] => destruct b
    end.

(** [skip_comment] never gives back more input than it was given. *)
Lemma skip_comment_loop_le n :
  forall input st a b c ch st' rest,
    (String.length input <= n)%nat ->
    Tokenizer.skip_comment_loop st a b c input = Ok (ch, st', rest) ->
    (String.length rest <= String.length input)%nat.
Proof.
  induction n as [| n IH]; intros input st a b c ch st' rest Hn H.
  - destruct input; [| simpl in Hn; lia].
    simpl in H. injection H as _ _ <-. simpl; lia.
  - destruct input as [| x next].
    + simpl in H. injection H as _ _ <-. simpl; lia.
    + cbn [Tokenizer.skip_comment_loop] in H. simpl in Hn.
      revert H. split_ifs;
        try (intros [= _ _ <-]; simpl; lia);
        try (intros H; apply IH in H; simpl in *; lia).
      destruct next as [| y next'].
      * discriminate.
      * split_ifs; try discriminate;
          intros H; apply IH in H; simpl in *; lia.
Qed.

(** On a non-empty input it reads at least one character. *)
Lemma skip_comment_consumes input st ch st' rest :
  input <> "" ->
  Tokenizer.skip_comment st input = Ok (ch, st', rest) ->
  (String.length rest < String.length input)%nat.
Proof.
  unfold Tokenizer.skip_comment. intros Hne H.
  destruct input as [| x next]; [contradiction |].
  cbn [Tokenizer.skip_comment_loop] in H. revert H.
  split_ifs;
    try (intros [= _ _ <-]; simpl; lia);
    try (intros H; apply (skip_comment_loop_le (String.length next)) in H;
         simpl in *; lia).
  destruct next as [| y next'].
  - discriminate.
  - split_ifs; try discriminate;
      intros H; apply (skip_comment_loop_le (String.length next')) in H;
      simpl in *; lia.
Qed.

Lemma answers_ret input v t st rest :
  (String.length rest <= String.length input)%nat ->
  (v = true -> (String.length rest < String.length input)%nat) ->
  answers input (ret (v, t, st, rest)).
Proof.
  intros H1 H2. eexists; split; [reflexivity |].
  intros ? ? ? ? [= <- <- <- <-]. auto.
Qed.

Lemma answers_throw input e : answers input (throw e).
Proof. eexists; split; [reflexivity |]. discriminate. Qed.

Lemma answers_shorter input input' m :
  (String.length input' < String.length input)%nat ->
  answers input' m -> answers input m.
Proof.
  intros L (r & -> & H). exists r; split; [reflexivity |].
  intros v t st rest E. destruct (H v t st rest E). split; [lia |]. intros; lia.
Qed.

Lemma token_loop_answers fuel :
  forall input st tok escape is_identifier,
    (String.length input < fuel)%nat ->
    answers input
      (Tokenizer.token_loop fuel st input tok escape is_identifier).
Proof.
  induction fuel as [| fuel IH]; intros input st tok escape is_identifier L;
    [lia |].
  destruct input as [| x next].
  - apply answers_ret; [lia | discriminate].
  - cbn [Tokenizer.token_loop].
    destruct (Tokenizer.skip_comment st (String x next))
      as [[[c st1] rest1] | e] eqn:S; cbn [lift mbind].
    + apply skip_comment_consumes in S; [| discriminate].
      split_ifs;
        try (apply answers_ret; [lia | intros; lia]);
        try apply answers_throw;
        (apply answers_shorter with (input' := rest1); [exact S |];
         apply IH; lia).
    + apply answers_throw.
Qed.

(** [operator()] always answers. *)
Lemma call_answers st input tok :
  exists r, Tokenizer.call st input tok = Some r.
Proof.
  unfold Tokenizer.call.
  destruct (negb (Str.empty (Tokenizer.tmp_token st))); [eexists; reflexivity |].
  destruct (token_loop_answers (S (String.length input)) input st tok false false)
    as (r & E & _); [lia | eauto].
Qed.

Lemma call_progress st input tok :
  exists r, Tokenizer.call st input tok = Some r
    /\ forall v t st' rest, r = Ok (v, t, st', rest) ->
         (String.length rest <= String.length input)%nat
         /\ (v = true ->
             (2 * String.length rest
              + (if Str.empty (Tokenizer.tmp_token st') then 0 else 1)
              < 2 * String.length input
                + (if Str.empty (Tokenizer.tmp_token st) then 0 else 1))%nat).
Proof.
  unfold Tokenizer.call.
  destruct (Str.empty (Tokenizer.tmp_token st)) eqn:E; cbn [negb].
  - destruct (token_loop_answers (S (String.length input)) input st tok
                false false) as (r & -> & H); [lia |].
    exists r; split; [reflexivity |].
    intros v t st' rest ->. destruct (H v t st' rest eq_refl) as [H1 H2].
    split; [exact H1 |]. intros Hv. specialize (H2 Hv).
    destruct (Str.empty (Tokenizer.tmp_token st')); lia.
  - eexists; split; [reflexivity |].
    intros v t st' rest [= <- <- <- <-]. split; [lia |]. intros _.
    cbn. lia.
Qed.

Lemma iter_next_progress it :
  exists r, iter_next it = Some r
    /\ forall next, r = Ok next -> valid next = true ->
                    (pending next < pending it)%nat.
Proof.
  unfold iter_next.
  destruct (call_progress (f_ it) (begin_ it) (tok_ it)) as (r & -> & H).
  destruct r as [[[[v t] st'] rest] | e]; cbn [mbind ret].
  - eexists; split; [reflexivity |].
    intros next [= <-] V. cbn in V. subst v.
    destruct (H true t st' rest eq_refl) as [_ P]. exact (P eq_refl).
  - eexists; split; [reflexivity |]. discriminate.
Qed.

Lemma drain_total fuel :
  forall it, (pending it < fuel)%nat -> exists r, drain fuel it = Some r.
Proof.
  induction fuel as [| fuel IH]; intros it L; [lia |].
  cbn [drain]. destruct (valid it); cbn [negb]; [| eexists; reflexivity].
  destruct (iter_next_progress it) as (r & -> & P).
  destruct r as [next | e]; cbn [mbind]; [| eexists; reflexivity].
  destruct (valid next) eqn:V.
  - destruct (IH next) as (r & ->); [specialize (P next eq_refl V); lia |].
    destruct r; eexists; reflexivity.
  - destruct fuel; cbn [drain]; rewrite V; cbn; eexists; reflexivity.
Qed.

(** The tokenizer is total: on every input it delivers the tokens or
    throws. *)
Lemma tokenize_total input : exists r, tokenize input = Some r.
Proof.
  unfold tokenize, iter_begin. destruct input as [| x next].
  - cbn. eexists; reflexivity.
  - destruct (call_progress Tokenizer.reset (String x next) (token_at "" 0 0))
      as (r & -> & H).
    destruct r as [[[[v t] st'] rest] | e]; cbn [mbind ret];
      [| eexists; reflexivity].
    destruct (H v t st' rest eq_refl) as [L _].
    apply drain_total. unfold pending. cbn [begin_ f_].
    destruct (Str.empty (Tokenizer.tmp_token st')); lia.
Qed.

(** ** The tokenizer and block comments *)

Lemma get_keeps_is_string st c :
  Tokenizer.is_string (Tokenizer.get st c) = Tokenizer.is_string st.
Proof. unfold Tokenizer.get. destruct (Tokenizer.new_line st); reflexivity. Qed.

(** Inside a block comment that is never closed, [skip_comment] reads to
    the end of the input and returns the character 0. *)
Lemma skip_comment_unterminated body :
  forall st simple escape,
    Tokenizer.is_string st = false ->
    closes_comment body = false ->
    (escape = true -> Ascii.eqb (Str.front body) "/" = false) ->
    exists st',
      Tokenizer.skip_comment_loop st simple true escape body
      = Ok (Ascii.zero, st', EmptyString).
Proof.
  induction body as [| c next IH]; intros st simple escape Hs Hc He.
  - exists st. reflexivity.
  - cbn [Tokenizer.skip_comment_loop].
    rewrite get_keeps_is_string, Hs.
    cbn [closes_comment Str.front] in Hc, He.
    apply orb_false_iff in Hc as [Hstar Hrest].
    assert (E : Ascii.eqb c "/" && escape = false).
    { destruct escape; [rewrite He by reflexivity |];
        auto using andb_false_r. }
    rewrite E.
    destruct (Ascii.eqb c "*") eqn:S.
    + simpl in Hstar.
      apply IH;
        [now rewrite get_keeps_is_string | exact Hrest | intros _; exact Hstar].
    + apply IH;
        [now rewrite get_keeps_is_string | exact Hrest | discriminate].
Qed.

(** C8: when the input opens a block comment that is never closed, the
    tokenizer reports the end of the token stream and raises no error. *)
Theorem C8_unterminated_comment_is_silent :
  forall body : string,
    closes_comment body = false ->
    tokenize ("/*" ++ body) = Some (Ok []).
Proof.
  intros body H.
  unfold tokenize, iter_begin.
  cbn [append].
  unfold Tokenizer.call.
  cbn [Tokenizer.tmp_token Tokenizer.reset Str.empty negb].
  cbn [Tokenizer.token_loop String.length].
  unfold Tokenizer.skip_comment.
  cbn [Tokenizer.skip_comment_loop].
  destruct (skip_comment_unterminated body
              (Tokenizer.get (Tokenizer.get Tokenizer.reset "/") "*")
              false false) as [st' E]; auto; try discriminate.
  cbn. cbn in E. rewrite E. reflexivity.
Qed.

(** A run of [C8_unterminated_comment_is_silent]. *)
Lemma C8_unterminated_comment_witness :
  tokenize "/* never closed" = Some (Ok []).
Proof.
  refine (C8_unterminated_comment_is_silent " never closed" _).
  reflexivity.
Defined.

(** The same on a document with settings before the comment: the tokens
    before it are delivered and the stream then ends. *)
Example tokens_before_unterminated_comment :
  option_map (fun r => match r with
                       | Ok l => Ok (map text l)
                       | Throw e => Throw e
                       end)
    (tokenize ("a = 1; /* never closed" ++ nl ++ "b = 2;" ++ nl))
  = Some (Ok ["a"; "="; "1"; ";"]).
Proof. reflexivity. Qed.

(** The sibling case that the tokenizer does diagnose: a slash that is the
    last character of the input. *)
Example lone_slash_at_end_is_diagnosed :
  tokenize "/" = Some (Throw (ParseException "" "" 1 2)).
Proof. reflexivity. Qed.

(** ** Coordinates of syntax errors *)

(** C9: [_syntax_exception] reports the offset of the token whether or
    not the end-of-token flag is set; the two unexpected-end-of-file
    errors of [_get_setting] therefore carry the start column of their
    token, not the start column plus the length. *)
Theorem C9_end_of_file_column_is_token_start :
  forall (io : FloatText) (fuel : nat) (identifier : token)
         (l o : nat) (f : option string),
    (forall msg tok flag,
        _syntax_exception msg tok flag
        = ParseException "" (file_name tok) (line tok) (offset tok))
    /\ _get_setting (S fuel) identifier []
       = Some (Throw (ParseException "" (file_name identifier)
                        (line identifier) (offset identifier)))
    /\ _get_setting (S fuel) identifier [mk_token "=" l o f]
       = Some (Throw (ParseException "" (file_name (mk_token "=" l o f)) l o))
    /\ parse_text (nl ++ "abc" ++ nl)
       = Some (Throw (ParseException "" "/doc.cfg" 2 1)).
Proof.
  intros io fuel identifier l o f.
  split; [reflexivity |]. split; [reflexivity |]. split; reflexivity.
Qed.

(** The counter [offset] starts at 1 and is incremented before the first
    character is delivered: on the first line of a file a token in column 1
    is recorded at offset 2, on every later line at offset 1. *)
Example offsets_on_first_and_second_line :
  option_map (fun r => match r with
                       | Ok l => Ok (map (fun t => (text t, line t, offset t)) l)
                       | Throw e => Throw e
                       end)
    (tokenize ("a" ++ nl ++ "b" ++ nl))
  = Some (Ok [("a", 1%nat, 2%nat); ("b", 2%nat, 1%nat)]).
Proof. reflexivity. Qed.

(** ** Boolean literals *)

Lemma lower_is_t c : Rx.lower c = "t"%char -> c = "t"%char \/ c = "T"%char.
Proof.
  destruct c as [[] [] [] [] [] [] [] []]; vm_compute; intro H;
    try discriminate; auto.
Qed.

Lemma lower_is_f c : Rx.lower c = "f"%char -> c = "f"%char \/ c = "F"%char.
Proof.
  destruct c as [[] [] [] [] [] [] [] []]; vm_compute; intro H;
    try discriminate; auto.
Qed.

(** A token that matches [rx_boolean] starts with one of [t T f F]. *)
Lemma rx_boolean_head s :
  Rx.rx_boolean s = true ->
  exists c r, s = String c r
              /\ (c = "t" \/ c = "T" \/ c = "f" \/ c = "F")%char.
Proof.
  unfold Rx.rx_boolean. intros H.
  destruct s as [| c r]; [discriminate |]. exists c, r. split; [reflexivity |].
  apply orb_true_iff in H as [H | H]; apply String.eqb_eq in H;
    simpl in H; injection H as Hc _.
  - destruct (lower_is_t c Hc); auto.
  - destruct (lower_is_f c Hc); auto.
Qed.

(** Reading a [bool] from such a token stores [false]. *)
Lemma to_bool_of_boolean_literal s :
  Rx.rx_boolean s = true -> Extract.to_bool s = false.
Proof.
  intros H. destruct (rx_boolean_head s H) as (c & r & -> & Hc).
  destruct Hc as [-> | [-> | [-> | ->]]]; reflexivity.
Qed.

(** C3: every token that spells [true] or [false] in any mix of cases
    becomes a setting of type Boolean, and the value stored is [false] in
    each case, also for [true]. *)
Theorem C3_boolean_literal_reads_false :
  forall (io : FloatText) (name value : token),
    Rx.rx_boolean (text value) = true ->
    _get_scalar_item name value
    = Ok (Setting (text name) TypeBoolean
            (BScalar (ScalarBool false) FormatDefault)).
Proof.
  intros io name value H.
  unfold _get_scalar_item.
  assert (T : _get_scalar_type (text value) = TypeBoolean).
  { unfold _get_scalar_type. rewrite H.
    destruct (rx_boolean_head _ H) as (c & r & -> & Hc).
    destruct Hc as [-> | [-> | [-> | ->]]]; reflexivity. }
  rewrite T, (to_bool_of_boolean_literal _ H). reflexivity.
Qed.

(** A run of [C3_boolean_literal_reads_false] on the token [TRUE]. *)
Lemma C3_boolean_literal_witness :
  @_get_scalar_item StdFloat.float_text (token_at "name" 1 2)
    (token_at "TRUE" 1 9)
  = Ok (Setting "name" TypeBoolean (BScalar (ScalarBool false) FormatDefault)).
Proof.
  refine (C3_boolean_literal_reads_false StdFloat.float_text
            (token_at "name" 1 2) (token_at "TRUE" 1 9) _).
  reflexivity.
Defined.

(** The whole reader on the documents [name = true;] and
    [name = false;]. *)
Example name_true_reads_false :
  forall io : FloatText,
    parse_text ("name = true;" ++ nl)
    = Some (Ok (Setting "" TypeGroup
                  (BContainer
                     [("name", Setting "name" TypeBoolean
                                 (BScalar (ScalarBool false) FormatDefault))])))
    /\ parse_text ("name = false;" ++ nl)
       = parse_text ("name = true;" ++ nl).
Proof. intros io. split; reflexivity. Qed.

(** ** The printer and what the reader makes of its output *)

(** C4: a String setting is printed as its value between two double
    quotes, character for character; no backslash is added before a
    backslash, a double quote, a tab or a newline. *)
Theorem C4_string_printed_verbatim :
  forall (io : FloatText) (name v : string) (f : Format)
         (has_parent : bool) (level : nat),
    print has_parent level (Setting name TypeString (BScalar (ScalarString v) f))
    = (if negb (Str.empty name) then name ++ " = " else "")
      ++ dquote ++ v ++ dquote
    /\ print_scalar
         (ScalarString ("a" ++ dquote ++ "b\" ++ String Tokenizer.tab "c" ++ nl))
         FormatDefault
       = dquote ++ "a" ++ dquote ++ "b\" ++ String Tokenizer.tab "c" ++ nl
         ++ dquote.
Proof. intros. split; reflexivity. Qed.

(** C1: the tree read from [RoundTrip.source], whose string holds a
    double quote, is printed with that quote unescaped, and the printed
    text reads back as a different tree; the empty document is printed as
    two braces, which the reader rejects. *)
Theorem C1_round_trip_fails :
  forall io : FloatText,
    parse_text RoundTrip.source = Some (Ok RoundTrip.tree)
    /\ print_root RoundTrip.tree
       = "s = " ++ dquote ++ "a" ++ dquote ++ "b" ++ dquote ++ ";" ++ nl
    /\ parse_text (print_root RoundTrip.tree) = Some (Ok RoundTrip.reread)
    /\ setting_eqb RoundTrip.tree RoundTrip.reread = false
    /\ parse_text "" = Some (Ok RoundTrip.empty_root)
    /\ print_root RoundTrip.empty_root = "{}"
    /\ parse_text (print_root RoundTrip.empty_root)
       = Some (Throw (ParseException "" "/doc.cfg" 1 2)).
Proof. intros io. repeat split; reflexivity. Qed.

(** Two more documents that do not survive: a Boolean is printed as a
    digit and a Float without a fraction as an integer; both read back as
    Int. *)
Example booleans_and_whole_floats_change_type :
  let io := StdFloat.float_text in
  option_map (fun r => match r with Ok t => Ok (print_root t) | Throw e => Throw e end)
    (parse_text ("b = false;" ++ nl ++ "x = 3.0;" ++ nl))
  = Some (Ok ("b = 0;" ++ nl ++ "x = 3;" ++ nl))
  /\ parse_text ("b = 0;" ++ nl ++ "x = 3;" ++ nl)
     = Some (Ok (Setting "" TypeGroup
                   (BContainer
                      [("b", Setting "b" TypeInt (BScalar (ScalarInt 0) FormatDefault));
                       ("x", Setting "x" TypeInt (BScalar (ScalarInt 3) FormatDefault))]))).
Proof. split; vm_compute; reflexivity. Qed.

(** A document that does survive: scenario S1 of the specification. *)
Example scenario_S1_round_trips :
  let io := StdFloat.float_text in
  let source :=
    "int = 1;" ++ nl ++ "double = 2.34;" ++ nl
    ++ "string = " ++ dquote ++ "string" ++ dquote ++ ";" ++ nl in
  match parse_text source with
  | Some (Ok t) =>
      parse_text (print_root t) = Some (Ok t)
      /\ convert_to ToInt (match _at t "int" with Ok x => x | _ => t end) = Ok 1
  | _ => False
  end.
Proof. vm_compute. split; reflexivity. Qed.

(** ** Include expansion *)

(** [SelfInclude.disk] is such a world. *)
Lemma disk_includes_itself : SelfInclude.includes_itself SelfInclude.disk.
Proof.
  repeat split. exists (fun name => String.eqb "^a.cfg$" ("^" ++ name ++ "$")).
  split; reflexivity.
Qed.

(** The include directive of [SelfInclude.content] names the file
    itself. *)
Lemma self_include_files w :
  SelfInclude.includes_itself w ->
  include_files w "/d" (dquote ++ "a.cfg" ++ dquote) = Ok ["/d/a.cfg"].
Proof.
  intros (_ & Hd & Hr & Ha & pattern & Hp & Hm).
  unfold include_files. cbn.
  rewrite Hp, Hd. cbn. rewrite Hr, Hm. cbn. rewrite Ha. reflexivity.
Qed.

(** One round of the loop of [parser::parse] on a valid iterator. *)
Lemma parse_loop_step include m_file n it is_include tokens :
  valid it = true ->
  parse_loop include m_file (S n) it is_include tokens
  = run next <- iter_next it;
    let tok := set_file (tok_ it) m_file in
    if is_include then
      run _tokens <- include (text tok);
      parse_loop include m_file n next false (tokens ++ _tokens)%list
    else if is_tok tok "@include" then
      parse_loop include m_file n next true tokens
    else parse_loop include m_file n next false (tokens ++ [tok])%list.
Proof. intros H. cbn [parse_loop]. rewrite H. reflexivity. Qed.

Lemma self_tokens :
  iter_begin SelfInclude.content = ret self_first
  /\ iter_next self_first = ret self_second
  /\ iter_next self_second = ret self_last.
Proof. repeat split; vm_compute; reflexivity. Qed.

(** One level of the recursion: the parser of [/d/a.cfg] constructs a
    parser of [/d/a.cfg], one level deeper, and waits for its tokens. *)
Lemma self_include_step w depth level :
  SelfInclude.includes_itself w ->
  parser_parse (S depth) w "/d" "/d/a.cfg" level
  = in_file "/d/a.cfg"
      (run _tokens <- parser_parse depth w "/d" "/d/a.cfg" (level + 1);
       ret (_tokens ++ [])%list).
Proof.
  intros H. pose proof (self_include_files w H) as F.
  destruct H as (Ho & _).
  destruct self_tokens as (T0 & T1 & T2).
  cbn [parser_parse]. rewrite Ho, T0. cbn [mbind ret].
  f_equal.
  change (2 * String.length SelfInclude.content + 2)%nat with (S (S 34)).
  rewrite parse_loop_step by reflexivity.
  rewrite T1. cbn [mbind ret].
  change (is_tok (set_file (tok_ self_first) "/d/a.cfg") "@include") with true.
  cbv iota.
  rewrite parse_loop_step by reflexivity.
  rewrite T2. cbn [mbind ret].
  change (text (set_file (tok_ self_second) "/d/a.cfg"))
    with (dquote ++ "a.cfg" ++ dquote).
  rewrite F. cbn [lift mbind parse_files].
  destruct (parser_parse depth w "/d" "/d/a.cfg" (level + 1)) as [[t | e] |];
    cbn [mbind ret]; reflexivity.
Qed.

(** C5: a file that includes itself makes [parser::parse] recurse without
    end: whatever nesting depth the model is allowed to follow, the call
    has neither returned nor thrown; in particular no FileIO error is
    raised. *)
Theorem C5_self_include_never_returns :
  forall (w : world) (depth level : nat),
    SelfInclude.includes_itself w ->
    parser_parse depth w "/d" "/d/a.cfg" level = None.
Proof.
  intros w depth. induction depth as [| depth IH]; intros level H.
  - reflexivity.
  - rewrite (self_include_step w depth level H), (IH (level + 1)%nat H).
    reflexivity.
Qed.

(** A run of [C5_self_include_never_returns] on [SelfInclude.disk]. *)
Lemma C5_self_include_witness :
  parser_parse 1000 SelfInclude.disk "/d" "/d/a.cfg" 0 = None.
Proof.
  exact (C5_self_include_never_returns SelfInclude.disk 1000 0
           disk_includes_itself).
Defined.

(** An include that is not circular is expanded in place: scenario S6 of
    the specification. *)
Example scenario_S6_include_flattening :
  let io := StdFloat.float_text in
  let w :=
    mk_world
      (fun p =>
         if String.eqb p "/d/a.cfg"
         then Some ("@include " ++ dquote ++ "b.cfg" ++ dquote ++ nl
                    ++ "v = 2;" ++ nl)
         else if String.eqb p "/d/b.cfg" then Some ("u = 1;" ++ nl)
         else None)
      (fun d => if String.eqb d "/d" then Some ["a.cfg"; "b.cfg"] else None)
      (fun _ => true) (fun p => p)
      (fun pattern => Some (fun name => String.eqb pattern ("^" ++ name ++ "$"))) in
  option_map (fun r => match r with Ok t => Ok (print_root t) | Throw e => Throw e end)
    (_read_file 2 w "a.cfg" "/d")
  = Some (Ok ("u = 1;" ++ nl ++ "v = 2;" ++ nl)).
Proof. vm_compute. reflexivity. Qed.

(** ** The scenarios of the specification *)

(** Scenario S2: nested groups and a dotted path. *)
Example scenario_S2_nested_groups :
  let io := StdFloat.float_text in
  match parse_text ("g = { a = 1; b = { c = 2; }; };" ++ nl) with
  | Some (Ok root) =>
      (do c <- subscript root "g.b.c"; convert_to ToInt c) = Ok 2%Z
      /\ (do g <- subscript root "g"; Ok (Body.size (value_of g))) = Ok 2%N
      /\ exists_ root "g.b.c" = Ok true
      /\ raises_SettingNotFound (subscript root "g.x.c") = true
  | _ => False
  end.
Proof. vm_compute. repeat split; reflexivity. Qed.

(** Scenario S3: an array and a list. *)
Example scenario_S3_array_and_list :
  let io := StdFloat.float_text in
  match parse_text ("arr = [1, 2, 3]; list = (1, " ++ dquote ++ "two" ++ dquote
                    ++ ", 3.0);" ++ nl) with
  | Some (Ok root) =>
      (do a <- subscript root "arr"; Ok (getType a, types_of a))
      = Ok (TypeArray, [TypeInt; TypeInt; TypeInt])
      /\ (do x <- subscript root "arr.[0]"; convert_to ToInt x) = Ok 1%Z
      /\ (do l <- subscript root "list"; Ok (getType l, types_of l))
         = Ok (TypeList, [TypeInt; TypeString; TypeFloat])
  | _ => False
  end.
Proof. vm_compute. repeat split; reflexivity. Qed.

(** Scenario S4: hexadecimal literals keep their format. *)
Example scenario_S4_hexadecimal :
  let io := StdFloat.float_text in
  option_map (fun r => match r with Ok t => Ok (print_root t) | Throw e => Throw e end)
    (parse_text ("x = 0xFF; y = 0xFFL;" ++ nl))
  = Some (Ok ("x = 0xff;" ++ nl ++ "y = 0xffL;" ++ nl)).
Proof. vm_compute. reflexivity. Qed.

(** Scenario S5: an array of mixed types is refused. *)
Example scenario_S5_mixed_array :
  let io := StdFloat.float_text in
  match parse_text ("bad = [1, " ++ dquote ++ "two" ++ dquote ++ "];" ++ nl) with
  | Some r => raises_SettingType r = true
  | None => False
  end.
Proof. vm_compute. reflexivity. Qed.

(** * Further properties of the header *)

(** ** Decimal text *)

Lemma parse_dec_acc_numeral (d : Decimal.uint) :
  forall acc, parse_dec_acc acc (DecimalString.NilEmpty.string_of_uint d) = uint_value acc d.
Proof.
  induction d; intros acc; cbn [DecimalString.NilEmpty.string_of_uint parse_dec_acc uint_value];
    try reflexivity; rewrite IHd; f_equal;
    match goal with |- context [Str.digit_value ?c] =>
      let v := eval vm_compute in (Str.digit_value c) in
      change (Str.digit_value c) with v end; lia.
Qed.

Lemma of_uint_acc_value d :
  forall acc, Z.pos (Pos.of_uint_acc d acc) = uint_value (Z.pos acc) d.
Proof.
  induction d; intros acc; cbn [Pos.of_uint_acc uint_value];
    try reflexivity; rewrite IHd; f_equal; lia.
Qed.

Lemma of_uint_value d : Z.of_N (Pos.of_uint d) = uint_value 0 d.
Proof.
  induction d; cbn [Pos.of_uint uint_value]; try reflexivity;
    try (exact IHd);
    cbn [Z.of_N]; rewrite of_uint_acc_value; reflexivity.
Qed.

(** Reading the decimal digits of a positive number gives the number. *)
Lemma parse_dec_acc_to_uint p :
  parse_dec_acc 0 (DecimalString.NilEmpty.string_of_uint (Pos.to_uint p)) = Z.pos p.
Proof.
  rewrite parse_dec_acc_numeral, <- of_uint_value, DecimalPos.Unsigned.of_to.
  reflexivity.
Qed.

Lemma numeral_all_digits (d : Decimal.uint) rest :
  Str.is_digit (Str.front rest) = false ->
  Str.span Str.is_digit (DecimalString.NilEmpty.string_of_uint d ++ rest)
  = (DecimalString.NilEmpty.string_of_uint d, rest).
Proof.
  intros H. induction d; cbn [DecimalString.NilEmpty.string_of_uint append Str.span];
    try (change (Str.is_digit _) with true; cbv iota; rewrite IHd; reflexivity).
  destruct rest as [| c r]; [reflexivity |].
  cbn [Str.span]. cbn [Str.front] in H. rewrite H. reflexivity.
Qed.

Lemma unorm_leading_zero (d d' : Decimal.uint) :
  Decimal.unorm d = Decimal.D0 d' -> d' = Decimal.Nil.
Proof.
  induction d; cbn [Decimal.unorm]; intros H; try discriminate; auto.
  injection H as <-. reflexivity.
Qed.

(** The numeral of a positive number starts with a digit from 1 to 9. *)
Lemma to_uint_leading p (d' : Decimal.uint) :
  Pos.to_uint p <> Decimal.D0 d'.
Proof.
  intros H.
  assert (N : Decimal.unorm (Pos.to_uint p) = Pos.to_uint p).
  { rewrite <- DecimalPos.Unsigned.to_of, DecimalPos.Unsigned.of_to.
    reflexivity. }
  rewrite H in N. pose proof (unorm_leading_zero _ _ N) as E. subst d'.
  exact (DecimalPos.Unsigned.to_uint_nonzero p H).
Qed.

Ltac first_digit p d' E :=
  destruct (Pos.to_uint p) as [| d' | d' | d' | d' | d' | d' | d' | d' | d' | d']
    eqn:E;
  [ exact (False_ind _ (DecimalPos.Unsigned.to_uint_nonnil p E))
  | exact (False_ind _ (to_uint_leading p d' E))
  | .. ].

(** [show_dec] of a positive number, and what reading it back gives, with
    any text after it that does not start with a digit. *)
Lemma span_show_dec_pos p rest :
  Str.is_digit (Str.front rest) = false ->
  Str.span Str.is_digit (show_dec (Z.pos p) ++ rest)
  = (show_dec (Z.pos p), rest)
  /\ parse_dec_acc 0 (show_dec (Z.pos p)) = Z.pos p
  /\ Str.empty (show_dec (Z.pos p)) = false.
Proof.
  intros H. unfold show_dec. cbn [Z.to_int DecimalString.NilZero.string_of_int].
  pose proof (parse_dec_acc_to_uint p) as P.
  pose proof (numeral_all_digits (Pos.to_uint p) rest H) as S.
  unfold DecimalString.NilZero.string_of_uint.
  first_digit p d' E; auto.
Qed.

(** ** Reading back a printed integer *)

Ltac each_char c :=
  destruct c as [[] [] [] [] [] [] [] []]; vm_compute; intros;
  try discriminate; try reflexivity.

Lemma digit_no_sign c r :
  Str.is_digit c = true -> Rx.strip_sign (String c r) = String c r.
Proof. revert r. each_char c. Qed.

Lemma digit_no_space c r :
  Str.is_digit c = true -> Extract.skipws (String c r) = String c r.
Proof.
  intros H. cbn [Extract.skipws].
  replace (Str.isspace c) with false; [reflexivity |].
  revert H. each_char c.
Qed.

Lemma digit_no_minus c r :
  Str.is_digit c = true ->
  match String c r with String "-"%char _ => true | _ => false end = false.
Proof. revert r. each_char c. Qed.

Lemma digit_no_quote c :
  Str.is_digit c = true -> Ascii.eqb c Tokenizer.quote = false.
Proof. each_char c. Qed.

Lemma digit_no_letter c :
  Str.is_digit c = true ->
  Ascii.eqb (Rx.lower c) "t" = false /\ Ascii.eqb (Rx.lower c) "f" = false.
Proof. each_char c; split; reflexivity. Qed.

Lemma nonzero_head_no_hex c r :
  Ascii.eqb c "0" = false -> Rx.hex_body (String c r) = None.
Proof. revert r. each_char c. Qed.

Lemma digit_not_boolean c r :
  Str.is_digit c = true -> Rx.rx_boolean (String c r) = false.
Proof.
  intros H. destruct (digit_no_letter c H) as [T F].
  unfold Rx.rx_boolean. cbn [Rx.lower_string String.eqb]. rewrite T, F.
  reflexivity.
Qed.

(** The text of a positive number starts with a digit other than 0. *)
Lemma show_dec_pos_head p :
  exists c r, show_dec (Z.pos p) = String c r
              /\ Str.is_digit c = true /\ Ascii.eqb c "0" = false.
Proof.
  unfold show_dec. cbn [Z.to_int DecimalString.NilZero.string_of_int].
  unfold DecimalString.NilZero.string_of_uint.
  first_digit p d' E; cbn [DecimalString.NilEmpty.string_of_uint];
    eexists; eexists; repeat split; reflexivity.
Qed.

Lemma show_dec_neg p : show_dec (Z.neg p) = String "-" (show_dec (Z.pos p)).
Proof. reflexivity. Qed.

(** [iss >> v] on the text of [v], followed by anything that is no
    digit, reads [v]. *)
Lemma integer_show_dec v rest :
  Str.is_digit (Str.front rest) = false ->
  Extract.integer false (show_dec v ++ rest) = Some v.
Proof.
  intros H. destruct v as [| p | p].
  - destruct rest as [| c r]; [reflexivity |].
    cbn [Str.front] in H. unfold Extract.integer.
    change (show_dec 0 ++ String c r) with (String "0" (String c r)).
    rewrite digit_no_space by reflexivity.
    rewrite digit_no_sign by reflexivity.
    cbn [Str.span]. change (Str.is_digit "0") with true. cbv iota.
    rewrite H. reflexivity.
  - destruct (span_show_dec_pos p rest H) as (S & P & _).
    destruct (show_dec_pos_head p) as (c & r & E & D & _).
    unfold Extract.integer. rewrite E in *. cbn [append] in *.
    rewrite digit_no_space by exact D.
    rewrite (digit_no_minus c "" D).
    rewrite digit_no_sign by exact D.
    rewrite S, P. reflexivity.
  - destruct (span_show_dec_pos p rest H) as (S & P & Ne).
    rewrite show_dec_neg. unfold Extract.integer.
    cbn [append Extract.skipws Rx.strip_sign].
    change (Str.isspace "-") with false. cbv iota.
    cbn [Rx.strip_sign]. rewrite S, P, Ne. reflexivity.
Qed.

(** The literal class of the text of a number: [rx_int] without a
    suffix, [rx_int64] with the suffix [L], and never a string, a Boolean
    or a hexadecimal literal. *)
Lemma scalar_type_show_dec v :
  _get_scalar_type (show_dec v) = TypeInt
  /\ Rx.rx_hex (show_dec v) = false
  /\ _get_scalar_type (show_dec v ++ "L") = TypeInt64
  /\ Rx.rx_hex64 (show_dec v ++ "L") = false.
Proof.
  destruct v as [| p | p].
  - repeat split; reflexivity.
  - destruct (span_show_dec_pos p "" eq_refl) as (S0 & _ & Ne).
    destruct (span_show_dec_pos p "L" eq_refl) as (SL & _ & _).
    destruct (show_dec_pos_head p) as (c & r & E & D & Z).
    unfold _get_scalar_type, Rx.rx_int, Rx.rx_int64, Rx.rx_hex, Rx.rx_hex64.
    rewrite E in *. cbn [append Str.front] in *.
    rewrite !(digit_no_quote c D).
    rewrite !digit_not_boolean by exact D.
    rewrite !digit_no_sign by exact D.
    rewrite !nonzero_head_no_hex by exact Z.
    rewrite SL.
    replace (String c r) with (String c (r ++ "")) at 1 2
      by (f_equal; clear; induction r; cbn; congruence).
    rewrite S0. cbn. repeat split; reflexivity.
  - destruct (span_show_dec_pos p "" eq_refl) as (S0 & _ & Ne).
    destruct (span_show_dec_pos p "L" eq_refl) as (SL & _ & _).
    rewrite show_dec_neg. set (sp := show_dec (Z.pos p)) in *. clearbody sp.
    unfold _get_scalar_type, Rx.rx_int, Rx.rx_int64, Rx.rx_hex, Rx.rx_hex64.
    cbn [append Str.front Rx.strip_sign Rx.hex_body].
    change (Ascii.eqb "-" Tokenizer.quote) with false.
    assert (B : forall x, Rx.rx_boolean (String "-" x) = false) by reflexivity.
    rewrite ?B, SL.
    replace sp with (sp ++ "") at 1
      by (clear; induction sp; cbn; congruence).
    rewrite S0. cbn. rewrite Ne. repeat split; reflexivity.
Qed.

Lemma clamp_in_range lo hi v : lo <= v <= hi -> Extract.clamp lo hi v = v.
Proof.
  intros H. unfold Extract.clamp.
  destruct (Z.ltb_spec v lo); [lia |]. destruct (Z.ltb_spec hi v); [lia |].
  reflexivity.
Qed.

(** X12: An Int or Int64 scalar within the range of its type, printed in
    decimal and read by the reader, gives a setting of the same type
    with the same value. *)
Theorem decimal_integer_read_back :
  forall (io : FloatText) (name value : token) (s : scalar),
    integer_scalar s = true ->
    scalar_wf s ->
    text value = print_scalar s FormatDefault ->
    _get_scalar_item name value
    = Ok (Setting (text name) (_deduce_scalar_type s) (BScalar s FormatDefault)).
Proof.
  intros io name value s I W E.
  destruct s as [b | v | v | x | x]; try discriminate; cbn in W;
    destruct (scalar_type_show_dec v) as (T1 & H1 & T2 & H2);
    unfold _get_scalar_item; rewrite E; cbn [print_scalar _deduce_scalar_type
      Type_eqb orb andb append].
  - rewrite T1, H1. unfold Extract.to_int.
    replace (show_dec v) with (show_dec v ++ "") at 1
      by (clear; induction (show_dec v); cbn; congruence).
    rewrite integer_show_dec by reflexivity.
    rewrite clamp_in_range by exact W. reflexivity.
  - rewrite T2, H2. unfold Extract.to_long.
    rewrite integer_show_dec by reflexivity.
    rewrite clamp_in_range by exact W. reflexivity.
Qed.

Lemma decimal_integer_read_back_witness :
  @_get_scalar_item StdFloat.float_text (token_at "n" 1 1)
    (token_at (@print_scalar StdFloat.float_text (ScalarInt64 (-42)) FormatDefault) 1 5)
  = Ok (Setting "n" TypeInt64 (BScalar (ScalarInt64 (-42)) FormatDefault)).
Proof.
  refine (decimal_integer_read_back StdFloat.float_text (token_at "n" 1 1)
            (token_at _ 1 5) (ScalarInt64 (-42)) eq_refl _ eq_refl).
  unfold scalar_wf, Limits.long_min, Limits.long_max. lia.
Defined.


(** ** The order of [std::string] and the map of a group *)

Lemma nat_of_ascii_inj x y : nat_of_ascii x = nat_of_ascii y -> x = y.
Proof.
  intros H. rewrite <- (ascii_nat_embedding x), <- (ascii_nat_embedding y).
  now rewrite H.
Qed.

Lemma ltb_irrefl a : Str.ltb a a = false.
Proof.
  induction a as [| x r IH]; [reflexivity |]. cbn [Str.ltb].
  rewrite Nat.ltb_irrefl. exact IH.
Qed.

Lemma ltb_trans a :
  forall b c, Str.ltb a b = true -> Str.ltb b c = true -> Str.ltb a c = true.
Proof.
  induction a as [| x r IH]; intros [| y s] [| z t]; cbn [Str.ltb];
    try discriminate; auto.
  destruct (Nat.ltb_spec (nat_of_ascii x) (nat_of_ascii y)),
    (Nat.ltb_spec (nat_of_ascii y) (nat_of_ascii x)),
    (Nat.ltb_spec (nat_of_ascii y) (nat_of_ascii z)),
    (Nat.ltb_spec (nat_of_ascii z) (nat_of_ascii y)),
    (Nat.ltb_spec (nat_of_ascii x) (nat_of_ascii z)),
    (Nat.ltb_spec (nat_of_ascii z) (nat_of_ascii x));
    try discriminate; try lia; auto.
  apply IH.
Qed.

Lemma ltb_total a :
  forall b, Str.ltb a b = false -> String.eqb a b = false ->
            Str.ltb b a = true.
Proof.
  induction a as [| x r IH]; intros [| y s]; cbn [Str.ltb String.eqb];
    try discriminate; auto.
  destruct (Nat.ltb_spec (nat_of_ascii x) (nat_of_ascii y)),
    (Nat.ltb_spec (nat_of_ascii y) (nat_of_ascii x));
    try discriminate; try lia; auto.
  assert (E : x = y) by (apply nat_of_ascii_inj; lia). subst y.
  rewrite Ascii.eqb_refl. apply IH.
Qed.

Lemma ltb_not_eqb a b : Str.ltb a b = true -> String.eqb a b = false.
Proof.
  intros H. destruct (String.eqb_spec a b) as [-> |]; [| reflexivity].
  rewrite ltb_irrefl in H. discriminate.
Qed.

Section MapFacts.

Context {V : Type}.
Implicit Types (m : list (string * V)) (k : string) (v : V).

Lemma count_at k m : Map.count k m = true <-> Map.at_ k m <> None.
Proof.
  induction m as [| [k' v'] r IH]; cbn [Map.count Map.at_].
  - split; [discriminate | congruence].
  - destruct (String.eqb k' k); cbn [orb]; [split; [discriminate | auto] |].
    exact IH.
Qed.

Lemma above_all_absent k m :
  Forall (fun kv => Str.ltb k (fst kv) = true) m -> Map.count k m = false.
Proof.
  induction 1 as [| [k' v'] r H _ IH]; [reflexivity |].
  cbn [Map.count]. cbn [fst] in H.
  rewrite String.eqb_sym, (ltb_not_eqb _ _ H). exact IH.
Qed.

Lemma insert_at_same k v m :
  Map.count k m = false -> Map.at_ k (Map.insert k v m) = Some v.
Proof.
  induction m as [| [k' v'] r IH]; cbn [Map.count Map.insert Map.at_].
  - now rewrite String.eqb_refl.
  - destruct (String.eqb k' k) eqn:E; [discriminate |]. cbn [orb]. intros H.
    destruct (Str.ltb k k'); cbn [Map.at_].
    + now rewrite String.eqb_refl.
    + rewrite E. auto.
Qed.

Lemma insert_at_other k v m k2 :
  String.eqb k k2 = false ->
  Map.at_ k2 (Map.insert k v m) = Map.at_ k2 m.
Proof.
  intros N. induction m as [| [k' v'] r IH]; cbn [Map.insert Map.at_].
  - now rewrite N.
  - destruct (String.eqb k' k) eqn:E; [reflexivity |].
    destruct (Str.ltb k k'); cbn [Map.at_].
    + now rewrite N.
    + now rewrite IH.
Qed.

Lemma insert_length k v m :
  Map.count k m = false ->
  List.length (Map.insert k v m) = S (List.length m).
Proof.
  induction m as [| [k' v'] r IH]; cbn [Map.count Map.insert]; [reflexivity |].
  destruct (String.eqb k' k); [discriminate |]. cbn [orb]. intros H.
  destruct (Str.ltb k k'); cbn [List.length]; auto.
Qed.

Lemma insert_Forall (P : string * V -> Prop) k v m :
  P (k, v) -> Forall P m -> Forall P (Map.insert k v m).
Proof.
  intros Hk. induction 1 as [| [k' v'] r H R IH]; cbn [Map.insert].
  - constructor; auto.
  - destruct (String.eqb k' k); [constructor; auto |].
    destruct (Str.ltb k k'); repeat constructor; auto.
Qed.

Lemma insert_ascending k v m :
  keys_ascending m -> keys_ascending (Map.insert k v m).
Proof.
  induction m as [| [k' v'] r IH]; cbn [Map.insert keys_ascending].
  - auto.
  - intros [A R]. destruct (String.eqb k' k) eqn:E; [cbn; auto |].
    destruct (Str.ltb k k') eqn:L; cbn [keys_ascending].
    + split; [| auto]. constructor; [exact L |].
      eapply Forall_impl; [| exact A]. intros [k2 v2]; cbn [fst].
      intros H. eapply ltb_trans; eauto.
    + split; [| auto]. apply insert_Forall; [| exact A]. cbn [fst].
      apply ltb_total; [exact L |]. now rewrite String.eqb_sym.
Qed.

Lemma erase_Forall (P : string * V -> Prop) k m :
  Forall P m -> Forall P (Map.erase k m).
Proof.
  induction 1 as [| [k' v'] r H R IH]; cbn [Map.erase]; [constructor |].
  destruct (String.eqb k' k); [exact R | constructor; auto].
Qed.

Lemma erase_ascending k m : keys_ascending m -> keys_ascending (Map.erase k m).
Proof.
  induction m as [| [k' v'] r IH]; cbn [Map.erase keys_ascending]; [auto |].
  intros [A R]. destruct (String.eqb k' k); [exact R |].
  cbn [keys_ascending]. split; [apply erase_Forall; exact A | auto].
Qed.

Lemma erase_absent k m :
  keys_ascending m -> Map.count k (Map.erase k m) = false.
Proof.
  induction m as [| [k' v'] r IH]; cbn [Map.erase keys_ascending]; [auto |].
  intros [A R]. destruct (String.eqb k' k) eqn:E.
  - apply String.eqb_eq in E. subst k'. now apply above_all_absent.
  - cbn [Map.count]. rewrite E. auto.
Qed.

Lemma erase_at_other k m k2 :
  String.eqb k k2 = false -> Map.at_ k2 (Map.erase k m) = Map.at_ k2 m.
Proof.
  intros N. induction m as [| [k' v'] r IH]; cbn [Map.erase Map.at_];
    [reflexivity |].
  destruct (String.eqb k' k) eqn:E.
  - apply String.eqb_eq in E. subst k'. now rewrite N.
  - cbn [Map.at_]. now rewrite IH.
Qed.

Lemma erase_length k m :
  Map.count k m = true ->
  S (List.length (Map.erase k m)) = List.length m.
Proof.
  induction m as [| [k' v'] r IH]; cbn [Map.count Map.erase]; [discriminate |].
  destruct (String.eqb k' k); cbn [orb List.length]; auto.
Qed.

End MapFacts.

(** ** Children of a group *)

(** X2: Adding a setting to a group whose name is already taken throws
    SettingNameException; otherwise the group grows by one, the new
    setting is found under its name and every other name resolves as
    before. *)
Theorem group_add_then_lookup :
  forall (m : list (string * basic_setting)) (value : basic_setting),
    (Map.count (getName value) m = true ->
     raises_SettingName (Body.add (BContainer m) value) = true)
    /\ (Map.count (getName value) m = false ->
        exists m',
          Body.add (BContainer m) value = Ok (BContainer m')
          /\ Body.at_name (BContainer m') (getName value) = Ok value
          /\ (forall k, k <> getName value ->
                Body.at_name (BContainer m') k = Body.at_name (BContainer m) k)
          /\ Body.size (BContainer m') = (Body.size (BContainer m) + 1)%N).
Proof.
  intros m value. split; intros H; cbn [Body.add]; rewrite H.
  - reflexivity.
  - eexists. split; [reflexivity |]. split; [| split].
    + cbn [Body.at_name]. now rewrite insert_at_same.
    + intros k N. cbn [Body.at_name]. rewrite insert_at_other; [reflexivity |].
      apply String.eqb_neq. congruence.
    + cbn [Body.size]. unfold vec_size. rewrite insert_length by exact H. lia.
Qed.

(** X3: A successful add to a group keeps the children in ascending order of
    their names and each child stored under its own name. *)
Theorem group_add_keeps_order :
  forall (m m' : list (string * basic_setting)) (value : basic_setting),
    keys_ascending m -> keyed_by_name m ->
    Body.add (BContainer m) value = Ok (BContainer m') ->
    keys_ascending m' /\ keyed_by_name m'.
Proof.
  intros m m' value A K. cbn [Body.add].
  destruct (Map.count (getName value) m); [discriminate |].
  intros [= <-]. split.
  - now apply insert_ascending.
  - apply insert_Forall; [reflexivity | exact K].
Qed.

(** X4: Removing a name that a group does not hold throws
    SettingNotFoundException; removing one it holds makes the group one
    smaller, the name is gone, every other name resolves as before and
    the order of the names is kept. *)
Theorem group_remove_by_name :
  forall (m : list (string * basic_setting)) (property : string),
    keys_ascending m ->
    (Map.count property m = false ->
     raises_SettingNotFound (Body.remove_name (BContainer m) property) = true)
    /\ (Map.count property m = true ->
        exists m',
          Body.remove_name (BContainer m) property = Ok (BContainer m')
          /\ Body.exists_name (BContainer m') property = false
          /\ (forall k, k <> property ->
                Body.at_name (BContainer m') k = Body.at_name (BContainer m) k)
          /\ (Body.size (BContainer m') + 1)%N = Body.size (BContainer m)
          /\ keys_ascending m').
Proof.
  intros m property A. split; intros H; cbn [Body.remove_name]; rewrite H.
  - reflexivity.
  - eexists. split; [reflexivity |]. repeat split.
    + cbn [Body.exists_name]. now apply erase_absent.
    + intros k N. cbn [Body.at_name]. rewrite erase_at_other; [reflexivity |].
      apply String.eqb_neq. congruence.
    + cbn [Body.size]. unfold vec_size. rewrite <- (erase_length property m H).
      lia.
    + now apply erase_ascending.
Qed.

Lemma vec_nth_in_range {A : Type} (l : list A) (i : N) :
  (i <? vec_size l)%N = match vec_nth l i with Some _ => true | None => false end.
Proof.
  unfold vec_nth, vec_size.
  destruct (nth_error l (N.to_nat i)) eqn:E.
  - apply N.ltb_lt.
    assert (H : (N.to_nat i < List.length l)%nat)
      by (apply nth_error_Some; congruence).
    lia.
  - apply N.ltb_ge. apply nth_error_None in E. lia.
Qed.

(** X6: For every kind of body, exists(name) is true exactly when at(name)
    returns a setting, and exists(index) is true exactly when at(index)
    returns a setting. *)
Theorem exists_iff_at :
  forall (b : body basic_setting),
    (forall property, Body.exists_name b property
                      = is_ok (Body.at_name b property))
    /\ (forall index, Body.exists_index b index
                      = is_ok (Body.at_index b index)).
Proof.
  intros b. split.
  - intros k. destruct b as [v f | l | l | m]; cbn; try reflexivity.
    destruct (Map.at_ k m) eqn:E.
    + apply count_at. congruence.
    + destruct (Map.count k m) eqn:C; [| reflexivity].
      apply count_at in C. congruence.
  - intros i. destruct b as [v f | l | l | m];
      cbn [Body.exists_index Body.at_index Body.size]; try reflexivity;
      rewrite vec_nth_in_range.
    + destruct (vec_nth l i); reflexivity.
    + destruct (vec_nth l i); reflexivity.
    + destruct (vec_nth m i) as [[k v] |]; reflexivity.
Qed.

(** In a map with ascending keys, an earlier entry has the smaller key. *)
Lemma ascending_nth {V : Type} (m : list (string * V)) :
  keys_ascending m ->
  forall i j a b, (i < j)%nat -> nth_error m i = Some a -> nth_error m j = Some b ->
                  Str.ltb (fst a) (fst b) = true.
Proof.
  induction m as [| [k v] r IH]; intros A i j a b L Hi Hj.
  - destruct i; discriminate.
  - destruct A as [F A]. destruct j as [| j]; [lia |].
    cbn [nth_error] in Hj. destruct i as [| i].
    + injection Hi as <-. cbn [fst].
      apply nth_error_In in Hj. rewrite Forall_forall in F. exact (F b Hj).
    + cbn [nth_error] in Hi. apply (IH A i j a b); [lia | exact Hi | exact Hj].
Qed.

(** X5: Positional access into a group follows the order of the names: of
    two children at positions i < j, the one at i has the smaller name. *)
Theorem group_index_order :
  forall (m : list (string * basic_setting)) (i j : N) (x y : basic_setting),
    keys_ascending m -> keyed_by_name m ->
    (i < j)%N ->
    Body.at_index (BContainer m) i = Ok x ->
    Body.at_index (BContainer m) j = Ok y ->
    Str.ltb (getName x) (getName y) = true.
Proof.
  intros m i j x y A K L. cbn [Body.at_index]. unfold vec_nth.
  destruct (nth_error m (N.to_nat i)) as [[k1 v1] |] eqn:E1; [| discriminate].
  destruct (nth_error m (N.to_nat j)) as [[k2 v2] |] eqn:E2; [| discriminate].
  intros [= <-] [= <-].
  unfold keyed_by_name in K. rewrite Forall_forall in K.
  pose proof (K _ (nth_error_In _ _ E1)) as N1.
  pose proof (K _ (nth_error_In _ _ E2)) as N2.
  cbn [fst snd] in N1, N2. rewrite N1, N2.
  apply (ascending_nth m A (N.to_nat i) (N.to_nat j) (k1, v1) (k2, v2));
    [lia | exact E1 | exact E2].
Qed.

(** ** Elements of lists and arrays *)

Lemma at_index_list_ok l i x :
  Body.at_index (BList l) i = Ok x <-> nth_error l (N.to_nat i) = Some x.
Proof.
  cbn [Body.at_index]. unfold vec_nth.
  destruct (nth_error l (N.to_nat i)); split; congruence.
Qed.

(** X7: Adding to a list always succeeds: the list grows by one, the new
    element is at the old size, and the elements before it are
    unchanged. *)
Theorem list_add_appends :
  forall (l : list basic_setting) (value : basic_setting),
    exists l',
      Body.add (BList l) value = Ok (BList l')
      /\ Body.size (BList l') = (Body.size (BList l) + 1)%N
      /\ Body.at_index (BList l') (Body.size (BList l)) = Ok value
      /\ forall i, (i < Body.size (BList l))%N ->
                   Body.at_index (BList l') i = Body.at_index (BList l) i.
Proof.
  intros l value. exists (l ++ [value])%list. split; [reflexivity |].
  cbn [Body.size Body.at_index]. unfold vec_size, vec_nth. repeat split.
  - rewrite length_app. cbn. lia.
  - replace (N.to_nat (N.of_nat (List.length l))) with (List.length l) by lia.
    rewrite nth_error_app2, Nat.sub_diag by lia. reflexivity.
  - intros i L. rewrite nth_error_app1 by lia. reflexivity.
Qed.

Lemma vec_erase_nth {A : Type} (l : list A) :
  forall i j, (i < List.length l)%nat ->
    nth_error (vec_erase l i) j
    = if (j <? i)%nat then nth_error l j else nth_error l (S j).
Proof.
  induction l as [| a r IH]; intros i j L; [cbn in L; lia |].
  destruct i as [| i]; cbn [vec_erase].
  - reflexivity.
  - destruct j as [| j]; [reflexivity |]. cbn [nth_error].
    rewrite IH by (cbn in L; lia).
    change (S j <? S i)%nat with (j <? i)%nat. reflexivity.
Qed.

Lemma vec_erase_length {A : Type} (l : list A) :
  forall i, (i < List.length l)%nat ->
            S (List.length (vec_erase l i)) = List.length l.
Proof.
  induction l as [| a r IH]; intros i L; [cbn in L; lia |].
  destruct i; cbn [vec_erase List.length]; [reflexivity |].
  rewrite IH by (cbn in L; lia). reflexivity.
Qed.

(** X8: Removing from a list at an index that is not below its size throws
    SettingNotFoundException; otherwise the list is one shorter, the
    elements before the index stay and those after it move down by one. *)
Theorem list_remove_shifts :
  forall (l : list basic_setting) (index : N),
    ((Body.size (BList l) <= index)%N ->
     raises_SettingNotFound (Body.remove_index (BList l) index) = true)
    /\ ((index < Body.size (BList l))%N ->
        exists l',
          Body.remove_index (BList l) index = Ok (BList l')
          /\ (Body.size (BList l') + 1)%N = Body.size (BList l)
          /\ forall j x,
               Body.at_index (BList l') j = Ok x
               <-> Body.at_index (BList l)
                     (if (j <? index)%N then j else (j + 1)%N) = Ok x).
Proof.
  intros l index. cbn [Body.size Body.remove_index]. unfold vec_size.
  split; intros H.
  - destruct (N.leb_spec (N.of_nat (List.length l)) index); [reflexivity | lia].
  - destruct (N.leb_spec (N.of_nat (List.length l)) index); [lia |].
    eexists. split; [reflexivity |]. split.
    + rewrite <- (vec_erase_length l (N.to_nat index)) by lia. lia.
    + intros j x. rewrite !at_index_list_ok, vec_erase_nth by lia.
      destruct (N.ltb_spec j index), (Nat.ltb_spec (N.to_nat j) (N.to_nat index));
        try lia; try reflexivity.
      replace (N.to_nat (j + 1)) with (S (N.to_nat j)) by lia. reflexivity.
Qed.

Lemma array_add_outcome :
  forall (l : list basic_setting) (value : basic_setting),
    homogeneous l ->
    (raises_SettingType (Body.add (BArray l) value) = true
     <-> isScalar value = false
         \/ exists x, In x l /\ getType x <> getType value)
    /\ (forall b, Body.add (BArray l) value = Ok b ->
                  b = BArray (l ++ [value]) /\ homogeneous (l ++ [value])).
Proof.
  intros l value [S T]. cbn [Body.add].
  destruct (isScalar value) eqn:V; cbn [negb].
  - destruct l as [| first r].
    + split.
      * split; [discriminate |]. intros [? | (x & [] & _)]; discriminate.
      * intros b [= <-]. split; [reflexivity |]. split.
        -- repeat constructor; exact V.
        -- intros x y [<- | []] [<- | []]. reflexivity.
    + destruct (Type_eqb (getType first) (getType value)) eqn:E; cbn [negb].
      * apply Type_eqb_eq in E. split.
        -- split; [discriminate |]. intros [? | (x & I & N)]; [discriminate |].
           exfalso. apply N. rewrite <- E. apply T; [exact I | now left].
        -- intros b [= <-]. split; [reflexivity |]. split.
           ++ apply Forall_app. split; [exact S | repeat constructor; exact V].
           ++ assert (A : forall x, In x ((first :: r) ++ [value]) ->
                                    getType x = getType value).
              { intros x I. apply in_app_or in I as [I | [<- | []]];
                  [| reflexivity].
                rewrite <- E. apply T; [exact I | now left]. }
              intros x y Ix Iy. rewrite (A x Ix), (A y Iy). reflexivity.
      * split; [| discriminate]. split; [| reflexivity]. intros _. right.
        exists first. split; [now left |]. intros C.
        rewrite C in E. assert (Type_eqb (getType value) (getType value) = true)
          by (apply Type_eqb_eq; reflexivity). congruence.
  - split; [| discriminate]. split; [auto | reflexivity].
Qed.

(** X9: Adding to an array of scalars of one type throws
    SettingTypeException exactly when the value is no scalar or its type
    differs from that of an element; otherwise the value is appended and
    the array still holds scalars of one type. *)
Theorem array_add_keeps_homogeneous :
  forall (l : list basic_setting) (value : basic_setting),
    homogeneous l ->
    (raises_SettingType (Body.add (BArray l) value) = true
     <-> isScalar value = false
         \/ exists x, In x l /\ getType x <> getType value)
    /\ (forall b, Body.add (BArray l) value = Ok b ->
                  b = BArray (l ++ [value]) /\ homogeneous (l ++ [value])).
Proof. exact array_add_outcome. Qed.

(** ** Well-formed trees *)

Lemma new_setting_well_formed name type : well_formed (new_setting name type).
Proof.
  destruct type; cbn; constructor; try reflexivity; try exact I;
    try (constructor; fail); try (split; [constructor | intros ? ? []]).
Qed.

Lemma setting_add_well_formed s value s' :
  well_formed s -> well_formed value ->
  setting_add s value = Ok s' -> well_formed s'.
Proof.
  intros W V. destruct W as [n t v f E | n l F | n l F H | n m F A K];
    cbn [setting_add bind].
  - discriminate.
  - intros [= <-]. constructor. apply Forall_app. auto.
  - destruct (Body.add (BArray l) value) as [b |] eqn:B; [| discriminate].
    cbn [bind]. intros [= <-].
    destruct (array_add_outcome l value H) as [_ P].
    destruct (P b B) as [-> H']. constructor; [| exact H'].
    apply Forall_app. auto.
  - destruct (Body.add (BContainer m) value) as [b |] eqn:B; [| discriminate].
    cbn [bind]. intros [= <-].
    cbn [Body.add] in B.
    destruct (Map.count (getName value) m); [discriminate |].
    injection B as <-. constructor.
    + apply (insert_Forall (fun kv => well_formed (snd kv))); auto.
    + now apply insert_ascending.
    + apply (insert_Forall (fun kv => getName (snd kv) = fst kv));
        [reflexivity | exact K].
Qed.

Lemma add_all_well_formed settings :
  forall s s', well_formed s -> Forall well_formed settings ->
               add_all s settings = Ok s' -> well_formed s'.
Proof.
  induction settings as [| x r IH]; intros s s' W F; cbn [add_all].
  - now intros [= <-].
  - inversion F as [| ? ? Fx Fr]; subst.
    destruct (setting_add s x) as [s1 |] eqn:E; [| discriminate]. cbn [bind].
    intros E2. apply (IH s1 s'); [| exact Fr | exact E2].
    exact (setting_add_well_formed s x s1 W Fx E).
Qed.

Lemma assign_with_well_formed f s s' :
  (forall v v', f v = Ok v' -> _deduce_scalar_type v' = _deduce_scalar_type v) ->
  well_formed s -> assign_with f s = Ok s' -> well_formed s'.
Proof.
  intros T W. destruct W as [n t v fmt E | n l F | n l F H | n m F A K];
    cbn [assign_with]; try discriminate.
  destruct (f v) as [v' |] eqn:V; [| discriminate]. cbn [bind].
  intros [= <-]. constructor. rewrite (T v v' V). exact E.
Qed.

Lemma setFormat_well_formed s f : well_formed s -> well_formed (setFormat s f).
Proof. intros []; cbn; constructor; auto. Qed.

(** Every successful assignment keeps the class of the scalar. *)
Lemma assignValue_keeps_type :
  forall (v v' : scalar),
    (forall x, Scalar.assignValue_bool v x = Ok v' ->
               _deduce_scalar_type v' = _deduce_scalar_type v)
    /\ (forall x, Scalar.assignValue_int v x = Ok v' ->
                  _deduce_scalar_type v' = _deduce_scalar_type v)
    /\ (forall x, Scalar.assignValue_long v x = Ok v' ->
                  _deduce_scalar_type v' = _deduce_scalar_type v)
    /\ (forall x, Scalar.assignValue_float v x = Ok v' ->
                  _deduce_scalar_type v' = _deduce_scalar_type v)
    /\ (forall x, Scalar.assignValue_string v x = Ok v' ->
                  _deduce_scalar_type v' = _deduce_scalar_type v).
Proof.
  intros v v'. repeat split; intros x; destruct v; cbn;
    try discriminate; intros [= <-]; reflexivity.
Qed.

Lemma assign_with_name f s s' : assign_with f s = Ok s' -> getName s' = getName s.
Proof.
  destruct s as [n t [v fmt | l | l | m]]; cbn [assign_with]; try discriminate.
  destruct (f v); [| discriminate]. cbn [bind]. now intros [= <-].
Qed.

Lemma new_setting_name name type : getName (new_setting name type) = name.
Proof. reflexivity. Qed.

Lemma setFormat_name s f : getName (setFormat s f) = getName s.
Proof. destruct s; reflexivity. Qed.

Section ReaderFacts.

Context {io : FloatText}.

Lemma _get_scalar_item_well_formed name value s :
  _get_scalar_item name value = Ok s ->
  well_formed s /\ getName s = text name.
Proof.
  unfold _get_scalar_item.
  pose proof (new_setting_well_formed (text name)) as N.
  pose proof (fun t => setFormat_well_formed _ FormatHex (N t)) as H.
  assert (K : forall f base s',
             (forall v v', f v = Ok v' ->
                           _deduce_scalar_type v' = _deduce_scalar_type v) ->
             well_formed base -> getName base = text name ->
             assign_with f base = Ok s' ->
             well_formed s' /\ getName s' = text name).
  { intros f base s' T W G E. split.
    - exact (assign_with_well_formed f base s' T W E).
    - rewrite (assign_with_name f base s' E). exact G. }
  destruct (_get_scalar_type (text value)); try discriminate.
  - destruct (Rx.rx_hex (text value)); unfold assign_int; intros E;
      refine (K _ _ _ _ _ _ E); auto;
      intros v v' V;
      destruct (assignValue_keeps_type v v') as (Kb & Ki & Kl & Kf & Ks); eauto.
  - destruct (Rx.rx_hex64 (text value)); unfold assign_long; intros E;
      refine (K _ _ _ _ _ _ E); auto;
      intros v v' V;
      destruct (assignValue_keeps_type v v') as (Kb & Ki & Kl & Kf & Ks); eauto.
  - unfold assign_float; intros E; refine (K _ _ _ _ _ _ E); auto;
      intros v v' V;
      destruct (assignValue_keeps_type v v') as (Kb & Ki & Kl & Kf & Ks); eauto.
  - unfold assign_string; intros E; refine (K _ _ _ _ _ _ E); auto;
      intros v v' V;
      destruct (assignValue_keeps_type v v') as (Kb & Ki & Kl & Kf & Ks); eauto.
  - unfold assign_bool; intros E; refine (K _ _ _ _ _ _ E); auto;
      intros v v' V;
      destruct (assignValue_keeps_type v v') as (Kb & Ki & Kl & Kf & Ks); eauto.
Qed.

End ReaderFacts.

(** ** The reader builds well-formed trees *)

Section GrammarFacts.

Context {io : FloatText}.

Ltac step_bind H :=
  match type of H with
  | context [match ?p with pair _ _ => _ end] => destruct p
  | mbind ?m _ = Some (Ok _) =>
      let E := fresh "E" in
      destruct m as [[? | ?] |] eqn:E; cbn [mbind] in H; [| discriminate ..]
  | (if ?b then _ else _) = Some (Ok _) =>
      destruct b; try discriminate
  end.

Ltac inv_ok :=
  repeat match goal with
    | H : ret _ = Some (Ok _) |- _ => unfold ret in H
    | H : lift _ = Some (Ok _) |- _ => unfold lift in H
    | H : throw _ = Some (Ok _) |- _ => discriminate
    | H : Some (Ok _) = Some (Ok _) |- _ => injection H; clear H; intros
    | H : Some ?r = Some (Ok _) |- _ => injection H; clear H; intros
    end; subst.

Lemma grammar_is_well_formed fuel : grammar_well_formed fuel.
Proof.
  induction fuel as [| fuel (Hsl & Hs & Hg & Hl & Ha & Hi & Hli)].
  - repeat split; intros; discriminate.
  - pose proof new_setting_well_formed as N.
    repeat split.
    + intros toks l H. cbn [_get_setting_list] in H.
      destruct toks as [| tok toks]; [inv_ok; constructor |].
      repeat step_bind H. inv_ok. constructor; eauto.
    + intros id toks s r H. cbn [_get_setting] in H.
      destruct toks as [| tok toks]; [discriminate |].
      step_bind H. destruct toks as [| next after]; [discriminate |].
      repeat step_bind H; inv_ok; eauto.
      eapply _get_scalar_item_well_formed; eauto.
    + intros id toks s r H. cbn [_get_group] in H.
      repeat step_bind H. inv_ok.
      eapply add_all_well_formed; [apply N | eapply Hsl; eassumption | eassumption].
    + intros id toks s r H. cbn [_get_list] in H.
      repeat step_bind H. inv_ok. eauto.
    + intros id toks s r H. cbn [_get_array] in H.
      repeat step_bind H. inv_ok. eauto.
    + intros inner aggregate s W H. cbn [items] in H.
      step_bind H. step_bind H.
      match goal with
      | E : match ?a with O => _ | S _ => _ end = Some (Ok ?b) |- _ =>
          assert (W' : well_formed b);
          [ destruct a;
            [ inv_ok; exact W
            | step_bind E; inv_ok;
              eapply setting_add_well_formed;
              [exact W | eapply Hli; eassumption | eassumption] ]
          | ]
      end.
      step_bind H; inv_ok; [exact W' | eapply Hi; eassumption].
    + intros toks s H. cbn [_get_list_item] in H.
      repeat step_bind H; inv_ok; eauto.
      eapply _get_scalar_item_well_formed; eauto.
Qed.

(** X1: Every tree that the reader returns is well formed: each scalar holds
    a value of the class that belongs to its type, the children of every
    group are in ascending order of their names and stored under their
    own names, and the elements of every array are scalars of one type. *)
Theorem reader_output_well_formed :
  forall (depth : nat) (w : world) (path include_dir : string)
         (root : basic_setting),
    _read_file depth w path include_dir = Some (Ok root) ->
    well_formed root.
Proof.
  intros depth w path include_dir root H. unfold _read_file in H.
  step_bind H.
  destruct (parser_parse depth w include_dir _ 0) as [[tokens | ?] |];
    cbn [mbind] in H; try discriminate.
  destruct tokens as [| t r]; [inv_ok; apply new_setting_well_formed |].
  match type of H with
  | mbind ?m _ = _ => destruct m as [[settings | ?] |] eqn:Es
  end; cbn [mbind] in H; try discriminate.
  inv_ok.
  eapply add_all_well_formed;
    [apply new_setting_well_formed | | eassumption].
  eapply (proj1 (grammar_is_well_formed _)). eassumption.
Qed.

End GrammarFacts.

Lemma reader_output_well_formed_witness :
  well_formed
    (Setting "" TypeGroup
       (BContainer
          [("a", Setting "a" TypeArray
                   (BArray [Setting "" TypeInt (BScalar (ScalarInt 1) FormatDefault);
                            Setting "" TypeInt (BScalar (ScalarInt 2) FormatDefault)]));
           ("b", Setting "b" TypeInt64 (BScalar (ScalarInt64 3) FormatDefault))])).
Proof.
  refine (@reader_output_well_formed StdFloat.float_text 1
            (single_file "/doc.cfg" ("b = 3L; a = [1, 2];" ++ nl))
            "/doc.cfg" "/" _ _).
  vm_compute. reflexivity.
Defined.

(** ** Paths and their components *)

Lemma find_first_of_app c n r :
  Str.find_first_of c n = None ->
  Str.find_first_of c (n ++ String c r) = Some (String.length n).
Proof.
  induction n as [| a n IH]; simpl; intro H.
  - now rewrite Ascii.eqb_refl.
  - destruct (Ascii.eqb a c); [discriminate |].
    destruct (Str.find_first_of c n); [discriminate |].
    now rewrite IH.
Qed.

Lemma prefix_app n r : Str.prefix (String.length n) (n ++ r) = n.
Proof. induction n as [| a n IH]; simpl; [now destruct r | now rewrite IH]. Qed.

Lemma substr_from_app n r : Str.substr_from (String.length n) (n ++ r) = r.
Proof. induction n as [| a n IH]; simpl; auto. Qed.

Lemma find_first_of_split c s i :
  Str.find_first_of c s = Some i ->
  s = Str.prefix i s ++ String c (Str.substr_from (S i) s)
  /\ Str.find_first_of c (Str.prefix i s) = None.
Proof.
  revert i. induction s as [| a s IH]; simpl; intros i H; [discriminate |].
  destruct (Ascii.eqb a c) eqn:E.
  - injection H as <-. apply Ascii.eqb_eq in E. subst. simpl. auto.
  - destruct (Str.find_first_of c s) as [j |]; [| discriminate].
    injection H as <-. destruct (IH j eq_refl) as [H1 H2].
    simpl. rewrite E, H2. split; [f_equal; exact H1 | reflexivity].
Qed.

Lemma find_last_of_split c s i :
  Str.find_last_of c s = Some i ->
  s = Str.prefix i s ++ String c (Str.substr_from (S i) s)
  /\ Str.find_first_of c (Str.substr_from (S i) s) = None.
Proof.
  revert i. induction s as [| a s IH]; simpl; intros i H; [discriminate |].
  destruct (Str.find_last_of c s) as [j |] eqn:L.
  - injection H as <-. destruct (IH j eq_refl) as [H1 H2].
    simpl. split; [f_equal; exact H1 | exact H2].
  - destruct (Ascii.eqb a c) eqn:E; [| discriminate].
    injection H as <-. apply Ascii.eqb_eq in E. subst. simpl.
    split; [reflexivity |].
    clear IH. induction s as [| b s IH]; simpl in *; [reflexivity |].
    destruct (Str.find_last_of c s); [discriminate |].
    destruct (Ascii.eqb b c); [discriminate |]. now rewrite IH.
Qed.

(** X19: A path with a dot is its first component, a dot and the rest, and
    also its parent path, a dot and its last component; neither the
    first nor the last component contains a dot. *)
Theorem long_path_splits :
  forall path : string,
    _long_path path = true ->
    path = _local path ++ "." ++ _remote path
    /\ _long_path (_local path) = false
    /\ path = _parent path ++ "." ++ _leaf path
    /\ _long_path (_leaf path) = false.
Proof.
  intros path L. unfold _long_path, _local, _remote, _parent, _leaf in *.
  destruct (Str.find_first_of dot path) as [i |] eqn:F; [| discriminate].
  destruct (find_first_of_split _ _ _ F) as [H1 H2].
  assert (exists j, Str.find_last_of dot path = Some j) as [j Lj].
  { clear - F. revert i F. induction path as [| a s IH]; simpl; intros i F;
      [discriminate |].
    destruct (Str.find_last_of dot s); [eauto |].
    destruct (Ascii.eqb a dot); [eauto |].
    destruct (Str.find_first_of dot s) eqn:E; [| discriminate].
    destruct (IH _ eq_refl) as [? ?]. discriminate. }
  rewrite Lj. destruct (find_last_of_split _ _ _ Lj) as [H3 H4].
  unfold Str.substr. simpl Str.substr_from. rewrite Nat.add_1_r, H2.
  rewrite Nat.add_1_r, H4. auto.
Qed.

Lemma long_path_splits_witness :
  "a.b.c" = _local "a.b.c" ++ "." ++ _remote "a.b.c"
  /\ _long_path (_local "a.b.c") = false
  /\ "a.b.c" = _parent "a.b.c" ++ "." ++ _leaf "a.b.c"
  /\ _long_path (_leaf "a.b.c") = false.
Proof. apply (long_path_splits "a.b.c"). reflexivity. Defined.

Lemma plain_name_facts n :
  plain_name n = true ->
  Str.empty n = false /\ Str.find_first_of dot n = None
  /\ _convert_index n = None.
Proof.
  unfold plain_name, _long_path. intro H.
  apply andb_prop in H as [H H3]. apply andb_prop in H as [H1 H2].
  destruct (Str.empty n); [discriminate |].
  destruct (Str.find_first_of dot n); [discriminate |].
  destruct (_convert_index n); [discriminate |]. auto.
Qed.

Lemma split_head n r :
  Str.find_first_of dot n = None ->
  _long_path (n ++ "." ++ r) = true
  /\ _local (n ++ "." ++ r) = n /\ _remote (n ++ "." ++ r) = r.
Proof.
  intro H. unfold _long_path, _local, _remote.
  change (n ++ "." ++ r) with (n ++ String dot r).
  rewrite (find_first_of_app dot n r H). unfold Str.substr.
  simpl Str.substr_from at 1. rewrite prefix_app.
  rewrite Nat.add_1_r.
  change (S (String.length n)) with (String.length (String dot n)).
  split; [reflexivity | split; [reflexivity |]].
  replace (String.length (String dot n)) with (String.length (n ++ ".")).
  - replace (n ++ String dot r) with ((n ++ ".") ++ r).
    + apply substr_from_app.
    + clear. induction n; simpl; [reflexivity | now rewrite IHn].
  - clear. induction n; simpl; [reflexivity | now rewrite IHn].
Qed.

Lemma empty_app n r : Str.empty n = false -> Str.empty (n ++ r) = false.
Proof. destruct n; simpl; [discriminate | reflexivity]. Qed.

Lemma _at_join :
  forall names up s up' node,
    Forall (fun n => plain_name n = true) names ->
    names <> [] ->
    descend up s names = Some (up', node) ->
    _at s (join names) = Ok node.
Proof.
  induction names as [| n r IH]; intros up s up' node P N D; [easy |].
  inversion P as [| ? ? Pn Pr]; subst.
  destruct (plain_name_facts _ Pn) as (E & F & C).
  cbn [descend] in D.
  destruct (Body.at_name (value_of s) n) as [child |] eqn:A; [| discriminate].
  destruct (String.eqb (getName child) n); [| discriminate].
  rewrite _at_unfold.
  destruct r as [| n' r'].
  - cbn [join]. rewrite E. unfold _long_path. rewrite F. cbn [negb].
    rewrite C, A. cbn in D. injection D as _ <-. reflexivity.
  - change (join (n :: n' :: r')) with (n ++ "." ++ join (n' :: r')).
    destruct (split_head n (join (n' :: r')) F) as (L1 & L2 & L3).
    rewrite (empty_app _ _ E), L1, L2, L3. cbn [negb]. rewrite C, A.
    cbn [bind]. rewrite (IH _ _ _ _ Pr ltac:(discriminate) D). reflexivity.
Qed.

Lemma append_assoc (a b c : string) : (a ++ b) ++ c = a ++ b ++ c.
Proof. induction a; simpl; [reflexivity | now rewrite IHa]. Qed.

Lemma getPath_step up s c :
  getPath (s :: up) c
  = (if (0 <? String.length (getPath up s))%nat then getPath up s ++ "."
     else getPath up s) ++ getName c.
Proof. reflexivity. Qed.

Lemma length_zero_empty s : (0 <? String.length s)%nat = negb (Str.empty s).
Proof. destruct s; reflexivity. Qed.

Lemma getPath_join :
  forall names up s up' node,
    Forall (fun n => plain_name n = true) names ->
    names <> [] ->
    descend up s names = Some (up', node) ->
    getPath up' node
    = (if Str.empty (getPath up s) then "" else getPath up s ++ ".")
      ++ join names.
Proof.
  induction names as [| n r IH]; intros up s up' node P N D; [easy |].
  inversion P as [| ? ? Pn Pr]; subst.
  destruct (plain_name_facts _ Pn) as (E & F & C).
  cbn [descend] in D.
  destruct (Body.at_name (value_of s) n) as [child |] eqn:A; [| discriminate].
  destruct (String.eqb (getName child) n) eqn:G; [| discriminate].
  apply String.eqb_eq in G.
  destruct r as [| n' r'].
  - cbn in D. injection D as <- <-. rewrite getPath_step, length_zero_empty.
    cbn [join]. rewrite G. destruct (Str.empty (getPath up s)) eqn:Ep;
      cbn [negb]; [| reflexivity].
    destruct (getPath up s); [reflexivity | discriminate].
  - rewrite (IH _ _ _ _ Pr ltac:(discriminate) D).
    assert (Ec : Str.empty (getPath (s :: up) child) = false).
    { rewrite getPath_step, G.
      destruct ((if (0 <? String.length (getPath up s))%nat
                 then getPath up s ++ "." else getPath up s));
        simpl; [exact E | reflexivity]. }
    rewrite Ec. rewrite getPath_step, length_zero_empty, G.
    change (join (n :: n' :: r')) with (n ++ "." ++ join (n' :: r')).
    destruct (Str.empty (getPath up s)) eqn:Ep; cbn [negb].
    + destruct (getPath up s); [| discriminate]. simpl.
      now rewrite !append_assoc.
    + now rewrite !append_assoc.
Qed.

(** X20: A setting reached from a root with an empty name by going down
    through groups is found again by operator[] under the path that
    getPath reports for it, provided every name on the way is not empty,
    has no dot and is not read as an index. *)
Theorem getPath_leads_back :
  forall (root : basic_setting) (names : list string)
         (up : list basic_setting) (node : basic_setting),
    getName root = "" ->
    Forall (fun n => plain_name n = true) names ->
    names <> [] ->
    descend [] root names = Some (up, node) ->
    getPath up node = join names
    /\ _at root (getPath up node) = Ok node.
Proof.
  intros root names up node R P N D.
  pose proof (getPath_join _ _ _ _ _ P N D) as G.
  cbn [getPath] in G. rewrite R in G. cbn in G.
  split; [exact G |]. rewrite G. eapply _at_join; eassumption.
Qed.

(** ** [exists] and [operator[]] *)

Lemma span_app p s d t : Str.span p s = (d, t) -> s = d ++ t.
Proof.
  revert d t. induction s as [| a s IH]; simpl; intros d t H.
  - now injection H as <- <-.
  - destruct (p a).
    + destruct (Str.span p s) as [x y]. injection H as <- <-.
      simpl. f_equal. now apply IH.
    + now injection H as <- <-.
Qed.

Lemma span_digits_no_dot s d t :
  Str.span Str.is_digit s = (d, t) -> Str.find_first_of dot d = None.
Proof.
  revert d t. induction s as [| a s IH]; simpl; intros d t H.
  - now injection H as <- <-.
  - destruct (Str.is_digit a) eqn:D.
    + destruct (Str.span Str.is_digit s) as [x y]. injection H as <- <-.
      simpl. rewrite (IH x y eq_refl).
      destruct (Ascii.eqb a dot) eqn:E; [| reflexivity].
      apply Ascii.eqb_eq in E. subst. discriminate.
    + now injection H as <- <-.
Qed.

Lemma find_first_of_none_app c a b :
  Str.find_first_of c a = None -> Str.find_first_of c b = None ->
  Str.find_first_of c (a ++ b) = None.
Proof.
  induction a as [| x a IH]; simpl; intros Ha Hb; [exact Hb |].
  destruct (Ascii.eqb x c); [discriminate |].
  destruct (Str.find_first_of c a); [discriminate |]. now rewrite IH.
Qed.

Lemma back_app a b : Str.empty b = false -> Str.back (a ++ b) = Str.back b.
Proof.
  intro E. induction a as [| x a IH]; simpl; [reflexivity |].
  rewrite IH. destruct (a ++ b) eqn:Q; [| reflexivity].
  destruct a; simpl in Q; [subst; discriminate | discriminate].
Qed.

(** An index path is a bracketed number with at most a final dot: what
    follows its first dot is empty, and with a dot it ends in one. *)
Lemma _convert_index_shape path i :
  _convert_index path = Some i ->
  _remote path = ""
  /\ (_long_path path = true -> Str.back path = dot).
Proof.
  unfold _convert_index. destruct path as [| a r]; [discriminate |].
  destruct (Ascii.eqb a "[") eqn:A;
    [apply Ascii.eqb_eq in A; subst
    | destruct a as [[] [] [] [] [] [] [] []]; try discriminate].
  destruct (Str.span Str.is_digit r) as [d t] eqn:S.
  pose proof (span_app _ _ _ _ S) as ->.
  pose proof (span_digits_no_dot _ _ _ S) as Dd.
  destruct (negb (Str.empty d)); cbn [andb]; [| discriminate].
  destruct (String.eqb t "]") eqn:T1; cbn [orb].
  - apply String.eqb_eq in T1. subst t. intros _.
    assert (F : Str.find_first_of dot (String "[" (d ++ "]")) = None).
    { change (String "[" (d ++ "]")) with ("[" ++ d ++ "]").
      apply find_first_of_none_app; [reflexivity |].
      apply find_first_of_none_app; [exact Dd | reflexivity]. }
    unfold _remote, _long_path. rewrite F. split; [reflexivity | discriminate].
  - destruct (String.eqb t "].") eqn:T2; [| discriminate].
    apply String.eqb_eq in T2. subst t. intros _.
    assert (F : Str.find_first_of dot (String "[" (d ++ "]")) = None).
    { change (String "[" (d ++ "]")) with ("[" ++ d ++ "]").
      apply find_first_of_none_app; [reflexivity |].
      apply find_first_of_none_app; [exact Dd | reflexivity]. }
    replace (String "[" (d ++ "].")) with (String "[" (d ++ "]") ++ "." ++ "").
    + destruct (split_head _ "" F) as (_ & _ & R). split; [exact R |].
      intros _. rewrite back_app; reflexivity.
    + simpl. f_equal. clear. induction d; simpl; [reflexivity | now rewrite IHd].
Qed.

Lemma exists_name_at_name b k :
  Body.exists_name b k = is_ok (Body.at_name b k).
Proof.
  destruct b as [v f | l | l | m]; simpl; try reflexivity.
  pose proof (count_at k m) as C.
  destruct (Map.at_ k m); destruct (Map.count k m); simpl; try reflexivity.
  - destruct C as [_ C]. discriminate C. discriminate.
  - destruct C as [C _]. now destruct (C eq_refl).
Qed.

Lemma is_ok_rethrow {A} path (r : result A) :
  is_ok (rethrow_not_found path r) = is_ok r.
Proof. destruct r as [x | []]; reflexivity. Qed.

Lemma join_not_empty names :
  Forall (fun n => plain_name n = true) names -> names <> [] ->
  Str.empty (join names) = false.
Proof.
  intros P N. destruct names as [| n r]; [easy |].
  inversion P as [| ? ? Pn Pr]; subst.
  destruct (plain_name_facts _ Pn) as (E & _ & _).
  destruct r; cbn [join]; [exact E | now apply empty_app].
Qed.

Lemma _exists_join :
  forall names s,
    Forall (fun n => plain_name n = true) names ->
    names <> [] ->
    _exists s (join names) = is_ok (_at s (join names)).
Proof.
  induction names as [| n r IH]; intros s P N; [easy |].
  inversion P as [| ? ? Pn Pr]; subst.
  destruct (plain_name_facts _ Pn) as (E & F & C).
  rewrite _exists_unfold, _at_unfold.
  destruct r as [| n' r'].
  - cbn [join]. rewrite E. unfold _long_path. rewrite F. cbn [negb].
    rewrite C, is_ok_rethrow. apply exists_name_at_name.
  - change (join (n :: n' :: r')) with (n ++ "." ++ join (n' :: r')).
    destruct (split_head n (join (n' :: r')) F) as (L1 & L2 & L3).
    rewrite (empty_app _ _ E), L1, L2, L3. cbn [negb].
    rewrite C, is_ok_rethrow.
    destruct (_convert_index (n ++ "." ++ join (n' :: r'))) as [i |] eqn:W.
    { destruct (_convert_index_shape _ _ W) as [R _]. rewrite L3 in R.
      pose proof (join_not_empty (n' :: r') Pr ltac:(discriminate)) as J.
      rewrite R in J. discriminate. }
    rewrite exists_name_at_name.
    destruct (Body.at_name (value_of s) n) as [child |]; cbn [is_ok bind];
      [| reflexivity].
    apply IH; [exact Pr | discriminate].
Qed.

Lemma plain_ends n :
  Str.empty n = false -> Str.find_first_of dot n = None ->
  Ascii.eqb (Str.front n) dot = false /\ Ascii.eqb (Str.back n) dot = false.
Proof.
  intros E F. split.
  - destruct n as [| a n]; [discriminate |]. simpl in *.
    destruct (Ascii.eqb a dot); [discriminate | reflexivity].
  - induction n as [| a n IH]; [discriminate |]. clear E.
    simpl in F. destruct (Ascii.eqb a dot) eqn:A; [discriminate |].
    destruct (Str.find_first_of dot n) eqn:G; [discriminate |].
    destruct n as [| b n]; [exact A |].
    change (Str.back (String a (String b n))) with (Str.back (String b n)).
    apply IH; reflexivity.
Qed.

Lemma _check_path_join names :
  Forall (fun n => plain_name n = true) names -> names <> [] ->
  _check_path (join names) = Ok tt.
Proof.
  intros P N. unfold _check_path. rewrite (join_not_empty _ P N).
  assert (Ascii.eqb (Str.front (join names)) dot = false
          /\ Ascii.eqb (Str.back (join names)) dot = false) as [Hf Hb].
  { clear N. induction P as [| n r Pn Pr IH].
    - split; reflexivity.
    - destruct (plain_name_facts _ Pn) as (E & F & _).
      destruct (plain_ends n E F) as [A B].
      destruct r as [| n' r']; [cbn [join]; auto |].
      change (join (n :: n' :: r')) with (n ++ "." ++ join (n' :: r')).
      split.
      + destruct n; [discriminate | exact A].
      + change (n ++ "." ++ join (n' :: r'))
          with (n ++ String dot (join (n' :: r'))).
        replace (n ++ String dot (join (n' :: r')))
          with ((n ++ ".") ++ join (n' :: r')) by apply append_assoc.
        rewrite back_app by (apply join_not_empty; [exact Pr | discriminate]).
        apply IH. }
  rewrite Hf, Hb. reflexivity.
Qed.

(** X21: For a path made of names that are not empty, have no dot and are
    not read as an index, exists(path) answers exactly whether
    operator[] finds a setting. *)
Theorem exists_agrees_with_subscript :
  forall (s : basic_setting) (names : list string),
    Forall (fun n => plain_name n = true) names ->
    names <> [] ->
    exists_ s (join names) = Ok (is_ok (subscript s (join names))).
Proof.
  intros s names P N. unfold exists_, subscript.
  rewrite (_check_path_join _ P N). cbn [bind].
  now rewrite (_exists_join _ _ P N).
Qed.

(** X22: exists(path) never answers true for a path with a dot that is asked
    of a list or an array, because _exists tests the whole path, not its
    first component, for being an index. *)
Theorem exists_misses_index_steps :
  forall (s : basic_setting) (path : string),
    sequence s = true ->
    _long_path path = true ->
    exists_ s path <> Ok true.
Proof.
  intros s path Q L. unfold exists_, _check_path.
  destruct (Str.empty path); [discriminate |].
  destruct (Ascii.eqb (Str.front path) dot); [discriminate |].
  destruct (Ascii.eqb (Str.back path) dot) eqn:B; [discriminate |].
  cbn [orb bind]. rewrite _exists_unfold, L. cbn [negb].
  destruct (_convert_index path) as [i |] eqn:C.
  - destruct (_convert_index_shape _ _ C) as [_ K].
    rewrite (K L), Ascii.eqb_refl in B. discriminate.
  - unfold sequence in Q.
    destruct (value_of s); try discriminate; cbn; discriminate.
Qed.

Lemma _at_upto_failure n :
  forall s path,
    match _at_upto n s path with
    | Ok _ => True
    | Throw e => e = _not_found_ex path
    end.
Proof.
  assert (R : forall path (r : result basic_setting),
             not_found_only r ->
             match rethrow_not_found path r with
             | Ok _ => True
             | Throw e => e = _not_found_ex path
             end).
  { intros path [x | e]; simpl; [auto |]. intros [p ->]. reflexivity. }
  assert (Ai : forall b i, not_found_only (Body.at_index b i)).
  { intros b i. unfold Body.at_index, _not_found_ex_index.
    destruct b as [v f | l | l | m]; simpl; eauto.
    - destruct (vec_nth l i); simpl; eauto.
    - destruct (vec_nth l i); simpl; eauto.
    - destruct (vec_nth m i) as [[k v] |]; simpl; eauto. }
  assert (An : forall b k, not_found_only (Body.at_name b k)).
  { intros b k. destruct b as [v f | l | l | m]; simpl; eauto.
    destruct (Map.at_ k m); simpl; eauto. }
  induction n as [| n IH]; intros s path; cbn [_at_upto];
    (destruct (Str.empty path); [exact I |]); apply R;
    destruct (_long_path path); cbn [negb]; try exact I;
    try (destruct (_convert_index path); [apply Ai | apply An]).
  destruct (_convert_index (_local path)) as [i |].
  - pose proof (Ai (value_of s) i) as H.
    destruct (Body.at_index (value_of s) i) as [c |]; cbn [bind]; [| exact H].
    specialize (IH c (_remote path)).
    destruct (_at_upto n c (_remote path)); simpl; eauto.
  - pose proof (An (value_of s) (_local path)) as H.
    destruct (Body.at_name (value_of s) (_local path)) as [c |]; cbn [bind];
      [| exact H].
    specialize (IH c (_remote path)).
    destruct (_at_upto n c (_remote path)); simpl; eauto.
Qed.

(** X23: Whenever operator[] with a path fails, the exception is
    SettingNotFoundException with the message Setting not found and the
    whole path that was asked for, whichever component was missing. *)
Theorem subscript_failure_names_whole_path :
  forall (s : basic_setting) (path : string) (e : exn),
    subscript s path = Throw e ->
    e = SettingNotFoundException "Setting not found" path.
Proof.
  intros s path e H. unfold subscript, _at in H.
  pose proof (_at_upto_failure (String.length path) s path) as F.
  rewrite H in F. exact F.
Qed.

(** ** String literals and words in the tokenizer *)

Lemma get_keeps_tmp_token st c :
  Tokenizer.tmp_token (Tokenizer.get st c) = Tokenizer.tmp_token st.
Proof. unfold Tokenizer.get. destruct (Tokenizer.new_line st); reflexivity. Qed.

Lemma advance_keeps st s :
  Tokenizer.is_string (advance st s) = Tokenizer.is_string st
  /\ Tokenizer.tmp_token (advance st s) = Tokenizer.tmp_token st.
Proof.
  revert st. induction s as [| c r IH]; intros st; cbn [advance]; [auto |].
  destruct (IH (Tokenizer.get st c)) as [A B].
  now rewrite A, B, get_keeps_is_string, get_keeps_tmp_token.
Qed.

Lemma push_assign tok x c :
  Tokenizer.push (assign_text tok x) c = assign_text tok (x ++ String c "").
Proof. reflexivity. Qed.

Lemma literal_char_facts c :
  literal_char c = true ->
  Ascii.eqb c Tokenizer.quote = false /\ Ascii.eqb c Tokenizer.backslash = false
  /\ Ascii.eqb c Ascii.zero = false.
Proof.
  unfold literal_char. intro H.
  apply andb_prop in H as [H C]. apply andb_prop in H as [A B].
  repeat split; apply negb_true_iff; assumption.
Qed.

Lemma length_append (a b : string) :
  String.length (a ++ b) = (String.length a + String.length b)%nat.
Proof. induction a; simpl; [reflexivity | now rewrite IHa]. Qed.

Lemma string_body v :
  forall fuel st x tok rest i,
    Tokenizer.is_string st = true ->
    all_chars literal_char v = true ->
    (String.length v < fuel)%nat ->
    Tokenizer.token_loop fuel st (v ++ String Tokenizer.quote rest)
      (assign_text tok x) false i
    = ret (true, assign_text tok (x ++ v ++ String Tokenizer.quote ""),
           Tokenizer.set_is_string
             (advance st (v ++ String Tokenizer.quote "")) false,
           rest).
Proof.
  induction v as [| a v IH]; intros fuel st x tok rest i S L F;
    (destruct fuel as [| fuel]; [cbn in F; lia |]).
  - cbn [append Tokenizer.token_loop]. unfold Tokenizer.skip_comment.
    cbn [Tokenizer.skip_comment_loop]. rewrite get_keeps_is_string, S.
    cbn [lift mbind]. rewrite get_keeps_is_string, S.
    change (Ascii.eqb Tokenizer.quote Ascii.zero) with false.
    rewrite Ascii.eqb_refl. cbn [andb negb advance]. rewrite push_assign.
    reflexivity.
  - cbn [all_chars] in L. apply andb_prop in L as [La L].
    destruct (literal_char_facts _ La) as (Q & B & Z).
    cbn [append Tokenizer.token_loop]. unfold Tokenizer.skip_comment.
    cbn [Tokenizer.skip_comment_loop]. rewrite get_keeps_is_string, S.
    cbn [lift mbind]. rewrite get_keeps_is_string, S, Z, Q, B.
    cbn [andb negb]. rewrite push_assign.
    rewrite IH; [| now rewrite get_keeps_is_string | exact L | cbn in F; lia].
    cbn [advance append]. rewrite append_assoc. reflexivity.
Qed.

Lemma string_literal_tokens :
  forall v : string,
    all_chars literal_char v = true ->
    tokenize (String Tokenizer.quote (v ++ String Tokenizer.quote ""))
    = Some (Ok [mk_token (String Tokenizer.quote (v ++ String Tokenizer.quote ""))
                  1 2 None]).
Proof.
  intros v L. unfold tokenize, iter_begin, Tokenizer.call.
  cbn [Tokenizer.reset Tokenizer.tmp_token Str.empty negb].
  cbn [Tokenizer.token_loop]. unfold Tokenizer.skip_comment.
  cbn [Tokenizer.skip_comment_loop].
  change (Tokenizer.is_string (Tokenizer.get Tokenizer.reset Tokenizer.quote))
    with false.
  change (Ascii.eqb Tokenizer.quote "#") with false.
  change (Ascii.eqb Tokenizer.quote "/") with false.
  cbn [lift mbind].
  change (Tokenizer.is_string (Tokenizer.get Tokenizer.reset Tokenizer.quote))
    with false.
  change (Ascii.eqb Tokenizer.quote Ascii.zero) with false.
  rewrite Ascii.eqb_refl.
  change (Tokenizer.start_token
            (Tokenizer.get Tokenizer.reset Tokenizer.quote)
            (token_at "" 0 0) Tokenizer.quote)
    with (assign_text (token_at "" 1 2) (String Tokenizer.quote "")).
  rewrite string_body;
    [| reflexivity | exact L
     | cbn [String.length]; rewrite length_append; lia ].
  cbn [mbind ret].
  set (st := Tokenizer.set_is_string _ false).
  assert (T : Str.empty (Tokenizer.tmp_token st) = true).
  { unfold st.
    destruct (advance_keeps
                (Tokenizer.set_is_string
                   (Tokenizer.get Tokenizer.reset Tokenizer.quote) true)
                (v ++ String Tokenizer.quote "")) as [_ T].
    cbn [Tokenizer.set_is_string Tokenizer.tmp_token]. rewrite T. reflexivity. }
  cbn [Nat.mul Nat.add String.length]. rewrite Nat.add_comm.
  cbn [Nat.add drain valid negb]. unfold iter_next, Tokenizer.call.
  cbn [f_ begin_ tok_]. rewrite T. cbn. reflexivity.
Qed.

(** X14: A string value without quote, backslash or NUL characters, printed
    as a literal, is tokenized as one token, and that token is read as a
    String scalar with the same characters; the empty string is the
    exception, it is read as a string of two quote characters. *)
Theorem string_literal_read_back :
  forall (io : FloatText) (v : string),
    all_chars literal_char v = true ->
    tokenize (print_scalar (ScalarString v) FormatDefault)
    = Some (Ok [mk_token (print_scalar (ScalarString v) FormatDefault) 1 2 None])
    /\ forall name value : token,
         text value = print_scalar (ScalarString v) FormatDefault ->
         _get_scalar_item name value
         = Ok (Setting (text name) TypeString
                 (BScalar (ScalarString
                             (if Str.empty v then dquote ++ dquote else v))
                          FormatDefault)).
Proof.
  intros io v L. split.
  - exact (string_literal_tokens v L).
  - intros name value E. unfold _get_scalar_item. rewrite E.
    change (print_scalar (ScalarString v) FormatDefault)
      with (String Tokenizer.quote (v ++ String Tokenizer.quote "")).
    unfold _get_scalar_type. cbn [Str.front]. rewrite Ascii.eqb_refl.
    unfold _remove_quotes. cbn [Str.empty Str.front negb andb String.length].
    rewrite Ascii.eqb_refl, length_append. cbn [andb String.length].
    destruct v as [| a v].
    + reflexivity.
    + replace (2 <? S (String.length (String a v) + 1))%nat with true
        by (symmetry; apply Nat.ltb_lt; cbn; lia).
      unfold Str.substr. cbn [Str.substr_from].
      replace (S (String.length (String a v) + 1) - 2)%nat
        with (String.length (String a v)) by lia.
      rewrite prefix_app. reflexivity.
Qed.

Lemma string_literal_read_back_witness :
  tokenize (@print_scalar StdFloat.float_text (ScalarString "a b") FormatDefault)
  = Some (Ok [mk_token (@print_scalar StdFloat.float_text (ScalarString "a b")
                          FormatDefault) 1 2 None])
  /\ forall name value : token,
       text value = @print_scalar StdFloat.float_text (ScalarString "a b")
                      FormatDefault ->
       @_get_scalar_item StdFloat.float_text name value
       = Ok (Setting (text name) TypeString
               (BScalar (ScalarString "a b") FormatDefault)).
Proof. exact (string_literal_read_back StdFloat.float_text "a b" eq_refl). Defined.

Lemma word_char_facts c :
  word_char c = true ->
  Ascii.eqb c "#" = false /\ Ascii.eqb c "/" = false
  /\ Ascii.eqb c Ascii.zero = false /\ Ascii.eqb c Tokenizer.quote = false
  /\ Str.isspace c = false
  /\ Tokenizer.is_in_set c Tokenizer.separators = false.
Proof.
  destruct c as [[] [] [] [] [] [] [] []]; vm_compute; intro H;
    try discriminate H; repeat split.
Qed.

Lemma word_tail w :
  forall fuel st tok,
    Tokenizer.is_string st = false ->
    all_chars word_char w = true ->
    (String.length w < fuel)%nat ->
    exists tok' st',
      Tokenizer.token_loop fuel st w tok false true = ret (false, tok', st', "").
Proof.
  induction w as [| a w IH]; intros fuel st tok S L F.
  - destruct fuel; do 2 eexists; reflexivity.
  - destruct fuel as [| fuel]; [cbn in F; lia |].
    cbn [all_chars] in L. apply andb_prop in L as [La L].
    destruct (word_char_facts _ La) as (H1 & H2 & H3 & H4 & H5 & H6).
    cbn [Tokenizer.token_loop]. unfold Tokenizer.skip_comment.
    cbn [Tokenizer.skip_comment_loop]. rewrite get_keeps_is_string, S, H1, H2.
    cbn [lift mbind]. rewrite get_keeps_is_string, S, H3, H4, H5, H6.
    apply IH; [now rewrite get_keeps_is_string | exact L | cbn in F; lia].
Qed.

(** X15: An identifier or number that runs up to the end of the input is not
    delivered: the tokenizer reports that there is no further token, so
    a document that is nothing but such a word has no tokens. *)
Theorem word_at_end_of_input_is_dropped :
  forall (st : Tokenizer.state) (tok : token) (w : string),
    Tokenizer.tmp_token st = "" ->
    Tokenizer.is_string st = false ->
    all_chars word_char w = true ->
    (exists tok' st',
        Tokenizer.call st w tok = Some (Ok (false, tok', st', "")))
    /\ tokenize w = Some (Ok []).
Proof.
  assert (C : forall st tok w,
             Tokenizer.tmp_token st = "" ->
             Tokenizer.is_string st = false ->
             all_chars word_char w = true ->
             exists tok' st',
               Tokenizer.call st w tok = Some (Ok (false, tok', st', ""))).
  { intros st tok w T S L. unfold Tokenizer.call. rewrite T.
    cbn [Str.empty negb]. destruct w as [| a w]; [do 2 eexists; reflexivity |].
    cbn [all_chars] in L. apply andb_prop in L as [La L].
    destruct (word_char_facts _ La) as (H1 & H2 & H3 & H4 & H5 & H6).
    cbn [Tokenizer.token_loop]. unfold Tokenizer.skip_comment.
    cbn [Tokenizer.skip_comment_loop]. rewrite get_keeps_is_string, S, H1, H2.
    cbn [lift mbind]. rewrite get_keeps_is_string, S, H3, H4, H5, H6.
    cbn [negb].
    apply word_tail; [now rewrite get_keeps_is_string | exact L | cbn; lia]. }
  intros st tok w T S L. split; [now apply C |].
  unfold tokenize, iter_begin. destruct w as [| a w]; [reflexivity |].
  destruct (C Tokenizer.reset (token_at "" 0 0) (String a w) eq_refl eq_refl L)
    as (tok' & st' & ->).
  cbn [mbind ret]. destruct (2 * String.length (String a w) + 2)%nat;
    reflexivity.
Qed.

Lemma word_at_end_of_input_is_dropped_witness :
  (exists tok' st',
      Tokenizer.call Tokenizer.reset "port" (token_at "" 0 0)
      = Some (Ok (false, tok', st', "")))
  /\ tokenize "port" = Some (Ok []).
Proof.
  apply (word_at_end_of_input_is_dropped Tokenizer.reset (token_at "" 0 0) "port");
    reflexivity.
Defined.

(** ** Brackets, adjacent literals and files *)

Lemma _find_pair_loop_balance o c toks :
  forall count pos found,
    (1 <= count)%N ->
    _find_pair_loop o c count toks pos = Some found ->
    exists k,
      found = (pos + k)%nat
      /\ (k < List.length toks)%nat
      /\ is_tok (nth k toks no_token) c = true
      /\ Z.of_N count + bracket_depth o c (firstn (S k) toks) = 0
      /\ forall j, (j < k)%nat ->
                   0 < Z.of_N count + bracket_depth o c (firstn (S j) toks).
Proof.
  induction toks as [| tok r IH]; intros count pos found C H;
    cbn [_find_pair_loop] in H; [discriminate |].
  assert (step : forall count',
             (1 <= count')%N ->
             Z.of_N count' = Z.of_N count
               + (if is_tok tok o then 1 else if is_tok tok c then -1 else 0) ->
             _find_pair_loop o c count' r (S pos) = Some found ->
             exists k,
               found = (pos + k)%nat
               /\ (k < List.length (tok :: r))%nat
               /\ is_tok (nth k (tok :: r) no_token) c = true
               /\ Z.of_N count + bracket_depth o c (firstn (S k) (tok :: r)) = 0
               /\ forall j, (j < k)%nat ->
                   0 < Z.of_N count + bracket_depth o c (firstn (S j) (tok :: r))).
  { intros count' C' E H'.
    destruct (IH count' (S pos) found C' H') as (k & -> & L & T & B & P).
    exists (S k). repeat split.
    - lia.
    - cbn [List.length]. lia.
    - exact T.
    - change (firstn (S (S k)) (tok :: r)) with (tok :: firstn (S k) r).
      cbn [bracket_depth]. lia.
    - intros j Lj. destruct j as [| j].
      + cbn [firstn bracket_depth]. lia.
      + change (firstn (S (S j)) (tok :: r)) with (tok :: firstn (S j) r).
        cbn [bracket_depth]. specialize (P j ltac:(lia)). lia. }
  destruct (is_tok tok o) eqn:Op.
  - apply (step (N.succ count)); [lia | lia | exact H].
  - destruct (is_tok tok c) eqn:Cl.
    + destruct (N.eqb_spec count 1) as [-> | N1].
      * injection H as <-. exists 0%nat. repeat split.
        -- lia.
        -- cbn [List.length]. lia.
        -- exact Cl.
        -- cbn [firstn bracket_depth]. rewrite Op, Cl. reflexivity.
        -- intros j Lj. lia.
      * apply (step (size_t_pred count)); [| | exact H];
          unfold size_t_pred; destruct (N.eqb_spec count 0); lia.
    + apply (step count); [exact C | lia | exact H].
Qed.

(** X18: Called on tokens that begin with the opening token, _find_pair
    returns the first position at which opening and closing tokens are
    balanced, and the token there is the closing token. *)
Theorem _find_pair_matches :
  forall (open_token close_token : string) (first : token)
         (toks : list token) (pos : nat),
    is_tok first open_token = true ->
    _find_pair open_token close_token (first :: toks) = Ok pos ->
    (pos < List.length (first :: toks))%nat
    /\ is_tok (nth pos (first :: toks) no_token) close_token = true
    /\ bracket_depth open_token close_token (firstn (S pos) (first :: toks)) = 0
    /\ forall j, (j < pos)%nat ->
                 0 < bracket_depth open_token close_token (firstn (S j) (first :: toks)).
Proof.
  intros o c first toks pos F H. unfold _find_pair in H.
  cbn [_find_pair_loop] in H. rewrite F in H.
  destruct (_find_pair_loop o c (N.succ 0) toks 1) as [found |] eqn:E;
    [| discriminate].
  injection H as <-.
  assert (One : (1 <= N.succ 0)%N) by lia.
  destruct (_find_pair_loop_balance o c toks _ _ _ One E)
    as (k & -> & L & T & B & P).
  change (1 + k)%nat with (S k). repeat split.
  - cbn [List.length]. lia.
  - exact T.
  - change (firstn (S (S k)) (first :: toks)) with (first :: firstn (S k) toks).
    cbn [bracket_depth]. rewrite F. lia.
  - intros j Lj. destruct j as [| j].
    + cbn [firstn bracket_depth]. rewrite F. lia.
    + change (firstn (S (S j)) (first :: toks)) with (first :: firstn (S j) toks).
      cbn [bracket_depth]. rewrite F. specialize (P j ltac:(lia)). lia.
Qed.

Lemma _find_pair_matches_witness :
  (3 < List.length (token_at "{" 1 1
                      :: [token_at "{" 1 2; token_at "}" 1 3; token_at "}" 1 4;
                          token_at "}" 1 5]))%nat
  /\ is_tok (nth 3 (token_at "{" 1 1
                      :: [token_at "{" 1 2; token_at "}" 1 3; token_at "}" 1 4;
                          token_at "}" 1 5]) no_token) "}" = true
  /\ bracket_depth "{" "}" (firstn 4 (token_at "{" 1 1
                      :: [token_at "{" 1 2; token_at "}" 1 3; token_at "}" 1 4;
                          token_at "}" 1 5])) = 0
  /\ forall j, (j < 3)%nat ->
               0 < bracket_depth "{" "}" (firstn (S j) (token_at "{" 1 1
                      :: [token_at "{" 1 2; token_at "}" 1 3; token_at "}" 1 4;
                          token_at "}" 1 5])).
Proof.
  apply (_find_pair_matches "{" "}" (token_at "{" 1 1)
           [token_at "{" 1 2; token_at "}" 1 3; token_at "}" 1 4;
            token_at "}" 1 5] 3); reflexivity.
Defined.






Section FileFacts.

Context {io : FloatText}.

(** X26: Reading a file that cannot be opened is no error: the result is an
    empty document. *)
Theorem unreadable_file_gives_empty_document :
  forall (depth : nat) (w : world) (path include_dir _path : string),
    _construct_path path include_dir = Ok _path ->
    open_file w _path = None ->
    _read_file (S depth) w path include_dir
    = Some (Ok (new_setting "" TypeGroup)).
Proof.
  intros depth w path include_dir _path C O. unfold _read_file.
  rewrite C. cbn [lift mbind parser_parse]. rewrite O. reflexivity.
Qed.

End FileFacts.

Lemma unreadable_file_gives_empty_document_witness :
  @_read_file StdFloat.float_text 1 (single_file "/doc.cfg" "a = 1;")
    "other.cfg" "/etc"
  = Some (Ok (new_setting "" TypeGroup)).
Proof.
  apply (@unreadable_file_gives_empty_document StdFloat.float_text 0
           (single_file "/doc.cfg" "a = 1;") "other.cfg" "/etc"
           "/etc/other.cfg"); reflexivity.
Defined.

(** ** Literals out of range, index paths and assignment *)

Section LiteralFacts.

Context {io : FloatText}.

(** X13: A decimal integer literal without suffix is read as an Int whatever
    its size: a number outside the range of int is stored as the nearest
    limit and no error is raised. *)
Theorem decimal_literal_is_clamped :
  forall (name value : token) (v : Z),
    text value = show_dec v ->
    _get_scalar_item name value
    = Ok (Setting (text name) TypeInt
            (BScalar (ScalarInt (if v <? Limits.int_min then Limits.int_min
                                 else if Limits.int_max <? v then Limits.int_max
                                 else v))
                     FormatDefault)).
Proof.
  intros name value v E.
  destruct (scalar_type_show_dec v) as (T1 & H1 & _ & _).
  unfold _get_scalar_item. rewrite E, T1, H1. unfold Extract.to_int.
  replace (show_dec v) with (show_dec v ++ "") at 1
    by (clear; induction (show_dec v); cbn; congruence).
  rewrite integer_show_dec by reflexivity. reflexivity.
Qed.

End LiteralFacts.

Lemma decimal_literal_is_clamped_witness :
  @_get_scalar_item StdFloat.float_text (token_at "n" 1 1)
    (token_at "4294967296" 1 5)
  = Ok (Setting "n" TypeInt (BScalar (ScalarInt 2147483647) FormatDefault)).
Proof.
  exact (@decimal_literal_is_clamped StdFloat.float_text (token_at "n" 1 1)
           (token_at "4294967296" 1 5) 4294967296 eq_refl).
Defined.




(** X10: A successful assignment of a bool, int, long, float or string to a
    setting of a well-formed tree keeps its name and type, and the
    stored value keeps the class that belongs to the type. *)
Theorem assignment_keeps_well_formed :
  forall s s' : basic_setting,
    well_formed s ->
    (exists x, assign_bool s x = Ok s')
    \/ (exists x, assign_int s x = Ok s')
    \/ (exists x, assign_long s x = Ok s')
    \/ (exists x, assign_float s x = Ok s')
    \/ (exists x, assign_string s x = Ok s') ->
    well_formed s' /\ getType s' = getType s /\ getName s' = getName s.
Proof.
  intros s s' W H.
  assert (K : forall f,
             (forall v v', f v = Ok v' ->
                           _deduce_scalar_type v' = _deduce_scalar_type v) ->
             assign_with f s = Ok s' ->
             well_formed s' /\ getType s' = getType s
             /\ getName s' = getName s).
  { intros f T A. split; [exact (assign_with_well_formed f s s' T W A) |].
    split; [| exact (assign_with_name f s s' A)].
    destruct s as [n t [v fmt | l | l | m]]; cbn [assign_with] in A;
      try discriminate.
    destruct (f v); [| discriminate]. cbn [bind] in A. now injection A as <-. }
  destruct H as [[x A] | [[x A] | [[x A] | [[x A] | [x A]]]]];
    refine (K _ _ A); intros v v' E;
    destruct (assignValue_keeps_type v v') as (Kb & Ki & Kl & Kf & Ks); eauto.
Qed.

Lemma assignment_keeps_well_formed_witness :
  well_formed (Setting "n" TypeInt (BScalar (ScalarInt 7) FormatDefault))
  /\ getType (Setting "n" TypeInt (BScalar (ScalarInt 7) FormatDefault))
     = getType (new_setting "n" TypeInt)
  /\ getName (Setting "n" TypeInt (BScalar (ScalarInt 7) FormatDefault))
     = getName (new_setting "n" TypeInt).
Proof.
  apply (assignment_keeps_well_formed (new_setting "n" TypeInt)
           (Setting "n" TypeInt (BScalar (ScalarInt 7) FormatDefault))).
  - apply new_setting_well_formed.
  - right. left. exists 7. reflexivity.
Defined.



(** ** Instances of the hypotheses *)

Lemma group_add_keeps_order_witness :
  keys_ascending (Map.insert "ab" (new_setting "ab" TypeList) Shelf.pair_ab)
  /\ keyed_by_name (Map.insert "ab" (new_setting "ab" TypeList) Shelf.pair_ab).
Proof.
  apply (group_add_keeps_order Shelf.pair_ab _ (new_setting "ab" TypeList)).
  - cbn. repeat constructor.
  - repeat constructor.
  - reflexivity.
Defined.

Lemma group_remove_by_name_witness :
  (Map.count "a" Shelf.pair_ab = false ->
   raises_SettingNotFound (Body.remove_name (BContainer Shelf.pair_ab) "a") = true)
  /\ (Map.count "a" Shelf.pair_ab = true ->
      exists m',
        Body.remove_name (BContainer Shelf.pair_ab) "a" = Ok (BContainer m')
        /\ Body.exists_name (BContainer m') "a" = false
        /\ (forall k, k <> "a" ->
              Body.at_name (BContainer m') k
              = Body.at_name (BContainer Shelf.pair_ab) k)
        /\ (Body.size (BContainer m') + 1)%N = Body.size (BContainer Shelf.pair_ab)
        /\ keys_ascending m').
Proof.
  apply (group_remove_by_name Shelf.pair_ab "a"). cbn. repeat constructor.
Defined.

Lemma group_index_order_witness :
  Str.ltb (getName (new_setting "a" TypeInt))
          (getName (new_setting "b" TypeString)) = true.
Proof.
  apply (group_index_order Shelf.pair_ab 0%N 1%N
           (new_setting "a" TypeInt) (new_setting "b" TypeString)).
  - cbn. repeat constructor.
  - repeat constructor.
  - reflexivity.
  - reflexivity.
  - reflexivity.
Defined.

Lemma getPath_leads_back_witness :
  getPath [Shelf.inner; Shelf.root]
          (Setting "port" TypeInt (BScalar (ScalarInt 80) FormatDefault))
  = join ["server"; "port"]
  /\ _at Shelf.root
         (getPath [Shelf.inner; Shelf.root]
            (Setting "port" TypeInt (BScalar (ScalarInt 80) FormatDefault)))
     = Ok (Setting "port" TypeInt (BScalar (ScalarInt 80) FormatDefault)).
Proof.
  apply (getPath_leads_back Shelf.root ["server"; "port"]).
  - reflexivity.
  - repeat constructor.
  - discriminate.
  - reflexivity.
Defined.

Lemma exists_agrees_with_subscript_witness :
  exists_ Shelf.root (join ["server"; "port"])
  = Ok (is_ok (subscript Shelf.root (join ["server"; "port"]))).
Proof.
  apply (exists_agrees_with_subscript Shelf.root ["server"; "port"]).
  - repeat constructor.
  - discriminate.
Defined.

Lemma exists_misses_index_steps_witness :
  exists_ (Setting "l" TypeList (BList [Shelf.inner])) "[0].port" <> Ok true
  /\ is_ok (subscript (Setting "l" TypeList (BList [Shelf.inner])) "[0].port")
     = true.
Proof.
  split; [| reflexivity].
  apply (exists_misses_index_steps
           (Setting "l" TypeList (BList [Shelf.inner])) "[0].port");
    reflexivity.
Defined.

Lemma subscript_failure_names_whole_path_witness :
  SettingNotFoundException "Setting not found" "server.host"
  = SettingNotFoundException "Setting not found" "server.host".
Proof.
  apply (subscript_failure_names_whole_path Shelf.root "server.host").
  reflexivity.
Defined.


Lemma array_add_keeps_homogeneous_witness :
  (raises_SettingType
     (Body.add (BArray [new_setting "" TypeInt]) (new_setting "" TypeString))
   = true
   <-> isScalar (new_setting "" TypeString) = false
       \/ exists x, In x [new_setting "" TypeInt]
                    /\ getType x <> getType (new_setting "" TypeString))
  /\ (forall b,
        Body.add (BArray [new_setting "" TypeInt]) (new_setting "" TypeString)
        = Ok b ->
        b = BArray ([new_setting "" TypeInt] ++ [new_setting "" TypeString])
        /\ homogeneous ([new_setting "" TypeInt] ++ [new_setting "" TypeString])).
Proof.
  apply (array_add_keeps_homogeneous [new_setting "" TypeInt]
           (new_setting "" TypeString)).
  split.
  - repeat constructor.
  - intros x y [<- | []] [<- | []]. reflexivity.
Defined.

(** X16: On every input the tokenizer terminates: iterating to the end
    either delivers the list of tokens or throws. *)
Theorem tokenizer_always_answers :
  forall input : string, exists r, tokenize input = Some r.
Proof. exact tokenize_total. Qed.
